(** * Cable design validator (app.py): extraction, rule engine and fusion

    A shallow embedding of the validation core of [app.py]
    ([extract_json], [fallback_extract], [apply_iec_rules],
    [validate_cable_design]) together with the fragments of the Python
    runtime the code relies on: [str] values as lists of code points,
    binary64 floats, the backtracking semantics of the [re] patterns that
    occur in the source, and [json.loads]. *)

From Stdlib Require Import ZArith NArith List String Ascii Bool Lia Floats.
Import ListNotations.

Set Warnings "-inexact-float,-register-all".
Local Open Scope Z_scope.

(** ** Python [str]: a sequence of Unicode code points *)

Definition char := N.
Definition text := list char.

(** String literals of the source are written as UTF-8 Rocq strings and
    decoded to code points. [need] is the number of continuation bytes
    still expected, [acc] the bits gathered so far. *)
Fixpoint utf8 (s : string) (need : nat) (acc : N) : text :=
  match s with
  | EmptyString => []
  | String a s' =>
      let b := N_of_ascii a in
      match need with
      | O =>
          if (b <? 128)%N then b :: utf8 s' 0 0%N
          else if (b <? 224)%N then utf8 s' 1 (b - 192)%N
          else if (b <? 240)%N then utf8 s' 2 (b - 224)%N
          else utf8 s' 3 (b - 240)%N
      | S O => (acc * 64 + (b - 128))%N :: utf8 s' 0 0%N
      | S n => utf8 s' n (acc * 64 + (b - 128))%N
      end
  end.

Definition str (s : string) : text := utf8 s 0 0%N.

(** The double quote, which the literals above never contain. *)
Definition dq : text := [34%N].

Fixpoint text_eqb (a b : text) : bool :=
  match a, b with
  | [], [] => true
  | x :: a', y :: b' => (x =? y)%N && text_eqb a' b'
  | _, _ => false
  end.

Fixpoint startswith (s p : text) : bool :=
  match p, s with
  | [], _ => true
  | x :: p', y :: s' => (x =? y)%N && startswith s' p'
  | _ :: _, [] => false
  end.

(** [sub in s] on strings. *)
Fixpoint contains (sub s : text) : bool :=
  startswith s sub ||
  match s with
  | [] => false
  | _ :: s' => contains sub s'
  end.

(** [s.replace(old, new)] for a non-empty [old]: occurrences are replaced
    from left to right without overlap. [skip] counts the characters of an
    occurrence that is being dropped. *)
Fixpoint replace_from (old new s : text) (skip : nat) : text :=
  match s with
  | [] => []
  | c :: s' =>
      match skip with
      | S k => replace_from old new s' k
      | O =>
          if startswith s old
          then new ++ replace_from old new s' (List.length old - 1)
          else c :: replace_from old new s' 0
      end
  end.

Definition replace (s old new : text) : text := replace_from old new s 0.

(** ** Exceptions *)

Inductive exn := KeyError | TypeError | ValueError | AttributeError.

Inductive result (A : Type) :=
| Ok (a : A)
| Raise (e : exn).
Arguments Ok {A} a.
Arguments Raise {A} e.

Definition bind {A B} (m : result A) (f : A -> result B) : result B :=
  match m with
  | Ok a => f a
  | Raise e => Raise e
  end.

Notation "x <- m ;; k" := (bind m (fun x => k))
  (at level 61, m at next level, right associativity).

(** ** Binary64 floats *)

Module PyFloat.

(** The float nearest to [p / q] ([0 <= p], [0 < q]), ties to even, as
    produced by the correctly rounded decimal conversion behind [float(s)].
    The quotient is taken with at least 56 significant bits and a sticky
    bit, then rounded once. *)
Definition of_ratio (p q : Z) : float :=
  if p =? 0 then 0%float
  else
    let e := Z.log2 p - Z.log2 q - 56 in
    let num := if 0 <=? e then p else p * 2 ^ (- e) in
    let den := if 0 <=? e then q * 2 ^ e else q in
    let sticky := if num mod den =? 0 then 0 else 1 in
    SF2Prim (binary_normalize prec emax (2 * (num / den) + sticky) (e - 1) false).

(** [m * 10 ^ e10] for [0 <= m]. *)
Definition of_decimal (m e10 : Z) : float :=
  if 0 <=? e10 then of_ratio (m * 10 ^ e10) 1 else of_ratio m (10 ^ (- e10)).

(** Round [a / b] ([0 <= a], [0 < b]) to the nearest integer, ties to even. *)
Definition round_half_even (a b : Z) : Z :=
  let q := a / b in
  match 2 * (a mod b) ?= b with
  | Lt => q
  | Gt => q + 1
  | Eq => if Z.even q then q else q + 1
  end.

(** [round(x, ndigits)] for [0 <= ndigits]: the exact value of [x] is
    rounded to [ndigits] decimals, ties to even, and the decimal obtained is
    converted back to the nearest float. Zeros, infinities and NaN round to
    themselves. *)
Definition round (x : float) (ndigits : Z) : float :=
  match Prim2SF x with
  | S754_finite s m e =>
      let scale := 10 ^ ndigits in
      let n :=
        if 0 <=? e then Zpos m * 2 ^ e * scale
        else round_half_even (Zpos m * scale) (2 ^ (- e)) in
      let r := of_ratio n scale in
      if s then PrimFloat.opp r else r
  | _ => x
  end.

(** [max(a, b)] and [min(a, b)] on floats: the first argument is kept
    unless the second compares strictly beyond it. *)
Definition max (a b : float) : float := if PrimFloat.ltb a b then b else a.
Definition min (a b : float) : float := if PrimFloat.ltb b a then b else a.

(** Exact comparison of an [int] with a float. *)
Definition Z_ltb_float (z : Z) (f : float) : bool :=
  match Prim2SF f with
  | S754_zero _ => z <? 0
  | S754_infinity s => negb s
  | S754_nan => false
  | S754_finite s m e =>
      let v := if s then Zneg m else Zpos m in
      if 0 <=? e then z <? v * 2 ^ e else z * 2 ^ (- e) <? v
  end.

Definition float_ltb_Z (f : float) (z : Z) : bool :=
  match Prim2SF f with
  | S754_zero _ => 0 <? z
  | S754_infinity s => s
  | S754_nan => false
  | S754_finite s m e =>
      let v := if s then Zneg m else Zpos m in
      if 0 <=? e then v * 2 ^ e <? z else v <? z * 2 ^ (- e)
  end.

End PyFloat.

(** ** Python values *)

Inductive pyval :=
| PNone
| PBool (b : bool)
| PInt (z : Z)
| PFloat (f : float)
| PStr (s : text)
| PList (l : list pyval)
| PDict (d : list (text * pyval)).

(** A [dict] with [str] keys, in insertion order, keys distinct. *)
Definition dict := list (text * pyval).

Fixpoint dict_get (d : dict) (k : text) : option pyval :=
  match d with
  | [] => None
  | (k', v) :: d' => if text_eqb k' k then Some v else dict_get d' k
  end.

(** [d[k] = v]: an existing key keeps its position. *)
Fixpoint dict_set (d : dict) (k : text) (v : pyval) : dict :=
  match d with
  | [] => [(k, v)]
  | (k', v') :: d' =>
      if text_eqb k' k then (k', v) :: d' else (k', v') :: dict_set d' k v
  end.

(** [k in d]. *)
Definition dict_in (k : text) (d : dict) : bool :=
  match dict_get d k with Some _ => true | None => false end.

(** [v[k]] for a [str] key [k]: only a [dict] can be subscripted so. *)
Definition getitem (v : pyval) (k : text) : result pyval :=
  match v with
  | PDict d => match dict_get d k with Some x => Ok x | None => Raise KeyError end
  | _ => Raise TypeError
  end.

(** [v.get(k, default)]: a method of [dict] only. *)
Definition get (v : pyval) (k : text) (default : pyval) : result pyval :=
  match v with
  | PDict d => Ok match dict_get d k with Some x => x | None => default end
  | _ => Raise AttributeError
  end.

(** Truth value of an object in a condition. *)
Definition truthy (v : pyval) : bool :=
  match v with
  | PNone => false
  | PBool b => b
  | PInt z => negb (z =? 0)
  | PFloat f => negb (PrimFloat.eqb f 0)
  | PStr s => match s with [] => false | _ => true end
  | PList l => match l with [] => false | _ => true end
  | PDict d => match d with [] => false | _ => true end
  end.

Definition is_none (v : pyval) : bool :=
  match v with PNone => true | _ => false end.

(** [v != s] for a [str] literal [s]: objects of other types differ from it. *)
Definition ne_str (v : pyval) (s : text) : bool :=
  match v with
  | PStr s' => negb (text_eqb s' s)
  | _ => true
  end.

(** [a < b] on numbers; ordering any other pair of the types below raises
    [TypeError]. [bool] compares as the integers 0 and 1, and an [int] is
    compared with a float exactly. *)
Definition py_lt (a b : pyval) : result bool :=
  let num v :=
    match v with
    | PBool b => Some (inl (if b then 1 else 0))
    | PInt z => Some (inl z)
    | PFloat f => Some (inr f)
    | _ => None
    end in
  match num a, num b with
  | Some (inl x), Some (inl y) => Ok (x <? y)
  | Some (inl x), Some (inr g) => Ok (PyFloat.Z_ltb_float x g)
  | Some (inr f), Some (inl y) => Ok (PyFloat.float_ltb_Z f y)
  | Some (inr f), Some (inr g) => Ok (PrimFloat.ltb f g)
  | _, _ => Raise TypeError
  end.

Definition py_gt (a b : pyval) : result bool := py_lt b a.

(** [min(a, b)]: [b] when [b < a], else [a]. *)
Definition py_min (a b : pyval) : result pyval :=
  c <- py_lt b a ;; Ok (if c then b else a).

(** ** The [re] module: backtracking matching *)

Module Re.

(** Character classes: [\d], [\s], [\S], [.] and a bracketed set. *)
Inductive cclass :=
| Digit
| Space
| NotSpace
| Dot
| Bracket (l : list cclass).

(** What a quantifier applies to in the patterns of the source: one literal
    character or one class. *)
Inductive item :=
| Chr (c : char)
| Cls (c : cclass).

Inductive quant := Opt | Star | Plus | LazyStar.

Inductive regex :=
| Lit (s : text)
| Rep (q : quant) (i : item)
| Seq (a b : regex)
| Alt (a b : regex)
| Group (n : nat) (a : regex).

(** Captured groups, the most recent binding first. *)
Definition captures := list (nat * text).

Fixpoint lookup (caps : captures) (n : nat) : option text :=
  match caps with
  | [] => None
  | (n', w) :: caps' => if Nat.eqb n' n then Some w else lookup caps' n
  end.

(** A match object: the matched text, the groups, and the text after it. *)
Record match_object := MatchObject {
  whole : text;
  groups : captures;
  after : text
}.

Definition group (m : match_object) (n : nat) : option text :=
  lookup (groups m) n.

Fixpoint strip_prefix (p s : text) : option text :=
  match p, s with
  | [], _ => Some s
  | x :: p', y :: s' => if (x =? y)%N then strip_prefix p' s' else None
  | _ :: _, [] => None
  end.

Definition consumed (s s' : text) : text :=
  firstn (List.length s - List.length s') s.

Section Matcher.

(** The Unicode tables behind [\d] and [\s]: the decimal value of a
    character of category Nd, and the white space property. *)
Variable decimal : char -> option N.
Variable space : char -> bool.

Fixpoint in_class (cl : cclass) (c : char) : bool :=
  match cl with
  | Digit => match decimal c with Some _ => true | None => false end
  | Space => space c
  | NotSpace => negb (space c)
  | Dot => negb (c =? 10)%N
  | Bracket l => existsb (fun cl' => in_class cl' c) l
  end.

Definition accepts (i : item) (c : char) : bool :=
  match i with
  | Chr c' => (c' =? c)%N
  | Cls cl => in_class cl c
  end.

Definition cont := text -> captures -> option (text * captures).

(** [i*]: take as many characters as possible, give them back one by one. *)
Fixpoint greedy (i : item) (s : text) (caps : captures) (k : cont) :=
  match s with
  | c :: s' =>
      if accepts i c then
        match greedy i s' caps k with
        | Some r => Some r
        | None => k s caps
        end
      else k s caps
  | [] => k s caps
  end.

(** [i*?]: try to go on first, take one more character on failure. *)
Fixpoint lazy (i : item) (s : text) (caps : captures) (k : cont) :=
  match k s caps with
  | Some r => Some r
  | None =>
      match s with
      | c :: s' => if accepts i c then lazy i s' caps k else None
      | [] => None
      end
  end.

Fixpoint run (r : regex) (s : text) (caps : captures) (k : cont) :=
  match r with
  | Lit l =>
      match strip_prefix l s with
      | Some s' => k s' caps
      | None => None
      end
  | Rep Opt i =>
      match s with
      | c :: s' =>
          if accepts i c then
            match k s' caps with
            | Some r => Some r
            | None => k s caps
            end
          else k s caps
      | [] => k s caps
      end
  | Rep Star i => greedy i s caps k
  | Rep Plus i =>
      match s with
      | c :: s' => if accepts i c then greedy i s' caps k else None
      | [] => None
      end
  | Rep LazyStar i => lazy i s caps k
  | Seq a b => run a s caps (fun s' caps' => run b s' caps' k)
  | Alt a b =>
      match run a s caps k with
      | Some r => Some r
      | None => run b s caps k
      end
  | Group n a =>
      run a s caps (fun s' caps' => k s' ((n, consumed s s') :: caps'))
  end.

(** A match anchored at the start of [s]. *)
Definition match_at (r : regex) (s : text) : option match_object :=
  match run r s [] (fun s' caps => Some (s', caps)) with
  | Some (s', caps) => Some (MatchObject (consumed s s') caps s')
  | None => None
  end.

(** [re.search]: the match at the leftmost position that has one. *)
Fixpoint search (r : regex) (s : text) : option match_object :=
  match match_at r s with
  | Some m => Some m
  | None =>
      match s with
      | [] => None
      | _ :: s' => search r s'
      end
  end.

(** The successive non-overlapping matches behind [re.findall], scanning
    from left to right. [skip] counts the positions inside the last match. *)
Fixpoint scan (r : regex) (s : text) (skip : nat) : list match_object :=
  match skip with
  | S k =>
      match s with
      | [] => []
      | _ :: s' => scan r s' k
      end
  | O =>
      match match_at r s with
      | Some m =>
          m :: match s with
               | [] => []
               | _ :: s' => scan r s' (List.length (whole m) - 1)
               end
      | None =>
          match s with
          | [] => []
          | _ :: s' => scan r s' 0
          end
      end
  end.

(** [re.findall] for a pattern without group: the matched texts. *)
Definition findall0 (r : regex) (s : text) : list text :=
  map whole (scan r s 0).

(** [re.findall] for a pattern with one group: the texts of the group. *)
Definition findall1 (r : regex) (s : text) : list (option text) :=
  map (fun m => group m 1) (scan r s 0).

End Matcher.

End Re.

(** ** [json.loads] *)

Module Json.

Definition is_ws (c : char) : bool :=
  ((c =? 32) || (c =? 9) || (c =? 10) || (c =? 13))%N.

Fixpoint skip_ws (s : text) : text :=
  match s with
  | c :: s' => if is_ws c then skip_ws s' else s
  | [] => []
  end.

Definition digit_val (c : char) : option Z :=
  if ((48 <=? c) && (c <=? 57))%N then Some (Z.of_N c - 48) else None.

Definition hex_val (c : char) : option N :=
  (if (48 <=? c) && (c <=? 57) then Some (c - 48)
   else if (97 <=? c) && (c <=? 102) then Some (c - 87)
   else if (65 <=? c) && (c <=? 70) then Some (c - 55)
   else None)%N.

Definition hex4 (a b c d : char) : option N :=
  match hex_val a, hex_val b, hex_val c, hex_val d with
  | Some x, Some y, Some z, Some w => Some (((x * 16 + y) * 16 + z) * 16 + w)%N
  | _, _, _, _ => None
  end.

(** The longest run of digits at the start of [s], accumulated onto [acc];
    [n] counts them. *)
Fixpoint digits (s : text) (acc n : Z) : Z * Z * text :=
  match s with
  | c :: s' =>
      match digit_val c with
      | Some d => digits s' (acc * 10 + d) (n + 1)
      | None => (acc, n, s)
      end
  | [] => (acc, n, [])
  end.

(** A number: an optional minus sign, then 0 or a digit 1-9 followed by
    digits, then optionally a point with at least one digit, then optionally
    e or E with an optional sign and at least one digit. It is a float when
    it has a fraction or an exponent, an [int] otherwise. The interpreter's
    limit on the number of digits of an [int] literal is not modelled. *)
Definition parse_number (s : text) : option (pyval * text) :=
  let '(neg, s1) :=
    match s with
    | c :: s' => if (c =? 45)%N then (true, s') else (false, s)
    | [] => (false, s)
    end in
  let int_part :=
    match s1 with
    | c :: r =>
        if (c =? 48)%N then Some (0, r)
        else
          match digit_val c with
          | Some _ => let '(v, _, r) := digits s1 0 0 in Some (v, r)
          | None => None
          end
    | [] => None
    end in
  match int_part with
  | None => None
  | Some (iv, r) =>
      let '(mant, nfrac, r1) :=
        match r with
        | c :: r' =>
            if (c =? 46)%N then
              let '(m, n, q) := digits r' iv 0 in
              if 0 <? n then (m, Some n, q) else (iv, None, r)
            else (iv, None, r)
        | [] => (iv, None, r)
        end in
      let '(e10, r2) :=
        match r1 with
        | c :: r' =>
            if ((c =? 101) || (c =? 69))%N then
              let '(eneg, q) :=
                match r' with
                | c' :: t =>
                    if (c' =? 45)%N then (true, t)
                    else if (c' =? 43)%N then (false, t)
                    else (false, r')
                | [] => (false, r')
                end in
              let '(ev, n, q') := digits q 0 0 in
              if 0 <? n then (Some (if eneg then - ev else ev), q')
              else (None, r1)
            else (None, r1)
        | [] => (None, r1)
        end in
      match nfrac, e10 with
      | None, None => Some (PInt (if neg then - iv else iv), r2)
      | _, _ =>
          let f := PyFloat.of_decimal mant
                     (match e10 with Some e => e | None => 0 end
                      - match nfrac with Some n => n | None => 0 end) in
          Some (PFloat (if neg then PrimFloat.opp f else f), r2)
      end
  end.

Definition escape (c : char) : option char :=
  (if c =? 34 then Some 34        (* quote *)
   else if c =? 92 then Some 92   (* backslash *)
   else if c =? 47 then Some 47   (* slash *)
   else if c =? 98 then Some 8    (* b *)
   else if c =? 102 then Some 12  (* f *)
   else if c =? 110 then Some 10  (* n *)
   else if c =? 114 then Some 13  (* r *)
   else if c =? 116 then Some 9   (* t *)
   else None)%N.

Definition high_surrogate (c : N) : bool := ((55296 <=? c) && (c <=? 56319))%N.
Definition low_surrogate (c : N) : bool := ((56320 <=? c) && (c <=? 57343))%N.
Definition join_surrogates (h l : N) : N :=
  (65536 + (h - 55296) * 1024 + (l - 56320))%N.

(** The body of a string after its opening quote (strict mode: no control
    character). [acc] holds the decoded characters, last first. Code 34 is
    the quote, 92 the backslash, 117 the letter u. *)
Fixpoint scan_string (s : text) (acc : text) : option (text * text) :=
  match s with
  | [] => None
  | c :: s' =>
      if (c =? 34)%N then Some (rev acc, s')
      else if (c =? 92)%N then
        match s' with
        | [] => None
        | e :: s'' =>
            if (e =? 117)%N then
              match s'' with
              | h1 :: h2 :: h3 :: h4 :: rest =>
                  match hex4 h1 h2 h3 h4 with
                  | None => None
                  | Some cp =>
                      if high_surrogate cp then
                        match rest with
                        | b :: u :: g1 :: g2 :: g3 :: g4 :: rest2 =>
                            if ((b =? 92) && (u =? 117))%N then
                              match hex4 g1 g2 g3 g4 with
                              | None => None
                              | Some c2 =>
                                  if low_surrogate c2
                                  then scan_string rest2
                                         (join_surrogates cp c2 :: acc)
                                  else scan_string rest (cp :: acc)
                              end
                            else scan_string rest (cp :: acc)
                        | _ => scan_string rest (cp :: acc)
                        end
                      else scan_string rest (cp :: acc)
                  end
              | _ => None
              end
            else
              match escape e with
              | Some x => scan_string s'' (x :: acc)
              | None => None
              end
        end
      else if (c <? 32)%N then None
      else scan_string s' (c :: acc)
  end.

(** A literal of the language, or else a number. *)
Definition parse_literal (s : text) : option (pyval * text) :=
  if startswith s (str "null") then Some (PNone, skipn 4 s)
  else if startswith s (str "true") then Some (PBool true, skipn 4 s)
  else if startswith s (str "false") then Some (PBool false, skipn 5 s)
  else if startswith s (str "NaN") then Some (PFloat nan, skipn 3 s)
  else if startswith s (str "Infinity") then Some (PFloat infinity, skipn 8 s)
  else if startswith s (str "-Infinity")
  then Some (PFloat neg_infinity, skipn 9 s)
  else parse_number s.

(** One JSON value at the start of [s]; the members of an object after its
    opening brace; the elements of an array after its opening bracket.
    Codes: 34 the quote, 123 and 125 the braces, 91 and 93 the brackets,
    58 the colon, 44 the comma. *)
Fixpoint parse_value (fuel : nat) (s : text) : option (pyval * text) :=
  match fuel with
  | O => None
  | S n =>
      match s with
      | [] => None
      | c :: s' =>
          if (c =? 34)%N then
            match scan_string s' [] with
            | Some (w, r) => Some (PStr w, r)
            | None => None
            end
          else if (c =? 123)%N then
            match skip_ws s' with
            | [] => None
            | c' :: r =>
                if (c' =? 125)%N then Some (PDict [], r)
                else
                  match parse_members n (c' :: r) [] with
                  | Some (d, r') => Some (PDict d, r')
                  | None => None
                  end
            end
          else if (c =? 91)%N then
            match skip_ws s' with
            | [] => None
            | c' :: r =>
                if (c' =? 93)%N then Some (PList [], r)
                else
                  match parse_elements n (c' :: r) [] with
                  | Some (l, r') => Some (PList l, r')
                  | None => None
                  end
            end
          else parse_literal s
      end
  end
with parse_members (fuel : nat) (s : text) (acc : dict) : option (dict * text) :=
  match fuel with
  | O => None
  | S n =>
      match s with
      | [] => None
      | c :: s' =>
          if (c =? 34)%N then
            match scan_string s' [] with
            | Some (key, r) =>
                match skip_ws r with
                | [] => None
                | c1 :: r1 =>
                    if (c1 =? 58)%N then
                      match parse_value n (skip_ws r1) with
                      | Some (v, r2) =>
                          let acc' := dict_set acc key v in
                          match skip_ws r2 with
                          | [] => None
                          | c3 :: r3 =>
                              if (c3 =? 125)%N then Some (acc', r3)
                              else if (c3 =? 44)%N
                              then parse_members n (skip_ws r3) acc'
                              else None
                          end
                      | None => None
                      end
                    else None
                end
            | None => None
            end
          else None
      end
  end
with parse_elements (fuel : nat) (s : text) (acc : list pyval)
  : option (list pyval * text) :=
  match fuel with
  | O => None
  | S n =>
      match parse_value n s with
      | Some (v, r) =>
          match skip_ws r with
          | [] => None
          | c1 :: r1 =>
              if (c1 =? 93)%N then Some (rev (v :: acc), r1)
              else if (c1 =? 44)%N
              then parse_elements n (skip_ws r1) (v :: acc)
              else None
          end
      | None => None
      end
  end.

(** [json.loads(s)]: one value, white space allowed around it; [None]
    stands for the [JSONDecodeError] raised otherwise. Each call of the
    parser is preceded by at most one other that consumed no character, so
    twice the length of [s] bounds the calls. *)
Definition loads (s : text) : option pyval :=
  match parse_value (2 * List.length s + 2) (skip_ws s) with
  | Some (v, r) =>
      match skip_ws r with
      | [] => Some v
      | _ => None
      end
  | None => None
  end.

End Json.

(** ** The application: [app.py] *)

Definition quoted (s : string) : text := dq ++ str s ++ dq.

(** Lines of a text, each ended by a newline. *)
Definition unlines (ls : list text) : text :=
  List.concat (map (fun l => l ++ [10%N]) ls).

Definition prompt_head : list text :=
  [ str "You are an expert electrical engineer validating cable designs against IEC standards.";
    str "";
    str "Standards: IEC 60502-1 (Low Voltage ≤ 1 kV) and IEC 60228 (Conductor specifications)";
    str "";
    str "VALIDATION RULES:";
    str "1. IEC 60502-1 applies ONLY to cables rated ≤ 1 kV";
    str "2. Conductor class must comply with IEC 60228 (Class 1, 2, 5, or 6)";
    str "3. Insulation thickness must meet minimum requirements for the voltage rating";
    str "4. Cross-sectional area (CSA) must match standard values";
    str "5. Material specifications must be clear (Cu/Al for conductor, PVC/XLPE for insulation)";
    str "";
    str "OUTPUT REQUIREMENTS:";
    str "- Provide ONLY valid JSON";
    str "- Use null for missing values (do NOT invent data)";
    str "- Status must be: " ++ quoted "PASS" ++ str ", " ++ quoted "WARN" ++ str ", or " ++ quoted "FAIL";
    str "- FAIL only for clear violations of IEC standards";
    str "- WARN for missing or ambiguous information";
    str "- Include detailed reasoning for engineering review";
    str "";
    str "JSON STRUCTURE:";
    str "{";
    str "  " ++ quoted "fields" ++ str ": {";
    str "    " ++ quoted "standard" ++ str ": null,";
    str "    " ++ quoted "voltage_kv" ++ str ": null,";
    str "    " ++ quoted "conductor_material" ++ str ": null,";
    str "    " ++ quoted "conductor_class" ++ str ": null,";
    str "    " ++ quoted "csa_mm2" ++ str ": null,";
    str "    " ++ quoted "insulation_material" ++ str ": null,";
    str "    " ++ quoted "insulation_thickness_mm" ++ str ": null";
    str "  },";
    str "  " ++ quoted "validation" ++ str ": [";
    str "    {";
    str "      " ++ quoted "field" ++ str ": " ++ quoted "field_name" ++ str ",";
    str "      " ++ quoted "status" ++ str ": " ++ quoted "PASS/WARN/FAIL" ++ str ",";
    str "      " ++ quoted "expected" ++ str ": " ++ quoted "expected_value" ++ str ",";
    str "      " ++ quoted "provided" ++ str ": " ++ quoted "provided_value" ++ str ",";
    str "      " ++ quoted "comment" ++ str ": " ++ quoted "detailed engineering explanation";
    str "    }";
    str "  ],";
    str "  " ++ quoted "reasoning" ++ str ": " ++ quoted "overall validation reasoning" ++ str ",";
    str "  " ++ quoted "confidence" ++ str ": {";
    str "    " ++ quoted "overall" ++ str ": 0.0,";
    str "    " ++ quoted "justification" ++ str ": " ++ quoted "explanation of confidence level";
    str "  }";
    str "}";
    str "";
    str "CABLE DESIGN INPUT:" ].

Definition prompt_tail : list text :=
  [ str "";
    str "";
    str "VALIDATION OUTPUT (JSON only):" ].

(** [build_prompt]: the template around the user's text. *)
Definition build_prompt (user_input : text) : text :=
  unlines prompt_head ++ user_input ++ unlines prompt_tail.

(** [k in v] for a [str] [k]. *)
Definition py_in (k : text) (v : pyval) : result bool :=
  match v with
  | PDict d => Ok (dict_in k d)
  | PList l =>
      Ok (existsb (fun x => match x with PStr s => text_eqb s k | _ => false end) l)
  | PStr s => Ok (contains k s)
  | _ => Raise TypeError
  end.

(** One compliance finding. [provided] is the field's value, a fixed text,
    or the value formatted in front of a unit (the f-string of the source,
    kept symbolic: the conversion of the value to text is not carried out,
    so the refusal of CPython to convert an [int] of more than 4300 digits
    is not represented; see [formattable]). *)
Inductive provided_t :=
| ProvidedValue (v : pyval)
| ProvidedText (s : text)
| ProvidedFormat (v : pyval) (suffix : text).

Record Finding := mkFinding {
  field : text;
  status : text;
  expected : text;
  provided : provided_t;
  comment : text
}.

(** The findings shown in a report: the oracle's list or the rule engine's. *)
Inductive validation_t :=
| OracleValidation (v : pyval)
| RuleValidation (l : list Finding).

Record ConfidenceRecord := mkConfidence {
  overall : pyval;
  ai_confidence : pyval;
  rule_confidence : float;
  justification : text
}.

Record ValidationResult := mkResult {
  fields : pyval;
  validation : validation_t;
  overall_status : text;
  ai_reasoning : pyval;
  confidence : ConfidenceRecord
}.

(** The seven nullable attributes of a design, with the types the fallback
    extractor gives them. *)
Record FieldSet := mkFieldSet {
  standard : option text;
  voltage_kv : option float;
  conductor_material : option text;
  conductor_class : option text;
  csa_mm2 : option float;
  insulation_material : option text;
  insulation_thickness_mm : option float
}.

Definition opt_str (o : option text) : pyval :=
  match o with Some s => PStr s | None => PNone end.

Definition opt_float (o : option float) : pyval :=
  match o with Some f => PFloat f | None => PNone end.

(** The [dict] that carries a field set. *)
Definition fields_dict (fs : FieldSet) : dict :=
  [ (str "standard", opt_str (standard fs));
    (str "voltage_kv", opt_float (voltage_kv fs));
    (str "conductor_material", opt_str (conductor_material fs));
    (str "conductor_class", opt_str (conductor_class fs));
    (str "csa_mm2", opt_float (csa_mm2 fs));
    (str "insulation_material", opt_str (insulation_material fs));
    (str "insulation_thickness_mm", opt_float (insulation_thickness_mm fs)) ].

Fixpoint seq (a : Re.regex) (rest : list Re.regex) : Re.regex :=
  match rest with
  | [] => a
  | b :: rest' => Re.Seq a (seq b rest')
  end.

(** The patterns of the source, quoted with their tokens spaced apart.
    The numeral [\d+ \.? \d*] and the blanks [\s*]: *)
Definition number : Re.regex :=
  seq (Re.Rep Re.Plus (Re.Cls Re.Digit))
      [Re.Rep Re.Opt (Re.Chr 46%N); Re.Rep Re.Star (Re.Cls Re.Digit)].

Definition ws : Re.regex := Re.Rep Re.Star (Re.Cls Re.Space).

(** [\{ [\s\S]*? \}] *)
Definition block_re : Re.regex :=
  seq (Re.Lit (str "{"))
      [Re.Rep Re.LazyStar (Re.Cls (Re.Bracket [Re.Space; Re.NotSpace]));
       Re.Lit (str "}")].

(** [( \d+ \.? \d* ) \s* / \s* ( \d+ \.? \d* ) \s* kv] *)
Definition voltage_dual_re : Re.regex :=
  seq (Re.Group 1 number)
      [ws; Re.Lit (str "/"); ws; Re.Group 2 number; ws; Re.Lit (str "kv")].

(** [( \d+ \.? \d* ) \s* kv] *)
Definition voltage_re : Re.regex :=
  seq (Re.Group 1 number) [ws; Re.Lit (str "kv")].

(** [( \d+ \.? \d* ) \s* ( sqmm | mm2 | mm² )] *)
Definition csa_re : Re.regex :=
  seq (Re.Group 1 number)
      [ws; Re.Group 2 (Re.Alt (Re.Lit (str "sqmm"))
                        (Re.Alt (Re.Lit (str "mm2")) (Re.Lit (str "mm²"))))].

(** [(?: insulation | tᵢ | ti ) .*? ( \d+ \.? \d* ) \s* mm] *)
Definition thickness_re : Re.regex :=
  seq (Re.Alt (Re.Lit (str "insulation"))
         (Re.Alt (Re.Lit (str "tᵢ")) (Re.Lit (str "ti"))))
      [Re.Rep Re.LazyStar (Re.Cls Re.Dot); Re.Group 1 number; ws;
       Re.Lit (str "mm")].

(** [( \d+ \.? \d* ) \s* mm] *)
Definition mm_re : Re.regex :=
  seq (Re.Group 1 number) [ws; Re.Lit (str "mm")].

(** [class \s* ( \d+ )] *)
Definition class_re : Re.regex :=
  seq (Re.Lit (str "class")) [ws; Re.Group 1 (Re.Rep Re.Plus (Re.Cls Re.Digit))].

(** [validation.append(f)], and the same under a condition. *)
Definition append (validation : list Finding) (f : Finding) : list Finding :=
  validation ++ [f].

Definition append_if (b : bool) (validation : list Finding) (f : Finding)
  : list Finding :=
  if b then append validation f else validation.

Definition has_status (s : text) (v : Finding) : bool := text_eqb (status v) s.

(** The loop that lowers the confidence, finding by finding. *)
Definition penalty (confidence : float) (v : Finding) : float :=
  if has_status (str "FAIL") v then PrimFloat.sub confidence 0.35
  else if has_status (str "WARN") v then PrimFloat.sub confidence 0.15
  else confidence.

(** [apply_iec_rules]: the seven rules in order, then the overall status
    and the confidence. [fields] is whatever object the caller passes. *)
Definition apply_iec_rules (fields : pyval)
  : result (list Finding * text * float) :=
  let validation := [] in
  (* Rule 1: Standard specification *)
  v <- getitem fields (str "standard") ;;
  let validation :=
    append_if (ne_str v (str "IEC 60502-1")) validation
      (mkFinding (str "standard") (str "FAIL") (str "IEC 60502-1")
         (ProvidedValue v)
         (str "IEC 60502-1 must be explicitly specified for LV cable designs.")) in
  (* Rule 2: Voltage rating *)
  v <- getitem fields (str "voltage_kv") ;;
  validation <-
    (if is_none v then
       Ok (append validation
             (mkFinding (str "voltage_kv") (str "WARN") (str "≤ 1 kV")
                (ProvidedText (str "Not specified"))
                (str "Voltage rating must be specified. IEC 60502-1 covers up to 1 kV.")))
     else
       c <- py_gt v (PFloat 1.0) ;;
       Ok (append_if c validation
             (mkFinding (str "voltage_kv") (str "FAIL") (str "≤ 1 kV")
                (ProvidedFormat v (str " kV"))
                (str "IEC 60502-1 is valid only for low voltage (≤ 1 kV). Use IEC 60502-2 for medium voltage.")))) ;;
  (* Rule 3: Conductor material *)
  v <- getitem fields (str "conductor_material") ;;
  let validation :=
    append_if (is_none v) validation
      (mkFinding (str "conductor_material") (str "WARN") (str "Cu or Al")
         (ProvidedText (str "Not specified"))
         (str "Conductor material (Cu or Al) must be specified.")) in
  (* Rule 4: Conductor class (IEC 60228) *)
  v <- getitem fields (str "conductor_class") ;;
  let validation :=
    append_if (is_none v) validation
      (mkFinding (str "conductor_class") (str "WARN")
         (str "Class 1, 2, 5, or 6 per IEC 60228")
         (ProvidedText (str "Not specified"))
         (str "Conductor class must conform to IEC 60228 (Class 1=solid, 2=stranded, 5/6=flexible).")) in
  (* Rule 5: Cross-sectional area *)
  v <- getitem fields (str "csa_mm2") ;;
  let validation :=
    append_if (is_none v) validation
      (mkFinding (str "csa_mm2") (str "WARN") (str "Standard nominal size")
         (ProvidedText (str "Not specified"))
         (str "Cross-sectional area (CSA) in mm² must be specified.")) in
  (* Rule 6: Insulation material *)
  v <- getitem fields (str "insulation_material") ;;
  let validation :=
    append_if (is_none v) validation
      (mkFinding (str "insulation_material") (str "WARN")
         (str "PVC, XLPE, or EPR")
         (ProvidedText (str "Not specified"))
         (str "Insulation material must be specified (typically PVC or XLPE for LV).")) in
  (* Rule 7: Insulation thickness (simplified check) *)
  v <- getitem fields (str "insulation_thickness_mm") ;;
  validation <-
    (if is_none v then
       Ok (append validation
             (mkFinding (str "insulation_thickness_mm") (str "WARN")
                (str "Per IEC 60502-1 Table 4")
                (ProvidedText (str "Not specified"))
                (str "Insulation thickness must be specified and meet IEC 60502-1 minimum requirements.")))
     else
       c <- py_lt v (PFloat 0.6) ;;
       Ok (append_if c validation
             (mkFinding (str "insulation_thickness_mm") (str "FAIL")
                (str "≥ 0.6 mm (typical minimum)")
                (ProvidedFormat v (str " mm"))
                (str "Insulation thickness appears too low for IEC 60502-1 compliance.")))) ;;
  (* Determine overall status *)
  let overall :=
    if existsb (has_status (str "FAIL")) validation then str "FAIL"
    else if existsb (has_status (str "WARN")) validation then str "WARN"
    else str "PASS" in
  (* Calculate confidence score *)
  let confidence := fold_left penalty validation 1.0%float in
  let confidence := PyFloat.round (PyFloat.max confidence 0.0) 2 in
  Ok (validation, overall, confidence).

(** The Unicode data the code reaches through [str.lower], [\d], [\s] and
    [float]: the lower-casing of a text, the decimal value of the
    characters of category Nd, and the white space property. The full stop
    is not a digit. *)
Record unicode := mkUnicode {
  lower : text -> text;
  decimal : char -> option N;
  space : char -> bool;
  decimal_full_stop : decimal 46%N = None
}.

Section App.

Variable U : unicode.

Definition search := Re.search (decimal U) (space U).
Definition findall0 := Re.findall0 (decimal U) (space U).
Definition findall1 := Re.findall1 (decimal U) (space U).

(** The longest run of decimal digits at the start of [s]. *)
Fixpoint udigits (s : text) (acc n : Z) : Z * Z * text :=
  match s with
  | c :: s' =>
      match decimal U c with
      | Some d => udigits s' (acc * 10 + Z.of_N d) (n + 1)
      | None => (acc, n, s)
      end
  | [] => (acc, n, [])
  end.

(** [float(s)] on the numerals the patterns capture: digits, then optionally
    a point and further digits. The texts [float] accepts beyond these
    (signs, exponents, surrounding blanks, [inf], [nan]) are not modelled
    and answered [ValueError]; none reaches this function
    (see [fallback_extract_total]). *)
Definition float_of_str (w : text) : result float :=
  let '(ip, n1, r) := udigits w 0 0 in
  if n1 =? 0 then Raise ValueError
  else
    match r with
    | [] => Ok (PyFloat.of_decimal ip 0)
    | 46%N :: r' =>
        let '(m, n2, r'') := udigits r' ip 0 in
        match r'' with
        | [] => Ok (PyFloat.of_decimal m (- n2))
        | _ => Raise ValueError
        end
    | _ => Raise ValueError
    end.

(** [float(m.group(n))]; a group that took no part is [None]. *)
Definition py_float (g : option text) : result float :=
  match g with
  | Some w => float_of_str w
  | None => Raise TypeError
  end.

(** The loop of [extract_json] over the candidate blocks: the first one
    that parses and has one of the two keys; any exception moves on. *)
Fixpoint try_blocks (blocks : list text) : option pyval :=
  match blocks with
  | [] => None
  | b :: rest =>
      match Json.loads b with
      | Some parsed =>
          match (c <- py_in (str "fields") parsed ;;
                 if c then Ok true else py_in (str "validation") parsed) with
          | Ok true => Some parsed
          | _ => try_blocks rest
          end
      | None => try_blocks rest
      end
  end.

Definition strip_fences (t : text) : text :=
  replace (replace t (str "```json") (str "")) (str "```") (str "").

Definition extract_json (t : text) : option pyval :=
  let t := strip_fences t in
  let blocks := findall0 block_re t in
  try_blocks (rev blocks).

Definition empty_fields : dict :=
  [ (str "standard", PNone);
    (str "voltage_kv", PNone);
    (str "conductor_material", PNone);
    (str "conductor_class", PNone);
    (str "csa_mm2", PNone);
    (str "insulation_material", PNone);
    (str "insulation_thickness_mm", PNone) ].

(** The paragraphs of [fallback_extract], one definition each, on the
    lower-cased text [t]. *)

(* Standard detection *)
Definition extract_standard (t : text) (fields : dict) : dict :=
  if contains (str "iec 60502-1") t || contains (str "iec60502-1") t
  then dict_set fields (str "standard") (PStr (str "IEC 60502-1"))
  else if contains (str "iec 60502") t
  then dict_set fields (str "standard")
         (PStr (str "IEC 60502 (ambiguous - specify part)"))
  else fields.

(* Voltage (0.6/1 kV format or single value) *)
Definition extract_voltage (t : text) (fields : dict) : result dict :=
  match search voltage_dual_re t with
  | Some m =>
      v <- py_float (Re.group m 2) ;;
      Ok (dict_set fields (str "voltage_kv") (PFloat v))
  | None =>
      match search voltage_re t with
      | Some m =>
          v <- py_float (Re.group m 1) ;;
          Ok (dict_set fields (str "voltage_kv") (PFloat v))
      | None => Ok fields
      end
  end.

(* Cross-sectional area *)
Definition extract_csa (t : text) (fields : dict) : result dict :=
  match search csa_re t with
  | Some m =>
      v <- py_float (Re.group m 1) ;;
      Ok (dict_set fields (str "csa_mm2") (PFloat v))
  | None => Ok fields
  end.

(* Insulation thickness *)
Definition extract_thickness (t : text) (fields : dict) : result dict :=
  match search thickness_re t with
  | Some m =>
      v <- py_float (Re.group m 1) ;;
      Ok (dict_set fields (str "insulation_thickness_mm") (PFloat v))
  | None =>
      (* Try general mm pattern if not found with insulation keyword *)
      match findall1 mm_re t with
      | [g] =>
          v <- py_float g ;;
          Ok (dict_set fields (str "insulation_thickness_mm") (PFloat v))
      | _ => Ok fields
      end
  end.

(* Conductor material *)
Definition extract_material (t : text) (fields : dict) : dict :=
  if contains (str "copper") t || contains (str " cu") t
     || contains (str "cu,") t
  then dict_set fields (str "conductor_material") (PStr (str "Cu"))
  else if contains (str "aluminium") t || contains (str "aluminum") t
          || contains (str " al") t || contains (str "al,") t
  then dict_set fields (str "conductor_material") (PStr (str "Al"))
  else fields.

(* Conductor class (IEC 60228) *)
Definition extract_class (t : text) (fields : dict) : dict :=
  match search class_re t with
  | Some m =>
      dict_set fields (str "conductor_class")
        (PStr (str "Class " ++
               match Re.group m 1 with Some g => g | None => str "None" end))
  | None => fields
  end.

(* Insulation material *)
Definition extract_insulation (t : text) (fields : dict) : dict :=
  if contains (str "pvc") t
  then dict_set fields (str "insulation_material") (PStr (str "PVC"))
  else if contains (str "xlpe") t || contains (str "cross-linked") t
  then dict_set fields (str "insulation_material") (PStr (str "XLPE"))
  else if contains (str "epr") t
  then dict_set fields (str "insulation_material") (PStr (str "EPR"))
  else fields.

Definition fallback_extract (t : text) : result dict :=
  let t := lower U t in
  let fields := empty_fields in
  let fields := extract_standard t fields in
  fields <- extract_voltage t fields ;;
  fields <- extract_csa t fields ;;
  fields <- extract_thickness t fields ;;
  let fields := extract_material t fields in
  let fields := extract_class t fields in
  let fields := extract_insulation t fields in
  Ok fields.

(** The condition [ai_parsed and "fields" in ai_parsed]. *)
Definition has_fields (ai_parsed : option pyval) : result bool :=
  match ai_parsed with
  | Some p => if truthy p then py_in (str "fields") p else Ok false
  | None => Ok false
  end.

(** [validate_cable_design]; [llm] maps the prompt to the generated text. *)
Definition validate_cable_design (user_input : text) (llm : text -> text)
  : result ValidationResult :=
  (* Step 1: Get AI response *)
  let prompt := build_prompt user_input in
  let raw_response := llm prompt in
  (* Step 2: Extract JSON from AI response *)
  let ai_parsed := extract_json raw_response in
  (* Step 3: Use AI extraction or fallback to pattern matching *)
  c <- has_fields ai_parsed ;;
  chosen <-
    match ai_parsed, c with
    | Some p, true =>
        fields <- getitem p (str "fields") ;;
        ai_validation <- get p (str "validation") (PList []) ;;
        ai_reasoning <-
          get p (str "reasoning") (PStr (str "AI reasoning not provided")) ;;
        ai_confidence <- get p (str "confidence") (PDict []) ;;
        Ok (fields, ai_validation, ai_reasoning, ai_confidence)
    | _, _ =>
        fields <- fallback_extract user_input ;;
        Ok (PDict fields, PList [],
            PStr (str "Fallback extraction used (AI response could not be parsed)"),
            PDict [ (str "overall", PFloat 0.5);
                    (str "justification", PStr (str "Pattern matching only")) ])
    end ;;
  let '(fields, ai_validation, ai_reasoning, ai_confidence) := chosen in
  (* Step 4: Apply deterministic IEC rules as safety net *)
  rules <- apply_iec_rules fields ;;
  let '(rule_validation, overall_status, rule_confidence) := rules in
  (* Step 5: Combine AI and rule-based validation *)
  let combined_validation :=
    if truthy ai_validation then OracleValidation ai_validation
    else RuleValidation rule_validation in
  (* Step 6: Use more conservative confidence *)
  a <- get ai_confidence (str "overall") (PFloat 0.5) ;;
  final_confidence <- py_min a (PFloat rule_confidence) ;;
  a' <- get ai_confidence (str "overall") (PFloat 0.5) ;;
  Ok (mkResult fields combined_validation overall_status ai_reasoning
        (mkConfidence final_confidence a' rule_confidence
           (str "Combined AI extraction with deterministic IEC rule validation"))).

End App.

(** ** The Unicode tables on the ASCII range

    Concrete inputs are run with the tables below: they agree with Unicode
    on ASCII, and take every other code point as an uncased character that
    is neither a decimal digit nor white space (which is the case of the
    superscript two and of the subscript i that occur in the inputs). *)

Definition ascii_lower (t : text) : text :=
  map (fun c => if ((65 <=? c) && (c <=? 90))%N then (c + 32)%N else c) t.

Definition ascii_decimal (c : char) : option N :=
  if ((48 <=? c) && (c <=? 57))%N then Some (c - 48)%N else None.

Definition ascii_space (c : char) : bool :=
  (((9 <=? c) && (c <=? 13)) || ((28 <=? c) && (c <=? 32)))%N.

Definition ascii : unicode :=
  mkUnicode ascii_lower ascii_decimal ascii_space eq_refl.

(** ** Notions used to state the properties *)

Definition FAIL : text := str "FAIL".
Definition WARN : text := str "WARN".
Definition PASS : text := str "PASS".

(** The number of findings of [v] that carry the status [s]. *)
Definition count_status (s : text) (v : list Finding) : Z :=
  Z.of_nat (List.length (filter (has_status s) v)).

(** The field set with no attribute given. *)
Definition all_null : FieldSet :=
  mkFieldSet None None None None None None None.

(** What one rule contributes: nothing, a WARN finding or a FAIL finding. *)
Inductive verdict := Silent | Warn | Fail.

Definition entry (name : string) (r : verdict) : list (text * text) :=
  match r with
  | Silent => []
  | Warn => [(str name, WARN)]
  | Fail => [(str name, FAIL)]
  end.

(** Field and status of the findings of the seven rules, in rule order. *)
Definition shape (r1 r2 r3 r4 r5 r6 r7 : verdict) : list (text * text) :=
  entry "standard" r1 ++ entry "voltage_kv" r2
  ++ entry "conductor_material" r3 ++ entry "conductor_class" r4
  ++ entry "csa_mm2" r5 ++ entry "insulation_material" r6
  ++ entry "insulation_thickness_mm" r7.

Definition tags (v : list Finding) : list (text * text) :=
  map (fun f => (field f, status f)) v.

(** The verdict of each rule on a field set. *)
Definition verdict1 (fs : FieldSet) : verdict :=
  match standard fs with
  | Some s => if text_eqb s (str "IEC 60502-1") then Silent else Fail
  | None => Fail
  end.

Definition verdict2 (fs : FieldSet) : verdict :=
  match voltage_kv fs with
  | None => Warn
  | Some x => if PrimFloat.ltb 1.0 x then Fail else Silent
  end.

Definition verdict_given {A} (o : option A) : verdict :=
  match o with None => Warn | Some _ => Silent end.

Definition verdict7 (fs : FieldSet) : verdict :=
  match insulation_thickness_mm fs with
  | None => Warn
  | Some x => if PrimFloat.ltb x 0.6 then Fail else Silent
  end.

(** The overall status and the confidence as functions of the findings. *)
Definition overall_of (v : list Finding) : text :=
  if existsb (has_status FAIL) v then FAIL
  else if existsb (has_status WARN) v then WARN
  else PASS.

Definition confidence_of (v : list Finding) : float :=
  PyFloat.round (PyFloat.max (fold_left penalty v 1.0%float) 0.0) 2.

(** The confidence the specification describes, in exact decimal
    arithmetic: [1 - 0.35 F - 0.15 W] clamped to [[0, 1]], which is a whole
    number of hundredths, as the float nearest to it. *)
Definition confidence_spec (nfail nwarn : Z) : float :=
  PyFloat.of_ratio (Z.min 100 (Z.max 0 (100 - 35 * nfail - 15 * nwarn))) 100.

(** Findings that carry given fields and statuses and nothing else. *)
Definition of_tags (l : list (text * text)) : list Finding :=
  map (fun p => mkFinding (fst p) (snd p) [] (ProvidedText []) []) l.

(** What it means for a text to match a pattern, with the captures it
    leaves: the declarative counterpart of [Re.run]. *)
Section Matches.

Variable decimal : char -> option N.
Variable space : char -> bool.

Definition all_accept (i : Re.item) (w : text) : Prop :=
  Forall (fun c => Re.accepts decimal space i c = true) w.

Fixpoint matches (r : Re.regex) (w : text) (caps caps' : Re.captures) : Prop :=
  match r with
  | Re.Lit l => w = l /\ caps' = caps
  | Re.Rep q i =>
      all_accept i w /\ caps' = caps /\
      match q with
      | Re.Opt => (List.length w <= 1)%nat
      | Re.Plus => w <> []
      | _ => True
      end
  | Re.Seq a b =>
      exists u v mid,
        w = u ++ v /\ matches a u caps mid /\ matches b v mid caps'
  | Re.Alt a b => matches a w caps caps' \/ matches b w caps caps'
  | Re.Group n a => exists mid, matches a w caps mid /\ caps' = (n, w) :: mid
  end.

End Matches.

(** A numeral as the patterns capture it: digits, then optionally a full
    stop, then digits. *)
Definition numeral (U : unicode) (w : text) : Prop :=
  exists int_part point frac_part,
    w = int_part ++ point ++ frac_part /\
    int_part <> [] /\
    Forall (fun c => decimal U c <> None) int_part /\
    (point = [] \/ point = [46%N]) /\
    Forall (fun c => decimal U c <> None) frac_part.

(** A run of white space. *)
Definition blanks (U : unicode) (w : text) : Prop :=
  Forall (fun c => space U c = true) w.

(** A field set with one attribute replaced when a value was found. *)
Definition set_standard (o : option text) (fs : FieldSet) : FieldSet :=
  match o with
  | Some _ =>
      mkFieldSet o (voltage_kv fs) (conductor_material fs)
        (conductor_class fs) (csa_mm2 fs) (insulation_material fs)
        (insulation_thickness_mm fs)
  | None => fs
  end.

Definition set_voltage (o : option float) (fs : FieldSet) : FieldSet :=
  match o with
  | Some _ =>
      mkFieldSet (standard fs) o (conductor_material fs)
        (conductor_class fs) (csa_mm2 fs) (insulation_material fs)
        (insulation_thickness_mm fs)
  | None => fs
  end.

Definition set_material (o : option text) (fs : FieldSet) : FieldSet :=
  match o with
  | Some _ =>
      mkFieldSet (standard fs) (voltage_kv fs) o
        (conductor_class fs) (csa_mm2 fs) (insulation_material fs)
        (insulation_thickness_mm fs)
  | None => fs
  end.

Definition set_class (o : option text) (fs : FieldSet) : FieldSet :=
  match o with
  | Some _ =>
      mkFieldSet (standard fs) (voltage_kv fs) (conductor_material fs)
        o (csa_mm2 fs) (insulation_material fs)
        (insulation_thickness_mm fs)
  | None => fs
  end.

Definition set_csa (o : option float) (fs : FieldSet) : FieldSet :=
  match o with
  | Some _ =>
      mkFieldSet (standard fs) (voltage_kv fs) (conductor_material fs)
        (conductor_class fs) o (insulation_material fs)
        (insulation_thickness_mm fs)
  | None => fs
  end.

Definition set_insulation (o : option text) (fs : FieldSet) : FieldSet :=
  match o with
  | Some _ =>
      mkFieldSet (standard fs) (voltage_kv fs) (conductor_material fs)
        (conductor_class fs) (csa_mm2 fs) o
        (insulation_thickness_mm fs)
  | None => fs
  end.

Definition set_thickness (o : option float) (fs : FieldSet) : FieldSet :=
  match o with
  | Some _ =>
      mkFieldSet (standard fs) (voltage_kv fs) (conductor_material fs)
        (conductor_class fs) (csa_mm2 fs) (insulation_material fs) o
  | None => fs
  end.

(** The voltage rule of the fallback extractor on the lower-cased text [t]:
    the leftmost dual rating [X/Y kv], if there is one, gives the value of
    [Y]; otherwise the leftmost [X kv], if there is one, gives the value of
    [X]; otherwise nothing. *)
Definition voltage_rule (U : unicode) (t : text) (o : option float) : Prop :=
  match search U voltage_dual_re t with
  | Some m =>
      exists X s1 s2 Y s3 y,
        Re.whole m = X ++ s1 ++ str "/" ++ s2 ++ Y ++ s3 ++ str "kv" /\
        numeral U X /\ blanks U s1 /\ blanks U s2 /\ numeral U Y /\
        blanks U s3 /\
        float_of_str U Y = Ok y /\ o = Some y
  | None =>
      match search U voltage_re t with
      | Some m =>
          exists X s1 x,
            Re.whole m = X ++ s1 ++ str "kv" /\
            numeral U X /\ blanks U s1 /\
            float_of_str U X = Ok x /\ o = Some x
      | None => o = None
      end
  end.

(** What [re.findall] scans for the pattern [N mm]: the successive
    non-overlapping matches, from left to right. The [mm] of an area unit
    ([mm2], [mm²]) is matched like any other. *)
Definition mm_occurrences (U : unicode) (t : text) : list Re.match_object :=
  Re.scan (decimal U) (space U) mm_re t 0.

(** What the extractor does when no insulation keyword is followed by a
    number and [mm]: a single match of the scan gives its value, any other
    count gives nothing. *)
Definition bare_thickness_rule (U : unicode) (t : text) (o : option float)
  : Prop :=
  match mm_occurrences U t with
  | [m] =>
      exists X s1 x,
        Re.whole m = X ++ s1 ++ str "mm" /\
        numeral U X /\ blanks U s1 /\
        float_of_str U X = Ok x /\ o = Some x
  | _ => o = None
  end.

Definition thickness_rule (U : unicode) (t : text) (o : option float) : Prop :=
  match search U thickness_re t with
  | Some m => exists X x, Re.group m 1 = Some X /\ numeral U X /\
                          float_of_str U X = Ok x /\ o = Some x
  | None => bare_thickness_rule U t o
  end.

(** The closing braces of a text, and the [dict] objects inside a value. *)
Definition braces (s : text) : nat := List.length (filter (N.eqb 125) s).

Fixpoint dicts (v : pyval) : nat :=
  match v with
  | PDict d => S (list_sum (map (fun kv => dicts (snd kv)) d))
  | PList l => list_sum (map dicts l)
  | _ => 0
  end.

Definition dicts_in (d : dict) : nat :=
  list_sum (map (fun kv => dicts (snd kv)) d).

(** The report of the fallback path on the field set [fs] with the rule
    engine's findings [v]. *)
Definition fallback_result (fs : FieldSet) (v : list Finding)
  : ValidationResult :=
  mkResult (PDict (fields_dict fs)) (RuleValidation v) (overall_of v)
    (PStr (str "Fallback extraction used (AI response could not be parsed)"))
    (mkConfidence (PFloat (PyFloat.min 0.5 (confidence_of v))) (PFloat 0.5)
       (confidence_of v)
       (str "Combined AI extraction with deterministic IEC rule validation")).

(** A pattern occurs in a text when some substring matches it. *)
Definition occurs (U : unicode) (r : Re.regex) (t : text) : Prop :=
  exists before w after caps,
    t = before ++ w ++ after /\ matches (decimal U) (space U) r w [] caps.

(** The response parser as the specification words it: a candidate
    qualifies when it decodes to an object that has a "fields" or a
    "validation" key; the answer is the first candidate of a list that
    qualifies. *)
Definition qualifies (b : text) : option pyval :=
  match Json.loads b with
  | Some (PDict d) =>
      if dict_in (str "fields") d || dict_in (str "validation") d
      then Some (PDict d)
      else None
  | _ => None
  end.

Fixpoint first_qualifying (bs : list text) : option pyval :=
  match bs with
  | [] => None
  | b :: bs' =>
      match qualifies b with
      | Some p => Some p
      | None => first_qualifying bs'
      end
  end.

(** Inputs of the examples. *)
Definition design_lv : text :=
  str "IEC 60502-1, 0.6/1 kV, Cu, Class 2, 10 mm², PVC, tᵢ = 1.0 mm".

Definition design_mv : text := str "IEC 60502-1, 3.6/6 kV".

(** An oracle that returns the prompt followed by a completion. *)
Definition oracle (completion : text) (prompt : text) : text :=
  prompt ++ completion.

(** A completion with no structured block, one with two blocks of which
    only the second decodes, and one whose object has a "fields" entry. *)
Definition completion_prose : text := str "I cannot answer.".

Definition completion_two_blocks : text :=
  str "Schema: {fields, validation} Answer: {" ++ quoted "fields"
  ++ str ": null, " ++ quoted "reasoning" ++ str ": " ++ quoted "ok"
  ++ str "}".

Definition completion_fields : text :=
  str "{" ++ quoted "fields" ++ str ": [], " ++ quoted "validation"
  ++ str ": []}".

(** ** Further notions: the values each paragraph of the extractor assigns *)

Definition standard_of (t : text) : option text :=
  if contains (str "iec 60502-1") t || contains (str "iec60502-1") t
  then Some (str "IEC 60502-1")
  else if contains (str "iec 60502") t
  then Some (str "IEC 60502 (ambiguous - specify part)")
  else None.

Definition material_of (t : text) : option text :=
  if contains (str "copper") t || contains (str " cu") t
     || contains (str "cu,") t
  then Some (str "Cu")
  else if contains (str "aluminium") t || contains (str "aluminum") t
          || contains (str " al") t || contains (str "al,") t
  then Some (str "Al")
  else None.

Definition insulation_of (t : text) : option text :=
  if contains (str "pvc") t then Some (str "PVC")
  else if contains (str "xlpe") t || contains (str "cross-linked") t
  then Some (str "XLPE")
  else if contains (str "epr") t then Some (str "EPR")
  else None.

(** The class rule: the leftmost [class], blanks and digits, if any, gives
    "Class " followed by these digits. *)
Definition class_rule (U : unicode) (t : text) (o : option text) : Prop :=
  match search U class_re t with
  | Some m =>
      exists s1 ds,
        Re.whole m = str "class" ++ s1 ++ ds /\ blanks U s1 /\
        ds <> [] /\ Forall (fun c => decimal U c <> None) ds /\
        o = Some (str "Class " ++ ds)
  | None => o = None
  end.

(** The area rule: the leftmost number followed by blanks and one of the
    three unit spellings, if any, gives the value of the number. *)
Definition csa_rule (U : unicode) (t : text) (o : option float) : Prop :=
  match search U csa_re t with
  | Some m =>
      exists X s1 unit x,
        Re.whole m = X ++ s1 ++ unit /\ numeral U X /\ blanks U s1 /\
        (unit = str "sqmm" \/ unit = str "mm2" \/ unit = str "mm²") /\
        float_of_str U X = Ok x /\ o = Some x
  | None => o = None
  end.

(** The keyword branch of the thickness rule: a keyword, then characters
    of the same line, then a number, blanks and [mm]. *)
Definition keyword_thickness_rule (U : unicode) (t : text) (o : option float)
  : Prop :=
  forall m,
    search U thickness_re t = Some m ->
    exists kw gap X s1 x,
      Re.whole m = kw ++ gap ++ X ++ s1 ++ str "mm" /\
      (kw = str "insulation" \/ kw = str "tᵢ" \/ kw = str "ti") /\
      ~ In 10%N gap /\ numeral U X /\ blanks U s1 /\
      float_of_str U X = Ok x /\ o = Some x.

(** [sub] is a substring of [s]. *)
Definition substring (sub s : text) : Prop :=
  exists before after, s = before ++ sub ++ after.

(** The text names the low-voltage standard with its part. *)
Definition names_designator (t : text) : Prop :=
  substring (str "iec 60502-1") t \/ substring (str "iec60502-1") t.

Definition names_copper (t : text) : Prop :=
  substring (str "copper") t \/ substring (str " cu") t
  \/ substring (str "cu,") t.

Definition names_aluminium (t : text) : Prop :=
  substring (str "aluminium") t \/ substring (str "aluminum") t
  \/ substring (str " al") t \/ substring (str "al,") t.

(** The keys the rule engine subscripts, in the order of its rules. *)
Definition field_names : list text :=
  [ str "standard"; str "voltage_kv"; str "conductor_material";
    str "conductor_class"; str "csa_mm2"; str "insulation_material";
    str "insulation_thickness_mm" ].

(** The values the rule engine can order against its thresholds. *)
Definition none_or_number (v : pyval) : bool :=
  match v with
  | PNone | PBool _ | PInt _ | PFloat _ => true
  | _ => false
  end.

(** A [dict] the rule engine accepts: every key present, and the two
    measured fields null or numbers. *)
Definition well_formed (d : dict) : Prop :=
  (forall k, In k field_names -> dict_in k d = true) /\
  (forall v, dict_get d (str "voltage_kv") = Some v ->
             none_or_number v = true) /\
  (forall v, dict_get d (str "insulation_thickness_mm") = Some v ->
             none_or_number v = true).

(** The status that seven verdicts give. *)
Definition is_fail (r : verdict) : bool :=
  match r with Fail => true | _ => false end.

Definition is_silent (r : verdict) : bool :=
  match r with Silent => true | _ => false end.

Definition status_of (rs : list verdict) : text :=
  if existsb is_fail rs then FAIL
  else if forallb is_silent rs then PASS
  else WARN.

(** The text that follows the first closing brace of [s]. *)
Fixpoint after_brace (s : text) : option text :=
  match s with
  | [] => None
  | c :: s' => if (125 =? c)%N then Some s' else after_brace s'
  end.

(** The candidate block that opens [s]: an opening brace and what follows
    up to the first closing brace. *)
Definition block_at (s : text) : option Re.match_object :=
  match s with
  | [] => None
  | c :: s' =>
      if (123 =? c)%N then
        match after_brace s' with
        | Some r => Some (Re.MatchObject (Re.consumed s r) [] r)
        | None => None
        end
      else None
  end.

(** ** The page: what is shown of a report *)

(** Exact comparison [f <= z] and [z <= f] of a float with an [int]. *)
Definition float_leb_Z (f : float) (z : Z) : bool :=
  match Prim2SF f with
  | S754_zero _ => 0 <=? z
  | S754_infinity s => s
  | S754_nan => false
  | S754_finite s m e =>
      let v := if s then Zneg m else Zpos m in
      if 0 <=? e then v * 2 ^ e <=? z else v <=? z * 2 ^ (- e)
  end.

Definition Z_leb_float (z : Z) (f : float) : bool :=
  match Prim2SF f with
  | S754_zero _ => z <=? 0
  | S754_infinity s => negb s
  | S754_nan => false
  | S754_finite s m e =>
      let v := if s then Zneg m else Zpos m in
      if 0 <=? e then z <=? v * 2 ^ e else z * 2 ^ (- e) <=? v
  end.

(** [a >= b] on numbers; any other pair of the types of [pyval] raises
    [TypeError]. *)
Definition py_ge (a b : pyval) : result bool :=
  let num v :=
    match v with
    | PBool b => Some (inl (if b then 1 else 0))
    | PInt z => Some (inl z)
    | PFloat f => Some (inr f)
    | _ => None
    end in
  match num a, num b with
  | Some (inl x), Some (inl y) => Ok (y <=? x)
  | Some (inl x), Some (inr g) => Ok (float_leb_Z g x)
  | Some (inr f), Some (inl y) => Ok (Z_leb_float y f)
  | Some (inr f), Some (inr g) => Ok (PrimFloat.leb g f)
  | _, _ => Raise TypeError
  end.

(** The banner of the overall status: [st.success], [st.warning] or
    [st.error]. *)
Inductive banner := StSuccess | StWarning | StError.

Definition status_banner (status : text) : banner :=
  if text_eqb status (str "PASS") then StSuccess
  else if text_eqb status (str "WARN") then StWarning
  else StError.

(** The style class computed from the overall confidence. *)
Definition conf_class (conf_overall : pyval) : result text :=
  c <- py_ge conf_overall (PFloat 0.75) ;;
  if c then Ok (str "confidence-high")
  else
    c <- py_ge conf_overall (PFloat 0.5) ;;
    if c then Ok (str "confidence-medium") else Ok (str "confidence-low").

(** The condition [if result[validation]] that guards the table of
    findings. *)
Definition shows_findings (validation : validation_t) : bool :=
  match validation with
  | OracleValidation v => truthy v
  | RuleValidation l => match l with [] => false | _ => true end
  end.

(** The badge of a status: the entry of the table of badges, and the
    status itself when it has none. *)
Definition badges : list (text * text) :=
  [ (str "PASS", str "✅ PASS");
    (str "WARN", str "⚠️ WARN");
    (str "FAIL", str "❌ FAIL") ].

Definition status_badge (status : text) : text :=
  match find (fun kv => text_eqb (fst kv) status) badges with
  | Some kv => snd kv
  | None => status
  end.

(** The Status column of the table, for the findings of the rule engine. *)
Definition badge_column (validation : list Finding) : list text :=
  map (fun item => status_badge (status item)) validation.

(** ** The steps of the entry point, one definition each *)

















(** ** The response parser in the words of the specification *)

(** [Removed old s r]: [r] is [s] without the occurrences of [old], taken
    from left to right and without overlap. *)
Inductive Removed (old : text) : text -> text -> Prop :=
| Removed_end : Removed old [] []
| Removed_here (s r : text) :
    Removed old s r -> Removed old (old ++ s) r
| Removed_keep (c : char) (s r : text) :
    (forall rest, c :: s <> old ++ rest) ->
    Removed old s r -> Removed old (c :: s) (c :: r).

(** The brace-delimited blocks of a text, reading it from left to right: an
    opening brace outside a block opens one, the next closing brace closes
    it, and a block still open at the end of the text is dropped. [cur] is
    the block being read, if any. *)
Fixpoint blocks_from (s : text) (cur : option text) : list text :=
  match s with
  | [] => []
  | c :: s' =>
      match cur with
      | None =>
          if (c =? 123)%N then blocks_from s' (Some [c])
          else blocks_from s' None
      | Some b =>
          if (c =? 125)%N then (b ++ [c]) :: blocks_from s' None
          else blocks_from s' (Some (b ++ [c]))
      end
  end.

Definition blocks (s : text) : list text := blocks_from s None.

(** A completion inside fences: a draft that does not decode, then the
    answer. *)
Definition completion_fenced : text :=
  str "Draft: ```json {fields, validation} ``` Answer: ```json {"
  ++ quoted "fields" ++ str ": null, " ++ quoted "reasoning" ++ str ": "
  ++ quoted "ok" ++ str "} ```".

(** ** Leftmost occurrences *)

(** A match of the pattern starts the text [s]. *)
Definition starts_match (U : unicode) (r : Re.regex) (s : text) : Prop :=
  exists w rest caps,
    s = w ++ rest /\ matches (decimal U) (space U) r w [] caps.

(** In the text [before ++ rest] no match of the pattern starts inside
    [before]: a match that starts [rest] is the leftmost one. *)
Definition none_before (U : unicode) (r : Re.regex) (before rest : text)
  : Prop :=
  forall b1 b2, before = b1 ++ b2 -> b2 <> [] ->
                ~ starts_match U r (b2 ++ rest).

(** The tables agree with the ASCII ones on the ASCII range, as those of
    Unicode do. *)
Definition ascii_range (U : unicode) : Prop :=
  forall c, (c < 128)%N ->
            decimal U c = ascii_decimal c /\ space U c = ascii_space c.

(** The same, decided by running the matcher at each position. *)
Fixpoint no_match_inside (U : unicode) (r : Re.regex) (before rest : text)
  : bool :=
  match before with
  | [] => true
  | _ :: before' =>
      match Re.match_at (decimal U) (space U) r (before ++ rest) with
      | Some _ => false
      | None => no_match_inside U r before' rest
      end
  end.

(** A design with two dual ratings, and one with an area and no
    thickness. *)
Definition design_two_ratings : text :=
  str "IEC 60502-1, 0.6/1 kV, 3.6/6 kV".

Definition design_no_thickness : text :=
  str "IEC 60502-1, 0.6/1 kV, Cu, Class 2, 10 mm², PVC".

(** The texts that follow the occurrences of [sub] in [s]. *)
Fixpoint followers (sub s : text) : list text :=
  (if startswith s sub then [skipn (List.length sub) s] else [])
  ++ match s with
     | [] => []
     | _ :: s' => followers sub s'
     end.

(** ** Integers the interpreter formats *)

(** CPython refuses to convert to text an [int] of more than 4300 digits
    (it raises [ValueError]); the f-strings of rules 2 and 7 convert the
    voltage and the thickness. The measured fields of [d] that are [int]
    objects stay within that limit. *)
Definition formattable (d : dict) : Prop :=
  forall k z,
    k = str "voltage_kv" \/ k = str "insulation_thickness_mm" ->
    dict_get d k = Some (PInt z) -> Z.abs z < 10 ^ 4300.

(** * Properties *)

(** ** Texts *)

Lemma text_eqb_eq (a b : text) : text_eqb a b = true <-> a = b.
Proof.
  revert b. induction a as [|x a IH]; intros [|y b]; simpl; split;
    try easy.
  - intros H. apply andb_true_iff in H as [H1 H2].
    apply N.eqb_eq in H1. apply IH in H2. now subst.
  - intros H. injection H as -> ->. apply andb_true_iff. split.
    + apply N.eqb_refl.
    + now apply IH.
Qed.

Lemma text_eqb_refl (a : text) : text_eqb a a = true.
Proof. now apply text_eqb_eq. Qed.

Lemma text_eqb_neq (a b : text) : text_eqb a b = false <-> a <> b.
Proof.
  split.
  - intros H E. apply text_eqb_eq in E. congruence.
  - intros H. destruct (text_eqb a b) eqn:E; [|reflexivity].
    apply text_eqb_eq in E. contradiction.
Qed.

(** ** The rule engine *)

Lemma tags_app (v w : list Finding) : tags (v ++ w) = tags v ++ tags w.
Proof. apply map_app. Qed.

Lemma tags_append (v : list Finding) (f : Finding) :
  tags (append v f) = tags v ++ [(field f, status f)].
Proof. apply tags_app. Qed.

Lemma tags_append_if (b : bool) (v : list Finding) (f : Finding) :
  tags (append_if b v f)
  = tags v ++ (if b then [(field f, status f)] else []).
Proof.
  destruct b; [apply tags_app | symmetry; apply app_nil_r].
Qed.

(** Whatever object the rules are run on, a normal return has its status
    and confidence computed from the findings, and the findings follow the
    seven rules in order, one at most per rule. *)
Lemma apply_iec_rules_inv (fields : pyval) v o c :
  apply_iec_rules fields = Ok (v, o, c) ->
  o = overall_of v /\ c = confidence_of v /\
  exists r1 r2 r3 r4 r5 r6 r7,
    tags v = shape r1 r2 r3 r4 r5 r6 r7 /\
    r1 <> Warn /\ r3 <> Fail /\ r4 <> Fail /\ r5 <> Fail /\ r6 <> Fail.
Proof.
  unfold apply_iec_rules.
  destruct (getitem fields (str "standard")) as [v1|]; [|discriminate].
  destruct (getitem fields (str "voltage_kv")) as [v2|]; [|discriminate].
  cbn [bind].
  set (b1 := ne_str v1 _).
  assert (E : forall b : bool, (if b then Warn else Silent) <> Fail)
    by (intros []; discriminate).
  assert (E1 : (if b1 then Fail else Silent) <> Warn)
    by (destruct b1; discriminate).
  destruct (is_none v2);
    [| destruct (py_gt v2 (PFloat 1)) as [c2|]; [|discriminate] ];
    cbn [bind];
    (destruct (getitem fields (str "conductor_material")) as [v3|];
       [|discriminate]);
    (destruct (getitem fields (str "conductor_class")) as [v4|];
       [|discriminate]);
    (destruct (getitem fields (str "csa_mm2")) as [v5|]; [|discriminate]);
    (destruct (getitem fields (str "insulation_material")) as [v6|];
       [|discriminate]);
    (destruct (getitem fields (str "insulation_thickness_mm")) as [v7|];
       [|discriminate]);
    cbn [bind];
    (destruct (is_none v7);
     [| destruct (py_lt v7 (PFloat 0.6)) as [c7|]; [|discriminate] ]);
    cbn [bind]; intros H; injection H as <- <- <-;
    (split; [reflexivity|]); (split; [reflexivity|]);
    exists (if b1 then Fail else Silent).
  1,2: exists Warn.
  3,4: exists (if c2 then Fail else Silent).
  all: exists (if is_none v3 then Warn else Silent),
         (if is_none v4 then Warn else Silent),
         (if is_none v5 then Warn else Silent),
         (if is_none v6 then Warn else Silent).
  1,3: exists Warn.
  3,4: exists (if c7 then Fail else Silent).
  all: (split; [|auto]).
  all: repeat (rewrite tags_append || rewrite tags_append_if);
       unfold shape; cbn [tags map field status app];
       repeat rewrite <- app_assoc.
  all: repeat (f_equal; try solve [match goal with
                                    | |- (if ?b then _ else _) = _ =>
                                        destruct b; reflexivity
                                    end | reflexivity]).
Qed.

Lemma getitem_fields_dict (fs : FieldSet) :
  getitem (PDict (fields_dict fs)) (str "standard") = Ok (opt_str (standard fs))
  /\ getitem (PDict (fields_dict fs)) (str "voltage_kv")
     = Ok (opt_float (voltage_kv fs))
  /\ getitem (PDict (fields_dict fs)) (str "conductor_material")
     = Ok (opt_str (conductor_material fs))
  /\ getitem (PDict (fields_dict fs)) (str "conductor_class")
     = Ok (opt_str (conductor_class fs))
  /\ getitem (PDict (fields_dict fs)) (str "csa_mm2")
     = Ok (opt_float (csa_mm2 fs))
  /\ getitem (PDict (fields_dict fs)) (str "insulation_material")
     = Ok (opt_str (insulation_material fs))
  /\ getitem (PDict (fields_dict fs)) (str "insulation_thickness_mm")
     = Ok (opt_float (insulation_thickness_mm fs)).
Proof. repeat split. Qed.

Lemma is_none_opt_str o : is_none (opt_str o) = match o with None => true | Some _ => false end.
Proof. now destruct o. Qed.
Lemma is_none_opt_float o : is_none (opt_float o) = match o with None => true | Some _ => false end.
Proof. now destruct o. Qed.

(** On a field set the rules never raise, and each rule's verdict is the
    one the specification lists. *)
Lemma apply_iec_rules_fields (fs : FieldSet) :
  exists v,
    apply_iec_rules (PDict (fields_dict fs))
    = Ok (v, overall_of v, confidence_of v)
    /\ tags v
       = shape (verdict1 fs) (verdict2 fs)
           (verdict_given (conductor_material fs))
           (verdict_given (conductor_class fs))
           (verdict_given (csa_mm2 fs))
           (verdict_given (insulation_material fs))
           (verdict7 fs).
Proof.
  destruct (getitem_fields_dict fs) as (E1 & E2 & E3 & E4 & E5 & E6 & E7).
  unfold apply_iec_rules.
  rewrite E1, E2, E3, E4, E5, E6, E7. cbn [bind].
  unfold verdict1, verdict2, verdict7, verdict_given.
  rewrite !is_none_opt_str, !is_none_opt_float.
  clear E1 E2 E3 E4 E5 E6 E7. destruct fs as [s x m cl a im th]; cbn [standard voltage_kv conductor_material conductor_class csa_mm2 insulation_material insulation_thickness_mm].
  destruct x as [x|], th as [th|];
    cbn [bind opt_float py_gt py_lt];
    eexists; (split; [reflexivity|]).
  all: repeat (rewrite tags_append || rewrite tags_append_if);
       unfold shape; cbn [tags map field status app];
       repeat rewrite <- app_assoc.
  all: repeat (f_equal; try solve [match goal with
                                    | |- (if ?b then _ else _) = _ =>
                                        destruct b; reflexivity
                                    | |- _ = entry _ (match ?o with _ => _ end) => destruct o; reflexivity
                                    end | reflexivity]).
  all: destruct s as [s|]; cbn [opt_str ne_str];
    [destruct (text_eqb s _)|]; reflexivity.
Qed.

(** Status, confidence and counts depend on the findings through their
    statuses only. *)
Lemma fold_penalty_tags (v w : list Finding) :
  tags v = tags w ->
  forall c, fold_left penalty v c = fold_left penalty w c.
Proof.
  revert w. induction v as [|f v IH]; intros [|g w] H c;
    try discriminate; [reflexivity|].
  injection H as _ Hs Ht. cbn [fold_left].
  replace (penalty c f) with (penalty c g); [now apply IH|].
  unfold penalty, has_status. now rewrite Hs.
Qed.

Lemma existsb_status_tags (s : text) (v w : list Finding) :
  tags v = tags w ->
  existsb (has_status s) v = existsb (has_status s) w.
Proof.
  revert w. induction v as [|f v IH]; intros [|g w] H;
    try discriminate; [reflexivity|].
  injection H as _ Hs Ht. cbn [existsb].
  change (has_status s f) with (text_eqb (status f) s).
  change (has_status s g) with (text_eqb (status g) s).
  rewrite Hs. f_equal. now apply IH.
Qed.

Lemma count_status_tags (s : text) (v w : list Finding) :
  tags v = tags w -> count_status s v = count_status s w.
Proof.
  unfold count_status. intros H. f_equal. revert w H.
  induction v as [|f v IH]; intros [|g w] H; try discriminate; [reflexivity|].
  injection H as _ Hs Ht. cbn [filter].
  change (has_status s f) with (text_eqb (status f) s).
  change (has_status s g) with (text_eqb (status g) s).
  rewrite Hs. destruct (text_eqb (status g) s); cbn [List.length];
    now rewrite (IH w Ht).
Qed.

Lemma confidence_of_tags (v w : list Finding) :
  tags v = tags w -> confidence_of v = confidence_of w.
Proof.
  intros H. unfold confidence_of. now rewrite (fold_penalty_tags v w H).
Qed.

Lemma overall_of_tags (v w : list Finding) :
  tags v = tags w -> overall_of v = overall_of w.
Proof.
  intros H. unfold overall_of.
  now rewrite !(existsb_status_tags _ v w H).
Qed.

Lemma tags_of_tags (l : list (text * text)) : tags (of_tags l) = l.
Proof.
  induction l as [|[f s] l IH]; [reflexivity|].
  cbn. f_equal. exact IH.
Qed.

(** The float arithmetic of the confidence loop, run on every combination
    of verdicts, yields the decimal the specification describes. *)
Lemma shape_confidence r1 r2 r3 r4 r5 r6 r7 :
  let w := of_tags (shape r1 r2 r3 r4 r5 r6 r7) in
  confidence_of w = confidence_spec (count_status FAIL w) (count_status WARN w).
Proof.
  destruct r1, r2, r3, r4, r5, r6, r7; vm_compute; reflexivity.
Qed.

Lemma In_tags (v : list Finding) (f : Finding) :
  In f v -> In (field f, status f) (tags v).
Proof. intros H. apply (in_map (fun f => (field f, status f))), H. Qed.

Lemma has_status_exists (s : text) (v : list Finding) :
  existsb (has_status s) v = true <-> exists f, In f v /\ status f = s.
Proof.
  rewrite existsb_exists. split; intros (f & H1 & H2); exists f; split; auto;
    unfold has_status in *; now apply text_eqb_eq.
Qed.

Lemma overall_of_precedence (v : list Finding) :
  ((exists f, In f v /\ status f = FAIL) -> overall_of v = FAIL) /\
  ((forall f, In f v -> status f <> FAIL) ->
   (exists f, In f v /\ status f = WARN) -> overall_of v = WARN) /\
  ((forall f, In f v -> status f <> FAIL /\ status f <> WARN) ->
   overall_of v = PASS).
Proof.
  unfold overall_of. repeat split.
  - intros H. apply has_status_exists in H. now rewrite H.
  - intros H1 H2. apply has_status_exists in H2. rewrite H2.
    destruct (existsb (has_status FAIL) v) eqn:E; [|reflexivity].
    apply has_status_exists in E as (f & Hf & Hs). now apply H1 in Hf.
  - intros H.
    destruct (existsb (has_status FAIL) v) eqn:E1.
    { apply has_status_exists in E1 as (f & Hf & Hs).
      now apply H in Hf as [Hf _]. }
    destruct (existsb (has_status WARN) v) eqn:E2; [|reflexivity].
    apply has_status_exists in E2 as (f & Hf & Hs).
    now apply H in Hf as [_ Hf].
Qed.

(** C1. For every field set the rule engine returns, and its overall status
    is FAIL if some finding is FAIL, else WARN if some finding is WARN, else
    PASS. *)
Theorem overall_status_precedence (fs : FieldSet) :
  exists v o c,
    apply_iec_rules (PDict (fields_dict fs)) = Ok (v, o, c) /\
    ((exists f, In f v /\ status f = FAIL) -> o = FAIL) /\
    ((forall f, In f v -> status f <> FAIL) ->
     (exists f, In f v /\ status f = WARN) -> o = WARN) /\
    ((forall f, In f v -> status f <> FAIL /\ status f <> WARN) -> o = PASS).
Proof.
  destruct (apply_iec_rules_fields fs) as (v & E & _).
  exists v, (overall_of v), (confidence_of v). split; [exact E|].
  apply overall_of_precedence.
Qed.

(** C4. For every field set the confidence is the decimal
    [1 - 0.35 F - 0.15 W], clamped to [[0, 1]], where [F] and [W] count the
    FAIL and the WARN findings (a whole number of hundredths, returned as
    the float nearest to it); and on the field set with every attribute
    null the findings are one FAIL on the standard followed by six WARN,
    the confidence is 0 and the status FAIL. *)
Theorem rule_confidence_formula :
  (forall fs : FieldSet,
     exists v o c,
       apply_iec_rules (PDict (fields_dict fs)) = Ok (v, o, c) /\
       c = confidence_spec (count_status FAIL v) (count_status WARN v)) /\
  (exists v,
     apply_iec_rules (PDict (fields_dict all_null)) = Ok (v, FAIL, 0%float) /\
     tags v = [ (str "standard", FAIL); (str "voltage_kv", WARN);
                (str "conductor_material", WARN);
                (str "conductor_class", WARN); (str "csa_mm2", WARN);
                (str "insulation_material", WARN);
                (str "insulation_thickness_mm", WARN) ] /\
     count_status FAIL v = 1 /\ count_status WARN v = 6 /\
     confidence_spec 1 6 = 0%float).
Proof.
  split.
  - intros fs. destruct (apply_iec_rules_fields fs) as (v & E & T).
    exists v, (overall_of v), (confidence_of v). split; [exact E|].
    set (l := shape _ _ _ _ _ _ _) in T.
    assert (T' : tags v = tags (of_tags l)) by now rewrite tags_of_tags.
    rewrite (confidence_of_tags _ _ T'), !(count_status_tags _ _ _ T').
    apply shape_confidence.
  - destruct (apply_iec_rules_fields all_null) as (v & E & T).
    assert (T' : tags v = tags (of_tags (shape Fail Warn Warn Warn Warn Warn Warn)))
      by now rewrite tags_of_tags.
    exists v. rewrite (overall_of_tags _ _ T'), (confidence_of_tags _ _ T') in E.
    split; [exact E|]. split; [exact T|].
    rewrite !(count_status_tags _ _ _ T'). vm_compute. repeat split.
Qed.

Lemma In_entry (name : string) (r : verdict) (a b : text) :
  In (a, b) (entry name r) -> a = str name /\ (b = FAIL \/ b = WARN).
Proof.
  destruct r; cbn; intros H; try contradiction;
    destruct H as [H|[]]; injection H as <- <-; auto.
Qed.

Lemma In_shape r1 r2 r3 r4 r5 r6 r7 (a b : text) :
  In (a, b) (shape r1 r2 r3 r4 r5 r6 r7) -> b = FAIL \/ b = WARN.
Proof.
  unfold shape. rewrite !in_app_iff.
  intros H; repeat destruct H as [H|H]; apply In_entry in H; apply H.
Qed.

Lemma count_entry (name : string) (r : verdict) (n : text) :
  (List.length (filter (fun p => text_eqb (fst p) n) (entry name r))
   <= if text_eqb (str name) n then 1 else 0)%nat.
Proof.
  destruct r; cbn [entry filter fst]; destruct (text_eqb (str name) n);
    cbn; auto.
Qed.

(** The seven field names are pairwise distinct. *)
Lemma field_names_distinct (n : text) :
  ((if text_eqb (str "standard") n then 1 else 0)
   + ((if text_eqb (str "voltage_kv") n then 1 else 0)
   + ((if text_eqb (str "conductor_material") n then 1 else 0)
   + ((if text_eqb (str "conductor_class") n then 1 else 0)
   + ((if text_eqb (str "csa_mm2") n then 1 else 0)
   + ((if text_eqb (str "insulation_material") n then 1 else 0)
   + (if text_eqb (str "insulation_thickness_mm") n then 1 else 0))))))
   <= 1)%nat.
Proof.
  repeat match goal with
         | |- context [text_eqb (str ?k) ?m] =>
             is_var m;
             let E := fresh "E" in
             destruct (text_eqb (str k) m) eqn:E;
             [ apply text_eqb_eq in E; subst m; vm_compute; constructor | ]
         end.
  vm_compute. repeat constructor.
Qed.

(** No field receives two findings. *)
Lemma count_shape r1 r2 r3 r4 r5 r6 r7 (n : text) :
  (List.length (filter (fun p => text_eqb (fst p) n)
                  (shape r1 r2 r3 r4 r5 r6 r7)) <= 1)%nat.
Proof.
  unfold shape. rewrite !filter_app, !length_app.
  eapply Nat.le_trans; [|apply (field_names_distinct n)].
  repeat apply Nat.add_le_mono; apply count_entry.
Qed.

Lemma length_entry (name : string) (r : verdict) :
  (List.length (entry name r) <= 1)%nat.
Proof. destruct r; cbn; auto. Qed.

Lemma length_shape r1 r2 r3 r4 r5 r6 r7 :
  (List.length (shape r1 r2 r3 r4 r5 r6 r7) <= 7)%nat.
Proof.
  unfold shape. rewrite !length_app.
  change 7%nat with (1 + (1 + (1 + (1 + (1 + (1 + 1))))))%nat.
  repeat apply Nat.add_le_mono; apply length_entry.
Qed.

Lemma filter_field_tags (n : text) (v : list Finding) :
  List.length (filter (fun f => text_eqb (field f) n) v)
  = List.length (filter (fun p => text_eqb (fst p) n) (tags v)).
Proof.
  induction v as [|f v IH]; [reflexivity|].
  cbn [tags map filter fst]. fold (tags v).
  destruct (text_eqb (field f) n); cbn [List.length]; now rewrite IH.
Qed.

(** C10. For every field set, every finding of the rule engine is FAIL or
    WARN, never PASS; the findings are those of the seven rules in order,
    at most one per rule, so no field has two and there are at most seven;
    and the overall status is PASS exactly when there is no finding. *)
Theorem findings_fail_or_warn (fs : FieldSet) :
  exists v o c,
    apply_iec_rules (PDict (fields_dict fs)) = Ok (v, o, c) /\
    (forall f, In f v ->
       (status f = FAIL \/ status f = WARN) /\ status f <> PASS) /\
    tags v = shape (verdict1 fs) (verdict2 fs)
               (verdict_given (conductor_material fs))
               (verdict_given (conductor_class fs))
               (verdict_given (csa_mm2 fs))
               (verdict_given (insulation_material fs)) (verdict7 fs) /\
    (forall n,
       (List.length (filter (fun f => text_eqb (field f) n) v) <= 1)%nat) /\
    (List.length v <= 7)%nat /\
    (o = PASS <-> v = []).
Proof.
  destruct (apply_iec_rules_fields fs) as (v & E & T).
  exists v, (overall_of v), (confidence_of v). split; [exact E|].
  assert (S : forall f, In f v -> status f = FAIL \/ status f = WARN).
  { intros f Hf. apply In_tags in Hf. rewrite T in Hf.
    apply In_shape in Hf. exact Hf. }
  split; [|split; [exact T|split; [|split]]].
  - intros f Hf. split; [apply S, Hf|].
    destruct (S f Hf) as [-> | ->]; discriminate.
  - intros n. rewrite filter_field_tags, T. apply count_shape.
  - replace (List.length v) with (List.length (tags v))
      by apply length_map.
    rewrite T. apply length_shape.
  - split.
    + intros H. destruct v as [|f v]; [reflexivity|]. exfalso.
      unfold overall_of in H.
      destruct (S f (or_introl eq_refl)) as [Hs|Hs];
        cbn [existsb] in H; unfold has_status at 1 in H; rewrite Hs in H.
      * vm_compute in H. discriminate.
      * change (text_eqb WARN FAIL) with false in H. cbn [orb] in H.
        destruct (existsb (has_status FAIL) v); [vm_compute in H; discriminate|].
        cbn [existsb] in H. unfold has_status at 1 in H. rewrite Hs in H.
        vm_compute in H. discriminate.
    + intros ->. reflexivity.
Qed.

(** ** Soundness of the matcher *)

Section MatcherSound.

Variable decimal : char -> option N.
Variable space : char -> bool.

Lemma strip_prefix_app (p s s' : text) :
  Re.strip_prefix p s = Some s' -> s = p ++ s'.
Proof.
  revert s. induction p as [|x p IH]; intros [|y s]; cbn; try discriminate.
  - now intros [= ->].
  - now intros [= ->].
  - destruct (N.eqb_spec x y) as [->|]; [|discriminate].
    intros H. now rewrite (IH _ H).
Qed.

Lemma consumed_app (w s' : text) : Re.consumed (w ++ s') s' = w.
Proof.
  unfold Re.consumed. rewrite length_app.
  replace (List.length w + List.length s' - List.length s')%nat
    with (List.length w + 0)%nat by (rewrite Nat.add_sub; apply Nat.add_0_r).
  rewrite firstn_app_2. cbn. apply app_nil_r.
Qed.

Lemma greedy_sound (i : Re.item) (s : text) caps k res :
  Re.greedy decimal space i s caps k = Some res ->
  exists w s', s = w ++ s' /\ all_accept decimal space i w /\ k s' caps = Some res.
Proof.
  induction s as [|c s IH]; cbn.
  - intros H. exists [], []. repeat split; [constructor|exact H].
  - destruct (Re.accepts decimal space i c) eqn:A.
    + destruct (Re.greedy decimal space i s caps k) as [r|] eqn:G.
      * intros [= ->]. destruct (IH eq_refl) as (w & s' & -> & F & K).
        exists (c :: w), s'. repeat split; [constructor; assumption|exact K].
      * intros H. exists [], (c :: s). repeat split; [constructor|exact H].
    + intros H. exists [], (c :: s). repeat split; [constructor|exact H].
Qed.

Lemma lazy_sound (i : Re.item) (s : text) caps k res :
  Re.lazy decimal space i s caps k = Some res ->
  exists w s', s = w ++ s' /\ all_accept decimal space i w /\ k s' caps = Some res.
Proof.
  induction s as [|c s IH]; cbn.
  - destruct (k [] caps) eqn:K; [|discriminate].
    intros [= ->]. exists [], []. repeat split; [constructor|exact K].
  - destruct (k (c :: s) caps) eqn:K.
    + intros [= ->]. exists [], (c :: s). repeat split; [constructor|exact K].
    + destruct (Re.accepts decimal space i c) eqn:A; [|discriminate].
      intros H. destruct (IH H) as (w & s' & -> & F & K').
      exists (c :: w), s'. repeat split; [constructor; assumption|exact K'].
Qed.

Theorem run_sound (r : Re.regex) :
  forall s caps k res,
    Re.run decimal space r s caps k = Some res ->
    exists w s' caps',
      s = w ++ s' /\ matches decimal space r w caps caps' /\ k s' caps' = Some res.
Proof.
  induction r as [l|q i|a IHa b IHb|a IHa b IHb|n a IHa]; intros s caps k res.
  - cbn. destruct (Re.strip_prefix l s) as [s'|] eqn:P; [|discriminate].
    intros K. exists l, s', caps. apply strip_prefix_app in P. auto.
  - destruct q; cbn.
    + (* Opt *)
      destruct s as [|c s].
      * intros K. exists [], [], caps. repeat split; auto; constructor.
      * destruct (Re.accepts decimal space i c) eqn:A.
        -- destruct (k s caps) eqn:K1.
           ++ intros [= ->]. exists [c], s, caps.
              repeat split; auto. constructor; [exact A|constructor].
           ++ intros K. exists [], (c :: s), caps.
              repeat split; auto; constructor.
        -- intros K. exists [], (c :: s), caps.
           repeat split; auto; constructor.
    + (* Star *)
      intros H. apply greedy_sound in H as (w & s' & -> & F & K).
      exists w, s', caps. auto.
    + (* Plus *)
      destruct s as [|c s]; [discriminate|].
      destruct (Re.accepts decimal space i c) eqn:A; [|discriminate].
      intros H. apply greedy_sound in H as (w & s' & -> & F & K).
      exists (c :: w), s', caps. repeat split; auto.
      * constructor; assumption.
      * discriminate.
    + (* LazyStar *)
      intros H. apply lazy_sound in H as (w & s' & -> & F & K).
      exists w, s', caps. auto.
  - cbn. intros H.
    apply IHa in H as (u & s1 & mid & -> & Ma & H).
    apply IHb in H as (v & s2 & caps' & -> & Mb & K).
    exists (u ++ v), s2, caps'. split; [apply app_assoc|].
    split; [|exact K]. exists u, v, mid. auto.
  - cbn. destruct (Re.run decimal space a s caps k) as [r|] eqn:Ra.
    + intros [= ->]. apply IHa in Ra as (w & s' & caps' & -> & M & K).
      exists w, s', caps'. auto.
    + intros H. apply IHb in H as (w & s' & caps' & -> & M & K).
      exists w, s', caps'. auto.
  - cbn. intros H.
    apply IHa in H as (w & s' & mid & -> & M & K).
    rewrite consumed_app in K.
    exists w, s', ((n, w) :: mid). split; [reflexivity|].
    split; [|exact K]. exists mid. auto.
Qed.

Lemma match_at_sound (r : Re.regex) (s : text) (m : Re.match_object) :
  Re.match_at decimal space r s = Some m ->
  s = Re.whole m ++ Re.after m /\ matches decimal space r (Re.whole m) [] (Re.groups m).
Proof.
  unfold Re.match_at.
  destruct (Re.run decimal space r s [] _) as [[s' caps]|] eqn:R; [|discriminate].
  intros [= <-]. apply run_sound in R as (w & s1 & caps1 & -> & M & [= <- <-]).
  cbn. rewrite consumed_app. auto.
Qed.

Lemma search_sound (r : Re.regex) (s : text) (m : Re.match_object) :
  Re.search decimal space r s = Some m ->
  exists before,
    s = before ++ Re.whole m ++ Re.after m /\
    matches decimal space r (Re.whole m) [] (Re.groups m).
Proof.
  induction s as [|c s IH]; cbn.
  - destruct (Re.match_at decimal space r []) eqn:M; [|discriminate].
    intros [= ->]. apply match_at_sound in M as [E M]. exists []. auto.
  - destruct (Re.match_at decimal space r (c :: s)) eqn:M.
    + intros [= ->]. apply match_at_sound in M as [E M]. exists []. auto.
    + intros H. destruct (IH H) as (before & -> & M').
      exists (c :: before). auto.
Qed.

Lemma scan_sound (r : Re.regex) (s : text) (skip : nat) (m : Re.match_object) :
  In m (Re.scan decimal space r s skip) ->
  exists s0, Re.match_at decimal space r s0 = Some m.
Proof.
  revert skip. induction s as [|c s IH]; intros skip.
  - destruct skip; cbn; [|contradiction].
    destruct (Re.match_at decimal space r []) eqn:M; [|contradiction].
    intros [<-|[]]. now exists [].
  - destruct skip; cbn.
    + destruct (Re.match_at decimal space r (c :: s)) eqn:M.
      * intros [<-|H]; [now exists (c :: s)|]. now apply IH in H.
      * apply IH.
    + apply IH.
Qed.

End MatcherSound.
(** ** The fallback extractor *)

Section Fallback.

Variable U : unicode.

Lemma accepts_digit (c : char) :
  Re.accepts (decimal U) (space U) (Re.Cls Re.Digit) c = true ->
  decimal U c <> None.
Proof. cbn. destruct (decimal U c); [discriminate|discriminate]. Qed.

Lemma all_accept_digit (w : text) :
  all_accept (decimal U) (space U) (Re.Cls Re.Digit) w ->
  Forall (fun c => decimal U c <> None) w.
Proof.
  intros H. eapply Forall_impl; [|exact H]. intros c. apply accepts_digit.
Qed.

Lemma all_accept_space (w : text) :
  all_accept (decimal U) (space U) (Re.Cls Re.Space) w -> blanks U w.
Proof. intros H. exact H. Qed.

Lemma all_accept_point (w : text) :
  all_accept (decimal U) (space U) (Re.Chr 46%N) w ->
  (List.length w <= 1)%nat -> w = [] \/ w = [46%N].
Proof.
  intros H L. destruct w as [|c [|d w]].
  - now left.
  - right. apply Forall_inv in H. unfold Re.accepts in H.
    apply N.eqb_eq in H. now subst.
  - cbn in L. exfalso. apply (Nat.nle_succ_0 (List.length w)).
    now apply le_S_n.
Qed.

(** What the pattern of a number matches is a numeral, and it captures
    nothing. *)
Lemma matches_number (w : text) (caps caps' : Re.captures) :
  matches (decimal U) (space U) number w caps caps' ->
  numeral U w /\ caps' = caps.
Proof.
  cbn. intros (u & v & mid & -> & (D1 & -> & N1) & p & f & mid' & -> &
               (P & -> & L) & (D2 & -> & _)).
  split; [|reflexivity].
  exists u, p, f. repeat split; auto using all_accept_digit, all_accept_point.
Qed.

Lemma matches_ws (w : text) (caps caps' : Re.captures) :
  matches (decimal U) (space U) ws w caps caps' -> blanks U w /\ caps' = caps.
Proof. cbn. intros (B & -> & _). auto. Qed.

Lemma udigits_app (u : text) :
  Forall (fun c => decimal U c <> None) u ->
  forall rest acc n,
    exists acc',
      udigits U (u ++ rest) acc n
      = udigits U rest acc' (n + Z.of_nat (List.length u)).
Proof.
  induction 1 as [|c u Hc _ IH]; intros rest acc n.
  - exists acc. cbn. now rewrite Z.add_0_r.
  - cbn [app udigits]. destruct (decimal U c) as [d|]; [|contradiction].
    destruct (IH rest (acc * 10 + Z.of_N d) (n + 1)) as (acc' & E).
    exists acc'. rewrite E. f_equal. cbn [List.length]. lia.
Qed.

Lemma udigits_all (u : text) (acc n : Z) :
  Forall (fun c => decimal U c <> None) u ->
  exists acc', udigits U u acc n = (acc', n + Z.of_nat (List.length u), []).
Proof.
  intros H. destruct (udigits_app u H [] acc n) as (acc' & E).
  rewrite app_nil_r in E. exists acc'. exact E.
Qed.

(** [float] never raises on a numeral. *)
Lemma float_of_numeral (w : text) :
  numeral U w -> exists x, float_of_str U w = Ok x.
Proof.
  intros (u & p & f & -> & Hu & Du & Hp & Df). unfold float_of_str.
  assert (L : (0 =? 0 + Z.of_nat (List.length u)) = false).
  { apply Z.eqb_neq. destruct u; [contradiction|]. cbn [List.length]. lia. }
  destruct Hp as [-> | ->].
  - cbn [app].
    destruct (udigits_app u Du f 0 0) as (a1 & E1).
    destruct (udigits_all f a1 (0 + Z.of_nat (List.length u)) Df) as (a2 & E2).
    rewrite E2 in E1. eexists. rewrite E1.
    replace (_ =? 0) with false; [reflexivity|].
    symmetry. apply Z.eqb_neq. destruct u; [contradiction|].
    cbn [List.length]. lia.
  - destruct (udigits_app u Du ([46%N] ++ f) 0 0) as (a1 & E1).
    cbn [app udigits] in E1. rewrite (decimal_full_stop U) in E1.
    destruct (udigits_all f a1 0 Df) as (a2 & E2).
    eexists. cbn [app]. unfold char in *. rewrite E1, Z.eqb_sym, L, E2. reflexivity.
Qed.


Lemma matches_voltage_dual (w : text) (caps : Re.captures) :
  matches (decimal U) (space U) voltage_dual_re w [] caps ->
  exists X s1 s2 Y s3,
    w = X ++ s1 ++ str "/" ++ s2 ++ Y ++ s3 ++ str "kv" /\
    numeral U X /\ blanks U s1 /\ blanks U s2 /\ numeral U Y /\ blanks U s3 /\
    caps = [(2%nat, Y); (1%nat, X)].
Proof.
  unfold voltage_dual_re. cbn [seq matches].
  intros (X & r1 & c1 & -> & (c1' & MX & ->) &
          s1 & r2 & c2 & -> & M1 &
          sl & r3 & c3 & -> & (-> & ->) &
          s2 & r4 & c4 & -> & M2 &
          Y & r5 & c5 & -> & (c5' & MY & ->) &
          s3 & r6 & c6 & -> & M3 & -> & ->).
  apply matches_number in MX as [NX ->].
  apply matches_ws in M1 as [B1 ->].
  apply matches_ws in M2 as [B2 ->].
  apply matches_number in MY as [NY ->].
  apply matches_ws in M3 as [B3 ->].
  exists X, s1, s2, Y, s3. repeat split; assumption.
Qed.

Lemma matches_voltage (w : text) (caps : Re.captures) :
  matches (decimal U) (space U) voltage_re w [] caps ->
  exists X s1,
    w = X ++ s1 ++ str "kv" /\ numeral U X /\ blanks U s1 /\
    caps = [(1%nat, X)].
Proof.
  unfold voltage_re. cbn [seq matches].
  intros (X & r1 & c1 & -> & (c1' & MX & ->) &
          s1 & r2 & c2 & -> & M1 & -> & ->).
  apply matches_number in MX as [NX ->].
  apply matches_ws in M1 as [B1 ->].
  exists X, s1. repeat split; assumption.
Qed.

Lemma matches_mm (w : text) (caps : Re.captures) :
  matches (decimal U) (space U) mm_re w [] caps ->
  exists X s1,
    w = X ++ s1 ++ str "mm" /\ numeral U X /\ blanks U s1 /\
    caps = [(1%nat, X)].
Proof.
  unfold mm_re. cbn [seq matches].
  intros (X & r1 & c1 & -> & (c1' & MX & ->) &
          s1 & r2 & c2 & -> & M1 & -> & ->).
  apply matches_number in MX as [NX ->].
  apply matches_ws in M1 as [B1 ->].
  exists X, s1. repeat split; assumption.
Qed.

Lemma matches_csa (w : text) (caps : Re.captures) :
  matches (decimal U) (space U) csa_re w [] caps ->
  exists X, numeral U X /\ Re.lookup caps 1 = Some X.
Proof.
  unfold csa_re. cbn [seq matches].
  intros (X & r1 & c1 & -> & (c1' & MX & ->) &
          s1 & r2 & c2 & -> & M1 & c3 & A & ->).
  apply matches_number in MX as [NX ->].
  apply matches_ws in M1 as [B1 ->].
  exists X. split; [assumption|].
  destruct A as [[_ ->]|[[_ ->]|[_ ->]]]; reflexivity.
Qed.

Lemma matches_thickness (w : text) (caps : Re.captures) :
  matches (decimal U) (space U) thickness_re w [] caps ->
  exists X, numeral U X /\ Re.lookup caps 1 = Some X.
Proof.
  unfold thickness_re. cbn [seq matches].
  intros (kw & r1 & c1 & -> & K &
          g & r2 & c2 & -> & (_ & -> & _) &
          X & r3 & c3 & -> & (c3' & MX & ->) &
          s1 & r4 & c4 & -> & M1 & -> & ->).
  apply matches_number in MX as [NX ->].
  apply matches_ws in M1 as [B1 ->].
  exists X. split; [assumption|reflexivity].
Qed.

(** Assignments to a field set, read on its [dict]. *)
Lemma dict_set_fields (fs : FieldSet) :
  (forall s, dict_set (fields_dict fs) (str "standard") (PStr s)
             = fields_dict (set_standard (Some s) fs)) /\
  (forall x, dict_set (fields_dict fs) (str "voltage_kv") (PFloat x)
             = fields_dict (set_voltage (Some x) fs)) /\
  (forall s, dict_set (fields_dict fs) (str "conductor_material") (PStr s)
             = fields_dict (set_material (Some s) fs)) /\
  (forall s, dict_set (fields_dict fs) (str "conductor_class") (PStr s)
             = fields_dict (set_class (Some s) fs)) /\
  (forall x, dict_set (fields_dict fs) (str "csa_mm2") (PFloat x)
             = fields_dict (set_csa (Some x) fs)) /\
  (forall s, dict_set (fields_dict fs) (str "insulation_material") (PStr s)
             = fields_dict (set_insulation (Some s) fs)) /\
  (forall x, dict_set (fields_dict fs) (str "insulation_thickness_mm") (PFloat x)
             = fields_dict (set_thickness (Some x) fs)).
Proof. repeat split. Qed.

Lemma extract_standard_fields (t : text) (fs : FieldSet) :
  exists o, extract_standard t (fields_dict fs) = fields_dict (set_standard o fs).
Proof.
  destruct (dict_set_fields fs) as (E & _). unfold extract_standard.
  destruct (_ || _); [eexists (Some _); apply E|].
  destruct (contains _ t); [eexists (Some _); apply E|now exists None].
Qed.

Lemma extract_material_fields (t : text) (fs : FieldSet) :
  exists o, extract_material t (fields_dict fs) = fields_dict (set_material o fs).
Proof.
  destruct (dict_set_fields fs) as (_ & _ & E & _). unfold extract_material.
  destruct (_ || _); [eexists (Some _); apply E|].
  destruct (_ || _); [eexists (Some _); apply E|now exists None].
Qed.

Lemma extract_class_fields (t : text) (fs : FieldSet) :
  exists o, extract_class U t (fields_dict fs) = fields_dict (set_class o fs).
Proof.
  destruct (dict_set_fields fs) as (_ & _ & _ & E & _). unfold extract_class.
  destruct (search U class_re t); [eexists (Some _); apply E|now exists None].
Qed.

Lemma extract_insulation_fields (t : text) (fs : FieldSet) :
  exists o,
    extract_insulation t (fields_dict fs) = fields_dict (set_insulation o fs).
Proof.
  destruct (dict_set_fields fs) as (_ & _ & _ & _ & _ & E & _).
  unfold extract_insulation.
  destruct (contains _ t); [eexists (Some _); apply E|].
  destruct (_ || _); [eexists (Some _); apply E|].
  destruct (contains _ t); [eexists (Some _); apply E|now exists None].
Qed.

Lemma extract_voltage_fields (t : text) (fs : FieldSet) :
  exists o,
    extract_voltage U t (fields_dict fs) = Ok (fields_dict (set_voltage o fs))
    /\ voltage_rule U t o.
Proof.
  destruct (dict_set_fields fs) as (_ & E & _).
  unfold extract_voltage, voltage_rule.
  destruct (search U voltage_dual_re t) as [m|] eqn:S2.
  - apply search_sound in S2 as (before & _ & M).
    apply matches_voltage_dual in M
      as (X & s1 & s2 & Y & s3 & W & NX & B1 & B2 & NY & B3 & G).
    destruct (float_of_numeral Y NY) as (y & F).
    exists (Some y). unfold Re.group. rewrite G. cbn [Re.lookup Nat.eqb py_float].
    rewrite F. cbn [bind]. rewrite E. split; [reflexivity|].
    exists X, s1, s2, Y, s3, y. repeat split; assumption.
  - destruct (search U voltage_re t) as [m|] eqn:S1.
    + apply search_sound in S1 as (before & _ & M).
      apply matches_voltage in M as (X & s1 & W & NX & B1 & G).
      destruct (float_of_numeral X NX) as (x & F).
      exists (Some x). unfold Re.group. rewrite G.
      cbn [Re.lookup Nat.eqb py_float]. rewrite F. cbn [bind]. rewrite E.
      split; [reflexivity|].
      exists X, s1, x. repeat split; assumption.
    + exists None. split; reflexivity.
Qed.

Lemma extract_csa_fields (t : text) (fs : FieldSet) :
  exists o, extract_csa U t (fields_dict fs) = Ok (fields_dict (set_csa o fs)).
Proof.
  destruct (dict_set_fields fs) as (_ & _ & _ & _ & E & _).
  unfold extract_csa.
  destruct (search U csa_re t) as [m|] eqn:S1; [|now exists None].
  apply search_sound in S1 as (before & _ & M).
  apply matches_csa in M as (X & NX & G).
  destruct (float_of_numeral X NX) as (x & F).
  exists (Some x). unfold Re.group. rewrite G. cbn [py_float]. rewrite F.
  cbn [bind]. now rewrite E.
Qed.

Lemma extract_thickness_fields (t : text) (fs : FieldSet) :
  exists o,
    extract_thickness U t (fields_dict fs)
    = Ok (fields_dict (set_thickness o fs))
    /\ thickness_rule U t o.
Proof.
  destruct (dict_set_fields fs) as (_ & _ & _ & _ & _ & _ & E).
  unfold extract_thickness, thickness_rule.
  destruct (search U thickness_re t) as [m|] eqn:S1.
  - apply search_sound in S1 as (before & _ & M).
    apply matches_thickness in M as (X & NX & G).
    destruct (float_of_numeral X NX) as (x & F).
    exists (Some x). unfold Re.group. rewrite G. cbn [py_float]. rewrite F.
    cbn [bind]. rewrite E. split; [reflexivity|].
    exists X, x. auto.
  - unfold bare_thickness_rule, findall1, Re.findall1, mm_occurrences.
    destruct (Re.scan (decimal U) (space U) mm_re t 0) as [|m [|m' l]] eqn:S2;
      cbn [map]; try (exists None; split; reflexivity).
    assert (I : In m (Re.scan (decimal U) (space U) mm_re t 0))
      by (rewrite S2; now left).
    apply scan_sound in I as (s0 & I). apply match_at_sound in I as [_ M].
    apply matches_mm in M as (X & s1 & W & NX & B1 & G).
    destruct (float_of_numeral X NX) as (x & F).
    exists (Some x). unfold Re.group. rewrite G.
    cbn [Re.lookup Nat.eqb py_float]. rewrite F. cbn [bind]. rewrite E.
    split; [reflexivity|].
    exists X, s1, x. repeat split; assumption.
Qed.

(** The fallback extractor never raises: on every text it returns a field
    set, whose voltage and insulation thickness follow the two rules. *)
Theorem fallback_extract_total (text : text) :
  exists fs,
    fallback_extract U text = Ok (fields_dict fs)
    /\ voltage_rule U (lower U text) (voltage_kv fs)
    /\ thickness_rule U (lower U text) (insulation_thickness_mm fs).
Proof.
  unfold fallback_extract. set (t := lower U text).
  change empty_fields with (fields_dict all_null).
  destruct (extract_standard_fields t all_null) as (o1 & ->).
  destruct (extract_voltage_fields t (set_standard o1 all_null))
    as (o2 & -> & V). cbn [bind].
  destruct (extract_csa_fields t (set_voltage o2 (set_standard o1 all_null)))
    as (o3 & ->). cbn [bind].
  destruct (extract_thickness_fields t
              (set_csa o3 (set_voltage o2 (set_standard o1 all_null))))
    as (o4 & -> & T). cbn [bind].
  destruct (extract_material_fields t
              (set_thickness o4
                 (set_csa o3 (set_voltage o2 (set_standard o1 all_null)))))
    as (o5 & ->).
  destruct (extract_class_fields t
              (set_material o5
                 (set_thickness o4
                    (set_csa o3 (set_voltage o2 (set_standard o1 all_null))))))
    as (o6 & ->).
  destruct (extract_insulation_fields t
              (set_class o6
                 (set_material o5
                    (set_thickness o4
                       (set_csa o3
                          (set_voltage o2 (set_standard o1 all_null)))))))
    as (o7 & ->).
  eexists. split; [reflexivity|].
  split.
  - replace (voltage_kv _) with o2; [exact V|].
    destruct o1, o2, o3, o4, o5, o6, o7; reflexivity.
  - replace (insulation_thickness_mm _) with o4; [exact T|].
    destruct o1, o2, o3, o4, o5, o6, o7; reflexivity.
Qed.

End Fallback.
(** ** [json.loads]: every [dict] of the value closes with a brace *)

Lemma braces_cons (c : char) (s : text) :
  braces (c :: s) = ((if (125 =? c)%N then 1 else 0) + braces s)%nat.
Proof. unfold braces. cbn [filter]. now destruct (125 =? c)%N. Qed.

Lemma braces_tail (c : char) (s : text) : (braces s <= braces (c :: s))%nat.
Proof. rewrite braces_cons. apply Nat.le_add_l. Qed.

Lemma braces_app (u v : text) : braces (u ++ v) = (braces u + braces v)%nat.
Proof. unfold braces. now rewrite filter_app, length_app. Qed.

Lemma braces_skipn (k : nat) (s : text) : (braces (skipn k s) <= braces s)%nat.
Proof.
  revert s. induction k as [|k IH]; intros [|c s]; cbn [skipn]; auto.
  eapply Nat.le_trans; [apply IH|apply braces_tail].
Qed.

Lemma braces_skip_ws (s : text) : (braces (Json.skip_ws s) <= braces s)%nat.
Proof.
  induction s as [|c s IH]; cbn [Json.skip_ws]; auto.
  destruct (Json.is_ws c); auto.
  eapply Nat.le_trans; [apply IH|apply braces_tail].
Qed.

Lemma braces_digits (s : text) :
  forall acc n a n' r,
    Json.digits s acc n = (a, n', r) -> (braces r <= braces s)%nat.
Proof.
  induction s as [|c s IH]; intros acc n a n' r; cbn [Json.digits].
  - intros [= <- <- <-]. auto.
  - destruct (Json.digit_val c).
    + intros H. apply IH in H.
      eapply Nat.le_trans; [exact H|apply braces_tail].
    + intros [= <- <- <-]. auto.
Qed.

Lemma braces_scan_string (n : nat) :
  forall s acc w r,
    (List.length s <= n)%nat ->
    Json.scan_string s acc = Some (w, r) -> (braces r <= braces s)%nat.
Proof.
  induction n as [|n IH]; intros s acc w r L.
  - destruct s; [discriminate|]. cbn in L. exfalso.
    apply (Nat.nle_succ_0 _ L).
  - destruct s as [|c s]; [discriminate|].
    assert (L' : (List.length s <= n)%nat) by (cbn in L; now apply le_S_n).
    assert (T : forall q acc', (List.length q <= n)%nat ->
                  (braces q <= braces s)%nat ->
                  Json.scan_string q acc' = Some (w, r) ->
                  (braces r <= braces (c :: s))%nat).
    { intros q acc' Lq Bq H. apply IH in H; [|exact Lq].
      eapply Nat.le_trans; [exact H|].
      eapply Nat.le_trans; [exact Bq|apply braces_tail]. }
    cbn [Json.scan_string].
    destruct (c =? 34)%N.
    { intros [= <- <-]. apply braces_tail. }
    destruct (c =? 92)%N.
    2:{ destruct (c <? 32)%N; [discriminate|]. apply T; auto. }
    destruct s as [|e s1]; [discriminate|].
    assert (L1 : (List.length s1 <= n)%nat)
      by (cbn in L'; apply Nat.lt_le_incl, L').
    destruct (e =? 117)%N.
    2:{ destruct (Json.escape e); [|discriminate].
        apply T; [exact L1|apply braces_tail]. }
    destruct s1 as [|h1 [|h2 [|h3 [|h4 rest]]]]; try discriminate.
    destruct (Json.hex4 h1 h2 h3 h4) as [cp|]; [|discriminate].
    assert (Lr : (List.length rest <= n)%nat).
    { cbn in L1. do 4 apply Nat.lt_le_incl in L1. exact L1. }
    assert (Br : (braces rest <= braces (e :: h1 :: h2 :: h3 :: h4 :: rest))%nat).
    { do 5 (eapply Nat.le_trans; [|apply braces_tail]). auto. }
    destruct (Json.high_surrogate cp); [|apply T; assumption].
    destruct rest as [|g0 [|g00 [|g1 [|g2 [|g3 [|g4 rest2]]]]]];
      try (apply T; assumption).
    destruct ((g0 =? 92) && (g00 =? 117))%N; [|apply T; assumption].
    destruct (Json.hex4 g1 g2 g3 g4) as [c2|]; [|discriminate].
    destruct (Json.low_surrogate c2); [|apply T; assumption].
    apply T.
    + cbn in Lr. do 6 apply Nat.lt_le_incl in Lr. exact Lr.
    + eapply Nat.le_trans; [|exact Br].
      do 6 (eapply Nat.le_trans; [|apply braces_tail]). auto.
Qed.

Lemma braces_string (s acc w r : text) :
  Json.scan_string s acc = Some (w, r) -> (braces r <= braces s)%nat.
Proof. apply (braces_scan_string (List.length s)). auto. Qed.

Lemma braces_number (s : text) (v : pyval) (r : text) :
  Json.parse_number s = Some (v, r) ->
  dicts v = 0%nat /\ (braces r <= braces s)%nat.
Proof.
  unfold Json.parse_number.
  set (p := match s with
            | [] => (false, s)
            | c :: s' => if (c =? 45)%N then (true, s') else (false, s)
            end).
  assert (B1 : (braces (snd p) <= braces s)%nat).
  { subst p. destruct s as [|c s']; auto.
    destruct (c =? 45)%N; cbn [snd]; auto using braces_tail. }
  destruct p as [neg s1]. cbn [snd] in B1.
  set (ip := match s1 with
             | [] => None
             | c :: r0 =>
                 if (c =? 48)%N then Some (0, r0)
                 else match Json.digit_val c with
                      | Some _ => let '(v0, _, r1) := Json.digits s1 0 0 in
                                  Some (v0, r1)
                      | None => None
                      end
             end).
  assert (B2 : forall iv r0, ip = Some (iv, r0) -> (braces r0 <= braces s1)%nat).
  { subst ip. destruct s1 as [|c r0]; [discriminate|].
    destruct (c =? 48)%N.
    - intros iv r1 [= <- <-]. apply braces_tail.
    - destruct (Json.digit_val c); [|discriminate].
      destruct (Json.digits (c :: r0) 0 0) as [[v0 k] r1] eqn:D.
      intros iv r2 [= <- <-]. eapply braces_digits, D. }
  destruct ip as [[iv r0]|]; [|discriminate].
  specialize (B2 iv r0 eq_refl).
  set (fp := match r0 with
             | [] => (iv, None, r0)
             | c :: r' =>
                 if (c =? 46)%N
                 then let '(m, n, q) := Json.digits r' iv 0 in
                      if 0 <? n then (m, Some n, q) else (iv, None, r0)
                 else (iv, None, r0)
             end).
  assert (B3 : (braces (snd fp) <= braces r0)%nat).
  { subst fp. destruct r0 as [|c r']; auto.
    destruct (c =? 46)%N; auto.
    destruct (Json.digits r' iv 0) as [[m k] q] eqn:D.
    destruct (0 <? k); cbn [snd]; auto.
    eapply Nat.le_trans; [eapply braces_digits, D|apply braces_tail]. }
  destruct fp as [[mant nfrac] r1]. cbn [snd] in B3.
  set (ep := match r1 with
             | [] => (None, r1)
             | c :: r' =>
                 if ((c =? 101) || (c =? 69))%N
                 then
                   let '(eneg, q) :=
                     match r' with
                     | [] => (false, r')
                     | c' :: t =>
                         if (c' =? 45)%N then (true, t)
                         else if (c' =? 43)%N then (false, t) else (false, r')
                     end in
                   let '(ev, n, q') := Json.digits q 0 0 in
                   if 0 <? n then (Some (if eneg then - ev else ev), q')
                   else (None, r1)
                 else (None, r1)
             end).
  assert (B4 : (braces (snd ep) <= braces r1)%nat).
  { subst ep. destruct r1 as [|c r']; auto.
    destruct ((c =? 101) || (c =? 69))%N; auto.
    set (sp := match r' with
               | [] => (false, r')
               | c' :: t =>
                   if (c' =? 45)%N then (true, t)
                   else if (c' =? 43)%N then (false, t) else (false, r')
               end).
    assert (B5 : (braces (snd sp) <= braces r')%nat).
    { subst sp. destruct r' as [|c' t]; auto.
      destruct (c' =? 45)%N; [apply braces_tail|].
      destruct (c' =? 43)%N; [apply braces_tail|auto]. }
    destruct sp as [eneg q]. cbn [snd] in B5.
    destruct (Json.digits q 0 0) as [[ev k] q'] eqn:D.
    destruct (0 <? k); cbn [snd]; auto.
    eapply Nat.le_trans; [eapply braces_digits, D|].
    eapply Nat.le_trans; [exact B5|apply braces_tail]. }
  destruct ep as [e10 r2]. cbn [snd] in B4.
  assert (B : (braces r2 <= braces s)%nat).
  { repeat (eapply Nat.le_trans; [eassumption|]). auto. }
  destruct nfrac, e10; intros [= <- <-]; auto.
Qed.

Lemma braces_literal (s : text) (v : pyval) (r : text) :
  Json.parse_literal s = Some (v, r) ->
  dicts v = 0%nat /\ (braces r <= braces s)%nat.
Proof.
  unfold Json.parse_literal.
  repeat (destruct (startswith s _);
          [intros [= <- <-]; split;
           [reflexivity
           |first [exact (braces_skipn 3 s) | exact (braces_skipn 4 s)
                  |exact (braces_skipn 5 s) | exact (braces_skipn 8 s)
                  |exact (braces_skipn 9 s)]]|]).
  apply braces_number.
Qed.

Lemma dicts_in_set (acc : dict) (k : text) (v : pyval) :
  (dicts_in (dict_set acc k v) <= dicts_in acc + dicts v)%nat.
Proof.
  unfold dicts_in, list_sum.
  induction acc as [|[k' v'] acc IH]; cbn [dict_set].
  - cbn. lia.
  - destruct (text_eqb k' k); cbn [map fold_right snd] in *; lia.
Qed.

Lemma dicts_rev (l : list pyval) :
  list_sum (map dicts (rev l)) = list_sum (map dicts l).
Proof.
  induction l as [|v l IH]; [reflexivity|].
  cbn [rev]. rewrite map_app, list_sum_app, IH.
  unfold list_sum. cbn [map fold_right]. lia.
Qed.

(** The value read from a text has no more [dict] objects than the text
    read has closing braces. *)
Lemma braces_parse (fuel : nat) :
  (forall s v r,
     Json.parse_value fuel s = Some (v, r) ->
     (dicts v + braces r <= braces s)%nat) /\
  (forall s acc d r,
     Json.parse_members fuel s acc = Some (d, r) ->
     (dicts_in d + 1 + braces r <= dicts_in acc + braces s)%nat) /\
  (forall s acc l r,
     Json.parse_elements fuel s acc = Some (l, r) ->
     (list_sum (map dicts l) + braces r
      <= list_sum (map dicts acc) + braces s)%nat).
Proof.
  unfold dicts_in.
  induction fuel as [|n (IHv & IHm & IHe)]; [repeat split; discriminate|].
  split; [|split].
  - intros s v r. cbn [Json.parse_value].
    destruct s as [|c s']; [discriminate|].
    destruct (c =? 34)%N.
    { destruct (Json.scan_string s' []) as [[w q]|] eqn:S; [|discriminate].
      intros [= <- <-]. apply braces_string in S.
      pose proof (braces_tail c s'). cbn [dicts]. lia. }
    destruct (c =? 123)%N.
    { pose proof (braces_skip_ws s') as W. pose proof (braces_tail c s') as T.
      destruct (Json.skip_ws s') as [|c' q]; [discriminate|].
      destruct (c' =? 125)%N eqn:E.
      - intros [= <- <-]. rewrite braces_cons in W. cbn [dicts map list_sum fold_right].
        apply N.eqb_eq in E. subst c'. rewrite N.eqb_refl in W. lia.
      - destruct (Json.parse_members n (c' :: q) []) as [[d q']|] eqn:M;
          [|discriminate].
        intros [= <- <-]. apply IHm in M. cbn [dicts].
        cbn [map list_sum fold_right] in M. lia. }
    destruct (c =? 91)%N.
    { pose proof (braces_skip_ws s') as W. pose proof (braces_tail c s') as T.
      destruct (Json.skip_ws s') as [|c' q]; [discriminate|].
      destruct (c' =? 93)%N.
      - intros [= <- <-]. pose proof (braces_tail c' q). cbn [dicts map list_sum fold_right].
        lia.
      - destruct (Json.parse_elements n (c' :: q) []) as [[l q']|] eqn:M;
          [|discriminate].
        intros [= <- <-]. apply IHe in M. cbn [dicts].
        cbn [map list_sum fold_right] in M. lia. }
    intros H. apply braces_literal in H as [-> H]. exact H.
  - intros s acc d r. cbn [Json.parse_members].
    destruct s as [|c s']; [discriminate|].
    destruct (c =? 34)%N; [|discriminate].
    destruct (Json.scan_string s' []) as [[key q]|] eqn:S; [|discriminate].
    apply braces_string in S. pose proof (braces_tail c s') as T.
    pose proof (braces_skip_ws q) as W1.
    destruct (Json.skip_ws q) as [|c1 r1]; [discriminate|].
    destruct (c1 =? 58)%N; [|discriminate].
    pose proof (braces_tail c1 r1) as T1.
    pose proof (braces_skip_ws r1) as W2.
    destruct (Json.parse_value n (Json.skip_ws r1)) as [[v r2]|] eqn:V;
      [|discriminate].
    apply IHv in V. cbn zeta.
    pose proof (dicts_in_set acc key v) as D. unfold dicts_in in D.
    pose proof (braces_skip_ws r2) as W3.
    destruct (Json.skip_ws r2) as [|c3 r3]; [discriminate|].
    destruct (c3 =? 125)%N eqn:E.
    + intros [= <- <-]. rewrite braces_cons in W3.
      apply N.eqb_eq in E. subst c3. rewrite N.eqb_refl in W3. lia.
    + destruct (c3 =? 44)%N; [|discriminate].
      intros H. apply IHm in H.
      pose proof (braces_skip_ws r3). pose proof (braces_tail c3 r3). lia.
  - intros s acc l r. cbn [Json.parse_elements].
    destruct (Json.parse_value n s) as [[v q]|] eqn:V; [|discriminate].
    apply IHv in V.
    pose proof (braces_skip_ws q) as W1.
    destruct (Json.skip_ws q) as [|c1 r1]; [discriminate|].
    pose proof (braces_tail c1 r1) as T1.
    destruct (c1 =? 93)%N.
    + intros [= <- <-]. change (rev acc ++ [v]) with (rev (v :: acc)).
      rewrite dicts_rev. unfold list_sum in *. cbn [map fold_right] in *. lia.
    + destruct (c1 =? 44)%N; [|discriminate].
      intros H. apply IHe in H. pose proof (braces_skip_ws r1).
      unfold list_sum in *. cbn [map fold_right] in *. lia.
Qed.

Lemma dict_get_dicts (d : dict) (k : text) (x : pyval) :
  dict_get d k = Some x -> (dicts x <= dicts_in d)%nat.
Proof.
  unfold dicts_in, list_sum.
  induction d as [|[k' v'] d IH]; cbn [dict_get]; [discriminate|].
  destruct (text_eqb k' k).
  - intros [= ->]. cbn [map fold_right snd]. lia.
  - intros H. apply IH in H. cbn [map fold_right snd]. lia.
Qed.

(** A text with a single closing brace decodes to a flat object: none of
    its values is itself a [dict]. *)
Theorem loads_flat (b : text) (d : dict) :
  (braces b <= 1)%nat ->
  Json.loads b = Some (PDict d) ->
  forall k x, dict_get d k = Some x -> forall d', x <> PDict d'.
Proof.
  intros B. unfold Json.loads.
  destruct (Json.parse_value _ (Json.skip_ws b)) as [[v r]|] eqn:P;
    [|discriminate].
  destruct (Json.skip_ws r); [|discriminate]. intros [= ->].
  apply (proj1 (braces_parse _)) in P. pose proof (braces_skip_ws b) as W.
  cbn [dicts] in P. fold (dicts_in d) in P.
  intros k x G d' ->. apply dict_get_dicts in G. cbn [dicts] in G. lia.
Qed.

(** ** The response parser *)

Section Parser.

Variable U : unicode.

(** The lazy scan of a block stops at the first closing brace. *)
Lemma lazy_first_brace (s : text) (caps : Re.captures) (r : text) caps' :
  Re.lazy (decimal U) (space U) (Re.Cls (Re.Bracket [Re.Space; Re.NotSpace]))
    s caps
    (fun s' c' =>
       Re.run (decimal U) (space U) (Re.Lit (str "}")) s' c'
         (fun s'' c'' => Some (s'', c'')))
  = Some (r, caps') ->
  exists u, s = u ++ 125%N :: r /\ braces u = 0%nat.
Proof.
  change (str "}") with [125%N].
  induction s as [|c s IH]; cbn [Re.lazy Re.run Re.strip_prefix].
  - discriminate.
  - destruct (125 =? c)%N eqn:E.
    + intros [= <- <-]. apply N.eqb_eq in E. subst c. exists []. auto.
    + destruct (Re.accepts _ _ _ c); [|discriminate].
      intros H. destruct (IH H) as (u & -> & B).
      exists (c :: u). split; [reflexivity|].
      rewrite braces_cons, E, B. reflexivity.
Qed.

(** A candidate block opens with a brace and has a single closing brace,
    its last character. *)
Lemma match_at_block (s : text) (m : Re.match_object) :
  Re.match_at (decimal U) (space U) block_re s = Some m ->
  exists u, Re.whole m = 123%N :: u ++ [125%N] /\ braces u = 0%nat.
Proof.
  unfold Re.match_at, block_re. cbn [seq Re.run].
  change (str "{") with [123%N].
  destruct s as [|c s1]; cbn [Re.strip_prefix]; [discriminate|].
  destruct (123 =? c)%N eqn:E; [|discriminate].
  apply N.eqb_eq in E. subst c.
  destruct (Re.lazy _ _ _ s1 [] _) as [[r caps']|] eqn:L; [|discriminate].
  intros [= <-]. cbn [Re.whole].
  apply lazy_first_brace in L as (u & -> & B).
  exists u. split; [|exact B].
  change (123%N :: u ++ 125%N :: r) with ((123%N :: u) ++ [125%N] ++ r).
  rewrite app_assoc. apply consumed_app.
Qed.

Lemma findall0_block (t : text) (b : text) :
  In b (findall0 U block_re t) ->
  exists u, b = 123%N :: u ++ [125%N] /\ braces u = 0%nat.
Proof.
  unfold findall0, Re.findall0. rewrite in_map_iff.
  intros (m & <- & I). apply scan_sound in I as (s0 & M).
  now apply match_at_block in M.
Qed.

Lemma block_braces (u : text) :
  braces u = 0%nat -> braces (123%N :: u ++ [125%N]) = 1%nat.
Proof.
  intros B. rewrite braces_cons, braces_app, B. reflexivity.
Qed.

Lemma try_blocks_In (bs : list text) (p : pyval) :
  try_blocks bs = Some p -> exists b, In b bs /\ Json.loads b = Some p.
Proof.
  induction bs as [|b bs IH]; cbn [try_blocks]; [discriminate|].
  destruct (Json.loads b) as [q|] eqn:L.
  - destruct (_ <- _ ;; _) as [[|]|].
    + intros [= <-]. exists b. split; [now left|exact L].
    + intros H. destruct (IH H) as (b' & I & L'). exists b'. split; [now right|exact L'].
    + intros H. destruct (IH H) as (b' & I & L'). exists b'. split; [now right|exact L'].
  - intros H. destruct (IH H) as (b' & I & L'). exists b'. split; [now right|exact L'].
Qed.

(** What the parser returns was decoded from a block with a single closing
    brace. *)
Lemma extract_json_block (t : text) (p : pyval) :
  extract_json U t = Some p ->
  exists b, braces b = 1%nat /\ Json.loads b = Some p.
Proof.
  unfold extract_json. intros H.
  apply try_blocks_In in H as (b & I & L).
  apply in_rev, findall0_block in I as (u & -> & B).
  exists (123%N :: u ++ [125%N]). split; [now apply block_braces|exact L].
Qed.

(** Hence the fields an oracle answer carries are never a [dict], and the
    rule engine raises on them at its first subscript. *)
Lemma oracle_fields_raise (t : text) (p f : pyval) :
  extract_json U t = Some p ->
  getitem p (str "fields") = Ok f ->
  apply_iec_rules f = Raise TypeError.
Proof.
  intros H G. apply extract_json_block in H as (b & B & L).
  destruct p as [| | | | | |d]; try discriminate.
  cbn [getitem] in G.
  destruct (dict_get d (str "fields")) as [x|] eqn:D; [|discriminate].
  injection G as ->.
  assert (N : forall d', f <> PDict d').
  { eapply loads_flat; [|exact L|exact D]. rewrite B. auto. }
  unfold apply_iec_rules.
  destruct f; try reflexivity. now destruct (N d0).
Qed.

End Parser.

(** ** The fusion step *)

Section Fusion.

Variable U : unicode.

(** The report built from the fallback extractor's field set and the rule
    engine's findings on it. *)
Lemma fallback_report (user_input : text) :
  exists fs v,
    fallback_extract U user_input = Ok (fields_dict fs) /\
    apply_iec_rules (PDict (fields_dict fs))
    = Ok (v, overall_of v, confidence_of v) /\
    (fields <- fallback_extract U user_input ;;
     rules <- apply_iec_rules (PDict fields) ;;
     let '(rule_validation, overall_status, rule_confidence) := rules in
     final_confidence <- py_min (PFloat 0.5) (PFloat rule_confidence) ;;
     Ok (mkResult (PDict fields) (RuleValidation rule_validation)
           overall_status
           (PStr (str "Fallback extraction used (AI response could not be parsed)"))
           (mkConfidence final_confidence (PFloat 0.5) rule_confidence
              (str "Combined AI extraction with deterministic IEC rule validation"))))
    = Ok (fallback_result fs v).
Proof.
  destruct (fallback_extract_total U user_input) as (fs & E & _).
  destruct (apply_iec_rules_fields fs) as (v & R & _).
  exists fs, v. split; [exact E|]. split; [exact R|].
  rewrite E. cbn [bind]. rewrite R. cbn [bind py_min py_lt].
  unfold fallback_result, PyFloat.min.
  destruct (PrimFloat.ltb (confidence_of v) 0.5); reflexivity.
Qed.

(** The entry point returns exactly when the parser gives no object with a
    "fields" key, and then the report is the fallback one. *)
Lemma validate_cases (user_input : text) (llm : text -> text) :
  match has_fields (extract_json U (llm (build_prompt user_input))) with
  | Ok true => validate_cable_design U user_input llm = Raise TypeError
  | Ok false =>
      exists fs v,
        fallback_extract U user_input = Ok (fields_dict fs) /\
        apply_iec_rules (PDict (fields_dict fs))
        = Ok (v, overall_of v, confidence_of v) /\
        validate_cable_design U user_input llm = Ok (fallback_result fs v)
  | Raise e => validate_cable_design U user_input llm = Raise e
  end.
Proof.
  unfold validate_cable_design.
  set (raw := llm (build_prompt user_input)).
  destruct (fallback_report user_input) as (fs & v & E & R & F).
  destruct (extract_json U raw) as [p|] eqn:EJ.
  - destruct (has_fields (Some p)) as [[|]|] eqn:H; cbn [bind].
    + unfold has_fields in H.
      destruct (getitem p (str "fields")) as [f|e] eqn:G.
      * pose proof (oracle_fields_raise U raw p f EJ G) as A.
        destruct p; try discriminate. cbn [get bind]. rewrite A. reflexivity.
      * cbn [bind].
        destruct p as [| | | | | |d]; cbn [getitem] in G;
          try (injection G as <-; reflexivity).
        cbn [py_in] in H. unfold dict_in in H.
        destruct (dict_get d (str "fields")); [discriminate|].
        destruct (truthy (PDict d)); discriminate.
    + exists fs, v. split; [exact E|]. split; [exact R|].
      rewrite E in *. cbn [bind] in *. rewrite R in *. cbn [bind get dict_get] in *.
      exact F.
    + reflexivity.
  - cbn [has_fields bind].
    exists fs, v. split; [exact E|]. split; [exact R|].
    rewrite E in *. cbn [bind] in *. rewrite R in *. cbn [bind get dict_get] in *.
    exact F.
Qed.

End Fusion.

(** ** Completeness of the matcher *)

Section MatcherComplete.

Variable decimal : char -> option N.
Variable space : char -> bool.

Lemma strip_prefix_complete (l s : text) : Re.strip_prefix l (l ++ s) = Some s.
Proof.
  induction l as [|c l IH]; cbn; [now destruct s|].
  now rewrite N.eqb_refl.
Qed.

Lemma greedy_continue (i : Re.item) (s : text) caps (k : Re.cont) :
  k s caps <> None -> Re.greedy decimal space i s caps k <> None.
Proof.
  intros K. destruct s as [|c s]; cbn; [exact K|].
  destruct (Re.accepts decimal space i c); [|exact K].
  destruct (Re.greedy decimal space i s caps k); [discriminate|exact K].
Qed.

Lemma greedy_complete (i : Re.item) (w s : text) caps (k : Re.cont) :
  all_accept decimal space i w ->
  k s caps <> None -> Re.greedy decimal space i (w ++ s) caps k <> None.
Proof.
  intros F K. induction F as [|c w A _ IH]; [now apply greedy_continue|].
  cbn. rewrite A.
  destruct (Re.greedy decimal space i (w ++ s) caps k); [discriminate|].
  now destruct IH.
Qed.

Lemma lazy_complete (i : Re.item) (w s : text) caps (k : Re.cont) :
  all_accept decimal space i w ->
  k s caps <> None -> Re.lazy decimal space i (w ++ s) caps k <> None.
Proof.
  intros F K. induction F as [|c w A _ IH].
  - destruct s as [|c s]; cbn; destruct (k _ caps); try discriminate;
      now destruct K.
  - cbn. destruct (k (c :: w ++ s) caps); [discriminate|]. now rewrite A.
Qed.

Theorem run_complete (r : Re.regex) :
  forall w caps caps',
    matches decimal space r w caps caps' ->
    forall s (k : Re.cont),
      k s caps' <> None -> Re.run decimal space r (w ++ s) caps k <> None.
Proof.
  induction r as [l|q i|a IHa b IHb|a IHa b IHb|n a IHa];
    intros w caps caps'.
  - intros [-> ->] s k K. cbn. now rewrite strip_prefix_complete.
  - intros (F & -> & Q) s k K. destruct q; cbn.
    + (* Opt *)
      destruct w as [|c [|d w]].
      * cbn. destruct s as [|c s]; [exact K|].
        destruct (Re.accepts decimal space i c); [|exact K].
        destruct (k s caps); [discriminate|exact K].
      * cbn. apply Forall_inv in F. rewrite F.
        destruct (k s caps); [discriminate|now destruct K].
      * cbn in Q. exfalso. apply (Nat.nle_succ_0 (List.length w)).
        now apply le_S_n.
    + now apply greedy_complete.
    + destruct w as [|c w]; [now destruct Q|].
      cbn. rewrite (Forall_inv F).
      apply greedy_complete; [exact (Forall_inv_tail F)|exact K].
    + now apply lazy_complete.
  - intros (u & v & mid & -> & Ma & Mb) s k K. cbn. rewrite <- app_assoc.
    apply (IHa u caps mid Ma). now apply (IHb v mid caps' Mb).
  - intros [M|M] s k K; cbn.
    + pose proof (IHa w caps caps' M s k K).
      destruct (Re.run decimal space a (w ++ s) caps k);
        [discriminate|contradiction].
    + destruct (Re.run decimal space a (w ++ s) caps k); [discriminate|].
      now apply (IHb w caps caps' M).
  - intros (mid & M & ->) s k K. cbn.
    apply (IHa w caps mid M). now rewrite consumed_app.
Qed.

Lemma match_at_complete (r : Re.regex) (w s : text) caps :
  matches decimal space r w [] caps ->
  Re.match_at decimal space r (w ++ s) <> None.
Proof.
  intros M. unfold Re.match_at.
  pose proof (run_complete r w [] caps M s
                (fun s' caps' => Some (s', caps'))) as R.
  destruct (Re.run decimal space r (w ++ s) [] _) as [[s' c]|];
    [discriminate|]. now destruct R.
Qed.

Lemma search_complete (r : Re.regex) (before w after : text) caps :
  matches decimal space r w [] caps ->
  Re.search decimal space r (before ++ w ++ after) <> None.
Proof.
  intros M. induction before as [|c before IH].
  - pose proof (match_at_complete r w after caps M) as A. cbn [app].
    destruct (w ++ after); cbn [Re.search];
      destruct (Re.match_at decimal space r _); try discriminate;
      now destruct A.
  - cbn [app Re.search].
    destruct (Re.match_at decimal space r _); [discriminate|exact IH].
Qed.

End MatcherComplete.

(** [re.search] finds a match exactly when the pattern occurs. *)
Lemma search_occurs (U : unicode) (r : Re.regex) (t : text) :
  search U r t <> None <-> occurs U r t.
Proof.
  unfold search. split.
  - destruct (Re.search (decimal U) (space U) r t) as [m|] eqn:S;
      [|now intros []].
    intros _. apply search_sound in S as (before & E & M).
    exists before, (Re.whole m), (Re.after m), (Re.groups m). auto.
  - intros (before & w & after & caps & -> & M).
    now apply search_complete with (caps := caps).
Qed.

Lemma search_none (U : unicode) (r : Re.regex) (t : text) :
  search U r t = None <-> ~ occurs U r t.
Proof.
  rewrite <- search_occurs. destruct (search U r t); split; try easy.
  intros H. now destruct H.
Qed.

(** ** The claims on the parser, the extractor and the entry point *)

Lemma loads_block (b : text) (v : pyval) :
  Json.loads (123%N :: b) = Some v -> exists d, v = PDict d.
Proof.
  unfold Json.loads.
  replace (Json.skip_ws (123%N :: b)) with (123%N :: b) by reflexivity.
  match goal with
  | |- context [Json.parse_value ?f _] => generalize f
  end.
  intros [|n]; cbn [Json.parse_value]; [discriminate|].
  change (123 =? 34)%N with false. change (123 =? 123)%N with true. cbv iota.
  destruct (Json.skip_ws b) as [|c r]; [discriminate|].
  destruct (c =? 125)%N.
  - destruct (Json.skip_ws r); [|discriminate]. intros [= <-]. eauto.
  - destruct (Json.parse_members n (c :: r) []) as [[d r']|]; [|discriminate].
    destruct (Json.skip_ws r'); [|discriminate]. intros [= <-]. eauto.
Qed.

Lemma try_blocks_first_qualifying (bs : list text) :
  (forall b, In b bs -> exists u, b = 123%N :: u) ->
  try_blocks bs = first_qualifying bs.
Proof.
  induction bs as [|b bs IH]; intros H; [reflexivity|].
  cbn [try_blocks first_qualifying]. unfold qualifies.
  assert (IH' : try_blocks bs = first_qualifying bs).
  { apply IH. intros b' I. apply H. now right. }
  destruct (H b (or_introl eq_refl)) as (u & ->).
  destruct (Json.loads (123%N :: u)) as [v|] eqn:L; [|exact IH'].
  apply loads_block in L as (d & ->). cbn [py_in bind].
  destruct (dict_in (str "fields") d); [reflexivity|]. cbn [orb].
  destruct (dict_in (str "validation") d); [reflexivity|exact IH'].
Qed.

(** C8. The low-voltage example: the extractor finds the seven attributes,
    and on that field set the rule engine reports no finding, the status
    PASS and the confidence 1.00. *)
Theorem lv_design_passes :
  fallback_extract ascii design_lv
  = Ok (fields_dict
          (mkFieldSet (Some (str "IEC 60502-1")) (Some 1%float)
             (Some (str "Cu")) (Some (str "Class 2")) (Some 10%float)
             (Some (str "PVC")) (Some 1%float))) /\
  apply_iec_rules
    (PDict (fields_dict
              (mkFieldSet (Some (str "IEC 60502-1")) (Some 1%float)
                 (Some (str "Cu")) (Some (str "Class 2")) (Some 10%float)
                 (Some (str "PVC")) (Some 1%float))))
  = Ok ([], PASS, 1%float).
Proof. split; vm_compute; reflexivity. Qed.

(** The confidence of a report never exceeds either of its sources. *)
Lemma shape_min_le r1 r2 r3 r4 r5 r6 r7 :
  let c := confidence_of (of_tags (shape r1 r2 r3 r4 r5 r6 r7)) in
  PrimFloat.leb (PyFloat.min 0.5 c) 0.5 = true /\
  PrimFloat.leb (PyFloat.min 0.5 c) c = true.
Proof.
  destruct r1, r2, r3, r4, r5, r6, r7; vm_compute; split; reflexivity.
Qed.

Lemma validate_ok (U : unicode) (user_input : text) (llm : text -> text) r :
  validate_cable_design U user_input llm = Ok r ->
  exists fs v,
    fallback_extract U user_input = Ok (fields_dict fs) /\
    apply_iec_rules (PDict (fields_dict fs))
    = Ok (v, overall_of v, confidence_of v) /\
    r = fallback_result fs v.
Proof.
  intros H. pose proof (validate_cases U user_input llm) as C.
  destruct (has_fields _) as [[|]|e].
  - rewrite C in H. discriminate.
  - destruct C as (fs & v & E & R & V). rewrite V in H.
    injection H as <-. exists fs, v. auto.
  - rewrite C in H. discriminate.
Qed.

(** C6. An oracle completion whose object has a "fields" entry aborts the
    pipeline: the parser accepts the object and the rule engine raises
    [TypeError] on its first subscript, which nothing catches. *)
Theorem oracle_fields_abort_pipeline :
  extract_json ascii (oracle completion_fields (build_prompt design_lv))
  = Some (PDict [(str "fields", PList []); (str "validation", PList [])]) /\
  validate_cable_design ascii design_lv (oracle completion_fields)
  = Raise TypeError.
Proof. split; vm_compute; reflexivity. Qed.


(** ** The extractor, field by field *)

Section Fields.

Variable U : unicode.

Lemma extract_standard_of (t : text) (fs : FieldSet) :
  extract_standard t (fields_dict fs)
  = fields_dict (set_standard (standard_of t) fs).
Proof.
  destruct (dict_set_fields fs) as (E & _).
  unfold extract_standard, standard_of.
  destruct (_ || _); [apply E|]. destruct (contains _ t); [apply E|reflexivity].
Qed.

Lemma extract_material_of (t : text) (fs : FieldSet) :
  extract_material t (fields_dict fs)
  = fields_dict (set_material (material_of t) fs).
Proof.
  destruct (dict_set_fields fs) as (_ & _ & E & _).
  unfold extract_material, material_of.
  destruct (_ || _); [apply E|]. destruct (_ || _); [apply E|reflexivity].
Qed.

Lemma extract_insulation_of (t : text) (fs : FieldSet) :
  extract_insulation t (fields_dict fs)
  = fields_dict (set_insulation (insulation_of t) fs).
Proof.
  destruct (dict_set_fields fs) as (_ & _ & _ & _ & _ & E & _).
  unfold extract_insulation, insulation_of.
  destruct (contains _ t); [apply E|]. destruct (_ || _); [apply E|].
  destruct (contains _ t); [apply E|reflexivity].
Qed.

Lemma matches_class (w : text) (caps : Re.captures) :
  matches (decimal U) (space U) class_re w [] caps ->
  exists s1 ds,
    w = str "class" ++ s1 ++ ds /\ blanks U s1 /\ ds <> [] /\
    Forall (fun c => decimal U c <> None) ds /\ caps = [(1%nat, ds)].
Proof.
  unfold class_re. cbn [seq matches].
  intros (kw & r1 & c1 & -> & (-> & ->) &
          s1 & r2 & c2 & -> & M1 & c3 & (D & -> & N) & ->).
  apply matches_ws in M1 as [B1 ->].
  exists s1, r2. repeat split; auto using all_accept_digit.
Qed.

Lemma extract_class_rule (t : text) (fs : FieldSet) :
  exists o,
    extract_class U t (fields_dict fs) = fields_dict (set_class o fs)
    /\ class_rule U t o.
Proof.
  destruct (dict_set_fields fs) as (_ & _ & _ & E & _).
  unfold extract_class, class_rule.
  destruct (search U class_re t) as [m|] eqn:S1; [|now exists None].
  apply search_sound in S1 as (before & _ & M).
  apply matches_class in M as (s1 & ds & W & B & N & D & G).
  exists (Some (str "Class " ++ ds)). unfold Re.group. rewrite G.
  cbn [Re.lookup Nat.eqb]. split; [apply E|].
  exists s1, ds. auto.
Qed.

Lemma matches_csa_whole (w : text) (caps : Re.captures) :
  matches (decimal U) (space U) csa_re w [] caps ->
  exists X s1 unit,
    w = X ++ s1 ++ unit /\ numeral U X /\ blanks U s1 /\
    (unit = str "sqmm" \/ unit = str "mm2" \/ unit = str "mm²") /\
    Re.lookup caps 1 = Some X.
Proof.
  unfold csa_re. cbn [seq matches].
  intros (X & r1 & c1 & -> & (c1' & MX & ->) &
          s1 & r2 & c2 & -> & M1 & c3 & A & ->).
  apply matches_number in MX as [NX ->].
  apply matches_ws in M1 as [B1 ->].
  exists X, s1, r2. split; [reflexivity|]. split; [exact NX|].
  split; [exact B1|].
  destruct A as [[-> ->]|[[-> ->]|[-> ->]]]; auto.
Qed.

Lemma extract_csa_rule (t : text) (fs : FieldSet) :
  exists o,
    extract_csa U t (fields_dict fs) = Ok (fields_dict (set_csa o fs))
    /\ csa_rule U t o.
Proof.
  destruct (dict_set_fields fs) as (_ & _ & _ & _ & E & _).
  unfold extract_csa, csa_rule.
  destruct (search U csa_re t) as [m|] eqn:S1; [|now exists None].
  apply search_sound in S1 as (before & _ & M).
  apply matches_csa_whole in M as (X & s1 & unit & W & NX & B & Un & G).
  destruct (float_of_numeral U X NX) as (x & F).
  exists (Some x). unfold Re.group. rewrite G. cbn [py_float]. rewrite F.
  cbn [bind]. rewrite E. split; [reflexivity|].
  exists X, s1, unit, x. auto 10.
Qed.

Lemma all_accept_dot (w : text) :
  all_accept (decimal U) (space U) (Re.Cls Re.Dot) w -> ~ In 10%N w.
Proof.
  intros F I. unfold all_accept in F. rewrite Forall_forall in F.
  apply F in I. discriminate.
Qed.

Lemma matches_thickness_whole (w : text) (caps : Re.captures) :
  matches (decimal U) (space U) thickness_re w [] caps ->
  exists kw gap X s1,
    w = kw ++ gap ++ X ++ s1 ++ str "mm" /\
    (kw = str "insulation" \/ kw = str "tᵢ" \/ kw = str "ti") /\
    ~ In 10%N gap /\ numeral U X /\ blanks U s1 /\
    Re.lookup caps 1 = Some X.
Proof.
  unfold thickness_re. cbn [seq matches].
  intros (kw & r1 & c1 & -> & K &
          g & r2 & c2 & -> & (G & -> & _) &
          X & r3 & c3 & -> & (c3' & MX & ->) &
          s1 & r4 & c4 & -> & M1 & -> & ->).
  apply matches_number in MX as [NX ->].
  apply matches_ws in M1 as [B1 ->].
  exists kw, g, X, s1. split; [reflexivity|].
  split; [destruct K as [[-> _]|[[-> _]|[-> _]]]; auto|].
  split; [now apply all_accept_dot|].
  repeat split; auto.
Qed.

Lemma extract_thickness_keyword (t : text) (fs : FieldSet) :
  exists o,
    extract_thickness U t (fields_dict fs)
    = Ok (fields_dict (set_thickness o fs))
    /\ thickness_rule U t o /\ keyword_thickness_rule U t o.
Proof.
  destruct (extract_thickness_fields U t fs) as (o & E & T).
  exists o. split; [exact E|]. split; [exact T|].
  intros m S1. unfold thickness_rule in T. rewrite S1 in T.
  destruct T as (X' & x & G' & _ & F' & ->).
  apply search_sound in S1 as (before & _ & M).
  apply matches_thickness_whole in M as (kw & gap & X & s1 & W & K & NL & NX & B & G).
  unfold Re.group in G'. rewrite G in G'. injection G' as <-.
  exists kw, gap, X, s1, x. auto 10.
Qed.

(** Every paragraph of the extractor writes its own field only: the field
    set returned carries, attribute by attribute, what each paragraph
    found. *)
Lemma fallback_extract_fields (text : text) :
  exists fs,
    fallback_extract U text = Ok (fields_dict fs)
    /\ standard fs = standard_of (lower U text)
    /\ voltage_rule U (lower U text) (voltage_kv fs)
    /\ conductor_material fs = material_of (lower U text)
    /\ class_rule U (lower U text) (conductor_class fs)
    /\ csa_rule U (lower U text) (csa_mm2 fs)
    /\ insulation_material fs = insulation_of (lower U text)
    /\ thickness_rule U (lower U text) (insulation_thickness_mm fs)
    /\ keyword_thickness_rule U (lower U text) (insulation_thickness_mm fs).
Proof.
  unfold fallback_extract. set (t := lower U text).
  change empty_fields with (fields_dict all_null).
  rewrite extract_standard_of.
  destruct (extract_voltage_fields U t (set_standard (standard_of t) all_null))
    as (o2 & -> & V). cbn [bind].
  destruct (extract_csa_rule t
              (set_voltage o2 (set_standard (standard_of t) all_null)))
    as (o3 & -> & C). cbn [bind].
  destruct (extract_thickness_keyword t
              (set_csa o3
                 (set_voltage o2 (set_standard (standard_of t) all_null))))
    as (o4 & -> & T & K). cbn [bind].
  rewrite extract_material_of.
  destruct (extract_class_rule t
              (set_material (material_of t)
                 (set_thickness o4
                    (set_csa o3
                       (set_voltage o2
                          (set_standard (standard_of t) all_null))))))
    as (o6 & -> & L).
  rewrite extract_insulation_of.
  eexists. split; [reflexivity|].
  destruct (standard_of t), o2, o3, o4, (material_of t), o6,
    (insulation_of t); cbn; repeat split; assumption.
Qed.

End Fields.

(** ** Substrings *)

Lemma startswith_spec (s p : text) :
  startswith s p = true <-> exists r, s = p ++ r.
Proof.
  revert s. induction p as [|x p IH]; intros s.
  - split; [intros _; now exists s|now destruct s].
  - destruct s as [|y s]; simpl.
    + split; [discriminate|]. intros (r & H). discriminate.
    + rewrite andb_true_iff, N.eqb_eq, IH. split.
      * intros (-> & r & ->). now exists r.
      * intros (r & [= -> ->]). split; [reflexivity|now exists r].
Qed.

Lemma contains_spec (sub s : text) :
  contains sub s = true <-> substring sub s.
Proof.
  unfold substring. induction s as [|c s IH]; cbn [contains].
  - rewrite orb_false_r, startswith_spec. split.
    + intros (r & ->). now exists [], r.
    + intros ([|b before] & after & H); [now exists after|discriminate].
  - rewrite orb_true_iff, startswith_spec, IH. split.
    + intros [(r & ->)|(before & after & ->)].
      * now exists [], r.
      * now exists (c :: before), after.
    + intros ([|b before] & after & H).
      * left. now exists after.
      * right. injection H as _ ->. now exists before, after.
Qed.

Lemma contains_false (sub s : text) :
  contains sub s = false <-> ~ substring sub s.
Proof.
  rewrite <- contains_spec. destruct (contains sub s); split;
    congruence || (intros H; now destruct H).
Qed.

Lemma names_designator_spec (t : text) :
  contains (str "iec 60502-1") t || contains (str "iec60502-1") t = true
  <-> names_designator t.
Proof.
  unfold names_designator. now rewrite orb_true_iff, !contains_spec.
Qed.

Lemma names_copper_spec (t : text) :
  contains (str "copper") t || contains (str " cu") t
  || contains (str "cu,") t = true <-> names_copper t.
Proof.
  unfold names_copper. rewrite !orb_true_iff, !contains_spec. tauto.
Qed.

Lemma names_aluminium_spec (t : text) :
  contains (str "aluminium") t || contains (str "aluminum") t
  || contains (str " al") t || contains (str "al,") t = true
  <-> names_aluminium t.
Proof.
  unfold names_aluminium. rewrite !orb_true_iff, !contains_spec. tauto.
Qed.

Lemma bool_prop_false (b : bool) (P : Prop) :
  (b = true <-> P) -> ~ P -> b = false.
Proof. intros H N. destruct b; [|reflexivity]. now destruct N; apply H. Qed.

(** ** Further properties of the extractor *)

Lemma In_tags_status (v : list Finding) (n s : text) :
  In (n, s) (tags v) -> exists f, In f v /\ status f = s.
Proof.
  unfold tags. rewrite in_map_iff. intros (f & [= _ <-] & I). eauto.
Qed.

Lemma standard_not_in_rest r2 r3 r4 r5 r6 r7 (s : text) :
  ~ In (str "standard", s) (shape Silent r2 r3 r4 r5 r6 r7).
Proof.
  unfold shape. rewrite !in_app_iff. cbn [entry In].
  intros H. repeat destruct H as [H|H]; try contradiction;
    apply In_entry in H as [H _]; vm_compute in H; discriminate.
Qed.

(** X1. The extractor never raises, and the rule engine never raises on
    what it returns; the report is FAIL with a finding on the standard
    unless the lower-cased text names the standard with its part
    ("iec 60502-1" or "iec60502-1"), in which case the standard is the
    designator and no finding bears on it. The family name alone gives the
    placeholder, which fails like an absent standard. *)
Theorem fallback_designator_or_fail (U : unicode) (text : text) :
  exists fs v o c,
    fallback_extract U text = Ok (fields_dict fs) /\
    apply_iec_rules (PDict (fields_dict fs)) = Ok (v, o, c) /\
    (names_designator (lower U text) ->
     standard fs = Some (str "IEC 60502-1") /\
     forall s, ~ In (str "standard", s) (tags v)) /\
    (~ names_designator (lower U text) ->
     (standard fs = None \/
      (substring (str "iec 60502") (lower U text) /\
       standard fs = Some (str "IEC 60502 (ambiguous - specify part)"))) /\
     In (str "standard", FAIL) (tags v) /\ o = FAIL).
Proof.
  destruct (fallback_extract_fields U text) as (fs & E & S & _).
  destruct (apply_iec_rules_fields fs) as (v & R & T).
  exists fs, v, (overall_of v), (confidence_of v).
  split; [exact E|]. split; [exact R|].
  unfold standard_of in S. split.
  - intros N. apply names_designator_spec in N. rewrite N in S.
    split; [exact S|]. intros s. rewrite T. unfold verdict1. rewrite S.
    change (text_eqb (str "IEC 60502-1") (str "IEC 60502-1")) with true.
    apply standard_not_in_rest.
  - intros N. apply (bool_prop_false _ _ (names_designator_spec _)) in N.
    rewrite N in S.
    assert (V : verdict1 fs = Fail).
    { unfold verdict1. rewrite S.
      destruct (contains (str "iec 60502") (lower U text)); reflexivity. }
    assert (I : In (str "standard", FAIL) (tags v)).
    { rewrite T, V. unfold shape. apply in_or_app. left. now left. }
    split; [|split; [exact I|]].
    + destruct (contains (str "iec 60502") (lower U text)) eqn:C.
      * right. split; [now apply contains_spec|exact S].
      * now left.
    + apply In_tags_status in I. now apply overall_of_precedence.
Qed.

(** X2. Copper is looked for before aluminium: a text with a copper term
    gives "Cu" whatever else it holds; without one, an aluminium term gives
    "Al"; without either the material is null. No other value is ever
    assigned. *)
Theorem conductor_material_precedence (U : unicode) (text : text) :
  exists fs,
    fallback_extract U text = Ok (fields_dict fs) /\
    (names_copper (lower U text) -> conductor_material fs = Some (str "Cu")) /\
    (~ names_copper (lower U text) -> names_aluminium (lower U text) ->
     conductor_material fs = Some (str "Al")) /\
    (~ names_copper (lower U text) -> ~ names_aluminium (lower U text) ->
     conductor_material fs = None).
Proof.
  destruct (fallback_extract_fields U text) as (fs & E & _ & _ & M & _).
  exists fs. split; [exact E|]. unfold material_of in M.
  split; [|split].
  - intros C. apply names_copper_spec in C. now rewrite C in M.
  - intros C A. apply (bool_prop_false _ _ (names_copper_spec _)) in C.
    apply names_aluminium_spec in A. now rewrite C, A in M.
  - intros C A. apply (bool_prop_false _ _ (names_copper_spec _)) in C.
    apply (bool_prop_false _ _ (names_aluminium_spec _)) in A.
    now rewrite C, A in M.
Qed.

(** X3. The insulation material is looked for in the order PVC, XLPE (or
    "cross-linked"), EPR: the first keyword present in the lower-cased text
    decides, and without any the material is null. *)
Theorem insulation_material_precedence (U : unicode) (text : text) :
  exists fs,
    fallback_extract U text = Ok (fields_dict fs) /\
    (substring (str "pvc") (lower U text) ->
     insulation_material fs = Some (str "PVC")) /\
    (~ substring (str "pvc") (lower U text) ->
     substring (str "xlpe") (lower U text)
     \/ substring (str "cross-linked") (lower U text) ->
     insulation_material fs = Some (str "XLPE")) /\
    (~ substring (str "pvc") (lower U text) ->
     ~ substring (str "xlpe") (lower U text) ->
     ~ substring (str "cross-linked") (lower U text) ->
     substring (str "epr") (lower U text) ->
     insulation_material fs = Some (str "EPR")) /\
    (~ substring (str "pvc") (lower U text) ->
     ~ substring (str "xlpe") (lower U text) ->
     ~ substring (str "cross-linked") (lower U text) ->
     ~ substring (str "epr") (lower U text) ->
     insulation_material fs = None).
Proof.
  destruct (fallback_extract_fields U text)
    as (fs & E & _ & _ & _ & _ & _ & I & _).
  exists fs. split; [exact E|]. unfold insulation_of in I.
  split; [|split; [|split]].
  - intros P. apply contains_spec in P. now rewrite P in I.
  - intros P X. apply contains_false in P. rewrite P in I.
    assert (X' : contains (str "xlpe") (lower U text)
                 || contains (str "cross-linked") (lower U text) = true).
    { apply orb_true_iff. now rewrite !contains_spec. }
    now rewrite X' in I.
  - intros P X C R. apply contains_false in P, X, C. apply contains_spec in R.
    now rewrite P, X, C, R in I.
  - intros P X C R. apply contains_false in P, X, C, R.
    now rewrite P, X, C, R in I.
Qed.

(** X4. The conductor class is "Class " followed by the digits of the
    leftmost "class", blanks, digits of the lower-cased text, and null when
    the pattern occurs nowhere; the digits are kept as written. *)
Theorem conductor_class_rule (U : unicode) (text : text) :
  exists fs,
    fallback_extract U text = Ok (fields_dict fs) /\
    (occurs U class_re (lower U text) ->
     exists m s1 ds,
       search U class_re (lower U text) = Some m /\
       Re.whole m = str "class" ++ s1 ++ ds /\ blanks U s1 /\
       ds <> [] /\ Forall (fun c => decimal U c <> None) ds /\
       conductor_class fs = Some (str "Class " ++ ds)) /\
    (~ occurs U class_re (lower U text) -> conductor_class fs = None).
Proof.
  destruct (fallback_extract_fields U text)
    as (fs & E & _ & _ & _ & C & _).
  exists fs. split; [exact E|]. unfold class_rule in C.
  destruct (search U class_re (lower U text)) as [m|] eqn:S1.
  - destruct C as (s1 & ds & C). split.
    + intros _. exists m, s1, ds. split; [reflexivity|exact C].
    + intros N. apply search_none in N. congruence.
  - split.
    + intros O. apply search_occurs in O. congruence.
    + intros _. exact C.
Qed.

(** X5. The cross-sectional area is the value of the number of the
    leftmost number, blanks, unit of the lower-cased text, the unit being
    "sqmm", "mm2" or "mm²", and null when the pattern occurs nowhere. *)
Theorem csa_area_rule (U : unicode) (text : text) :
  exists fs,
    fallback_extract U text = Ok (fields_dict fs) /\
    (occurs U csa_re (lower U text) ->
     exists m X s1 unit x,
       search U csa_re (lower U text) = Some m /\
       Re.whole m = X ++ s1 ++ unit /\ numeral U X /\ blanks U s1 /\
       (unit = str "sqmm" \/ unit = str "mm2" \/ unit = str "mm²") /\
       float_of_str U X = Ok x /\ csa_mm2 fs = Some x) /\
    (~ occurs U csa_re (lower U text) -> csa_mm2 fs = None).
Proof.
  destruct (fallback_extract_fields U text)
    as (fs & E & _ & _ & _ & _ & C & _).
  exists fs. split; [exact E|]. unfold csa_rule in C.
  destruct (search U csa_re (lower U text)) as [m|] eqn:S1.
  - destruct C as (X & s1 & unit & x & C). split.
    + intros _. exists m, X, s1, unit, x. split; [reflexivity|exact C].
    + intros N. apply search_none in N. congruence.
  - split.
    + intros O. apply search_occurs in O. congruence.
    + intros _. exact C.
Qed.

(** X6. When an insulation keyword ("insulation", "tᵢ" or "ti") is followed
    on the same line by a number, blanks and "mm", the thickness is the
    value of that number in the leftmost such match, whatever other "mm"
    the text holds. *)
Theorem keyword_thickness_first (U : unicode) (text : text) :
  occurs U thickness_re (lower U text) ->
  exists fs m kw gap X s1 x,
    fallback_extract U text = Ok (fields_dict fs) /\
    search U thickness_re (lower U text) = Some m /\
    Re.whole m = kw ++ gap ++ X ++ s1 ++ str "mm" /\
    (kw = str "insulation" \/ kw = str "tᵢ" \/ kw = str "ti") /\
    ~ In 10%N gap /\ numeral U X /\ blanks U s1 /\
    float_of_str U X = Ok x /\ insulation_thickness_mm fs = Some x.
Proof.
  intros O. apply search_occurs in O.
  destruct (fallback_extract_fields U text)
    as (fs & E & _ & _ & _ & _ & _ & _ & _ & K).
  destruct (search U thickness_re (lower U text)) as [m|] eqn:S1;
    [|now destruct O].
  destruct (K m S1) as (kw & gap & X & s1 & x & H).
  exists fs, m, kw, gap, X, s1, x. split; [exact E|].
  split; [reflexivity|exact H].
Qed.

Lemma keyword_thickness_on_lv :
  exists fs x,
    fallback_extract ascii design_lv = Ok (fields_dict fs) /\
    insulation_thickness_mm fs = Some x.
Proof.
  assert (O : occurs ascii thickness_re (lower ascii design_lv))
    by (apply search_occurs; vm_compute; discriminate).
  destruct (keyword_thickness_first ascii design_lv O)
    as (fs & m & kw & gap & X & s1 & x & E & _ & _ & _ & _ & _ & _ & _ & T).
  exists fs, x. split; [exact E|exact T].
Defined.

(** ** When the rule engine returns *)

Lemma rules_ok_well_formed (d : dict) r :
  apply_iec_rules (PDict d) = Ok r -> well_formed d.
Proof.
  unfold apply_iec_rules, well_formed, field_names, dict_in. cbn [getitem].
  destruct (dict_get d (str "standard")) as [v1|] eqn:G1; [|discriminate].
  destruct (dict_get d (str "voltage_kv")) as [v2|] eqn:G2; [|discriminate].
  cbn [bind].
  assert (N2 : none_or_number v2 = true \/
               (is_none v2 = false /\ py_gt v2 (PFloat 1) = Raise TypeError))
    by (destruct v2; auto).
  destruct N2 as [N2|[I2 R2]]; [|rewrite I2, R2; discriminate].
  destruct (if is_none v2 then _ else _) as [w2|]; [|discriminate].
  cbn [bind].
  destruct (dict_get d (str "conductor_material")) as [v3|] eqn:G3;
    [|discriminate].
  destruct (dict_get d (str "conductor_class")) as [v4|] eqn:G4;
    [|discriminate].
  destruct (dict_get d (str "csa_mm2")) as [v5|] eqn:G5; [|discriminate].
  destruct (dict_get d (str "insulation_material")) as [v6|] eqn:G6;
    [|discriminate].
  destruct (dict_get d (str "insulation_thickness_mm")) as [v7|] eqn:G7;
    [|discriminate].
  cbn [bind].
  assert (N7 : none_or_number v7 = true \/
               (is_none v7 = false /\ py_lt v7 (PFloat 0.6) = Raise TypeError))
    by (destruct v7; auto).
  destruct N7 as [N7|[I7 R7]]; [|rewrite I7, R7; discriminate].
  intros _. split; [|split].
  - intros k [<-|[<-|[<-|[<-|[<-|[<-|[<-|[]]]]]]]].
    + now rewrite G1.
    + now rewrite G2.
    + now rewrite G3.
    + now rewrite G4.
    + now rewrite G5.
    + now rewrite G6.
    + now rewrite G7.
  - intros v [= <-]. exact N2.
  - intros v [= <-]. exact N7.
Qed.

Lemma well_formed_rules_ok (d : dict) :
  well_formed d -> exists r, apply_iec_rules (PDict d) = Ok r.
Proof.
  unfold well_formed, field_names, dict_in. intros (K & N2 & N7).
  assert (K1 := K (str "standard")). assert (K2 := K (str "voltage_kv")).
  assert (K3 := K (str "conductor_material")).
  assert (K4 := K (str "conductor_class")). assert (K5 := K (str "csa_mm2")).
  assert (K6 := K (str "insulation_material")).
  assert (K7 := K (str "insulation_thickness_mm")). clear K.
  unfold apply_iec_rules. cbn [getitem].
  destruct (dict_get d (str "standard")) as [v1|];
    [|discriminate K1; cbn; tauto].
  destruct (dict_get d (str "voltage_kv")) as [v2|];
    [|discriminate K2; cbn; tauto].
  destruct (dict_get d (str "conductor_material")) as [v3|];
    [|discriminate K3; cbn; tauto].
  destruct (dict_get d (str "conductor_class")) as [v4|];
    [|discriminate K4; cbn; tauto].
  destruct (dict_get d (str "csa_mm2")) as [v5|];
    [|discriminate K5; cbn; tauto].
  destruct (dict_get d (str "insulation_material")) as [v6|];
    [|discriminate K6; cbn; tauto].
  destruct (dict_get d (str "insulation_thickness_mm")) as [v7|];
    [|discriminate K7; cbn; tauto].
  specialize (N2 v2 eq_refl). specialize (N7 v7 eq_refl).
  clear K1 K2 K3 K4 K5 K6 K7.
  destruct v2; try discriminate N2; destruct v7; try discriminate N7;
    cbn [bind is_none py_gt py_lt]; eexists; reflexivity.
Qed.

Lemma rules_raise_kind (p : pyval) e :
  apply_iec_rules p = Raise e -> e = KeyError \/ e = TypeError.
Proof.
  assert (G : forall k x, getitem p k = Raise x -> x = KeyError \/ x = TypeError).
  { intros k x. destruct p; cbn [getitem]; try (intros [= <-]; auto).
    destruct (dict_get d k); [discriminate|intros [= <-]; auto]. }
  assert (L : forall a b x, py_lt a b = Raise x -> x = TypeError).
  { intros a b x. unfold py_lt.
    destruct a; try (intros [= <-]; reflexivity);
      destruct b; try (intros [= <-]; reflexivity); discriminate. }
  unfold apply_iec_rules.
  destruct (getitem p (str "standard")) as [v1|x] eqn:G1;
    [|intros [= <-]; exact (G _ _ G1)].
  destruct (getitem p (str "voltage_kv")) as [v2|x] eqn:G2;
    [|intros [= <-]; exact (G _ _ G2)].
  cbn [bind].
  destruct (is_none v2);
    [| destruct (py_gt v2 (PFloat 1)) as [c2|x] eqn:C2;
       [|intros [= <-]; right; exact (L _ _ _ C2)] ];
    cbn [bind];
    (destruct (getitem p (str "conductor_material")) as [v3|x] eqn:G3;
       [|intros [= <-]; exact (G _ _ G3)]);
    (destruct (getitem p (str "conductor_class")) as [v4|x] eqn:G4;
       [|intros [= <-]; exact (G _ _ G4)]);
    (destruct (getitem p (str "csa_mm2")) as [v5|x] eqn:G5;
       [|intros [= <-]; exact (G _ _ G5)]);
    (destruct (getitem p (str "insulation_material")) as [v6|x] eqn:G6;
       [|intros [= <-]; exact (G _ _ G6)]);
    (destruct (getitem p (str "insulation_thickness_mm")) as [v7|x] eqn:G7;
       [|intros [= <-]; exact (G _ _ G7)]);
    cbn [bind];
    (destruct (is_none v7);
     [| destruct (py_lt v7 (PFloat 0.6)) as [c7|x] eqn:C7;
        [|intros [= <-]; right; exact (L _ _ _ C7)] ]);
    cbn [bind]; discriminate.
Qed.

(** ** The status as a function of the fields *)

Lemma overall_of_shape r1 r2 r3 r4 r5 r6 r7 :
  overall_of (of_tags (shape r1 r2 r3 r4 r5 r6 r7))
  = status_of [r1; r2; r3; r4; r5; r6; r7].
Proof. destruct r1, r2, r3, r4, r5, r6, r7; vm_compute; reflexivity. Qed.

Lemma status_of_fail (rs : list verdict) :
  status_of rs = FAIL <-> existsb is_fail rs = true.
Proof.
  unfold status_of. destruct (existsb is_fail rs); [easy|].
  destruct (forallb is_silent rs); split; discriminate.
Qed.

Lemma status_of_pass (rs : list verdict) :
  status_of rs = PASS <-> forallb is_silent rs = true.
Proof.
  unfold status_of. destruct (existsb is_fail rs) eqn:F.
  - split; [discriminate|]. intros S. exfalso.
    apply existsb_exists in F as (r & I & F).
    rewrite forallb_forall in S. apply S in I. now destruct r.
  - destruct (forallb is_silent rs); split; (reflexivity || discriminate).
Qed.

Lemma verdict1_silent (fs : FieldSet) :
  is_silent (verdict1 fs) = true <-> standard fs = Some (str "IEC 60502-1").
Proof.
  unfold verdict1. destruct (standard fs) as [s|]; [|split; discriminate].
  destruct (text_eqb s (str "IEC 60502-1")) eqn:E.
  - apply text_eqb_eq in E. subst s. split; reflexivity.
  - apply text_eqb_neq in E. split; [discriminate|]. intros [= H]. now destruct E.
Qed.

Lemma verdict1_fail (fs : FieldSet) :
  is_fail (verdict1 fs) = true <-> standard fs <> Some (str "IEC 60502-1").
Proof.
  unfold verdict1. destruct (standard fs) as [s|];
    [|split; [discriminate|reflexivity]].
  destruct (text_eqb s (str "IEC 60502-1")) eqn:E.
  - apply text_eqb_eq in E. subst s. split; [discriminate|].
    intros H. now destruct H.
  - apply text_eqb_neq in E. split; [|reflexivity].
    intros _ [= H]. now destruct E.
Qed.

Lemma verdict2_fail (fs : FieldSet) :
  is_fail (verdict2 fs) = true
  <-> exists x, voltage_kv fs = Some x /\ PrimFloat.ltb 1.0 x = true.
Proof.
  unfold verdict2. destruct (voltage_kv fs) as [x|].
  - destruct (PrimFloat.ltb 1 x) eqn:L; split; eauto; try discriminate.
    intros (y & [= <-] & H). congruence.
  - split; [discriminate|]. intros (y & H & _). discriminate.
Qed.

Lemma verdict2_silent (fs : FieldSet) :
  is_silent (verdict2 fs) = true
  <-> exists x, voltage_kv fs = Some x /\ PrimFloat.ltb 1.0 x = false.
Proof.
  unfold verdict2. destruct (voltage_kv fs) as [x|].
  - destruct (PrimFloat.ltb 1 x) eqn:L; split; eauto; try discriminate.
    intros (y & [= <-] & H). congruence.
  - split; [discriminate|]. intros (y & H & _). discriminate.
Qed.

Lemma verdict7_fail (fs : FieldSet) :
  is_fail (verdict7 fs) = true
  <-> exists x, insulation_thickness_mm fs = Some x
                /\ PrimFloat.ltb x 0.6 = true.
Proof.
  unfold verdict7. destruct (insulation_thickness_mm fs) as [x|].
  - destruct (PrimFloat.ltb x 0.6) eqn:L; split; eauto; try discriminate.
    intros (y & [= <-] & H). congruence.
  - split; [discriminate|]. intros (y & H & _). discriminate.
Qed.

Lemma verdict7_silent (fs : FieldSet) :
  is_silent (verdict7 fs) = true
  <-> exists x, insulation_thickness_mm fs = Some x
                /\ PrimFloat.ltb x 0.6 = false.
Proof.
  unfold verdict7. destruct (insulation_thickness_mm fs) as [x|].
  - destruct (PrimFloat.ltb x 0.6) eqn:L; split; eauto; try discriminate.
    intros (y & [= <-] & H). congruence.
  - split; [discriminate|]. intros (y & H & _). discriminate.
Qed.

Lemma verdict_given_fail {A} (o : option A) :
  is_fail (verdict_given o) = true <-> False.
Proof. destruct o; split; (discriminate || contradiction). Qed.

Lemma verdict_given_silent {A} (o : option A) :
  is_silent (verdict_given o) = true <-> o <> None.
Proof.
  destruct o; split; try discriminate; try reflexivity.
  intros H. now destruct H.
Qed.

(** X8. On a field set the status is FAIL exactly when the standard is not
    the designator "IEC 60502-1", or the voltage exceeds 1.0, or the
    thickness is below 0.6; and PASS exactly when the standard is the
    designator, the voltage is given and does not exceed 1.0, material,
    class, area and insulation are given, whatever their values, and the
    thickness is given and not below 0.6. *)
Theorem status_by_fields (fs : FieldSet) :
  exists v o c,
    apply_iec_rules (PDict (fields_dict fs)) = Ok (v, o, c) /\
    (o = FAIL <->
     standard fs <> Some (str "IEC 60502-1")
     \/ (exists x, voltage_kv fs = Some x /\ PrimFloat.ltb 1.0 x = true)
     \/ (exists x, insulation_thickness_mm fs = Some x
                   /\ PrimFloat.ltb x 0.6 = true)) /\
    (o = PASS <->
     standard fs = Some (str "IEC 60502-1")
     /\ (exists x, voltage_kv fs = Some x /\ PrimFloat.ltb 1.0 x = false)
     /\ conductor_material fs <> None /\ conductor_class fs <> None
     /\ csa_mm2 fs <> None /\ insulation_material fs <> None
     /\ (exists x, insulation_thickness_mm fs = Some x
                   /\ PrimFloat.ltb x 0.6 = false)).
Proof.
  destruct (apply_iec_rules_fields fs) as (v & E & T).
  exists v, (overall_of v), (confidence_of v). split; [exact E|].
  rewrite <- (tags_of_tags (shape _ _ _ _ _ _ _)) in T.
  rewrite (overall_of_tags _ _ T), overall_of_shape.
  rewrite status_of_fail, status_of_pass.
  cbn [existsb forallb]. rewrite !orb_false_r, !andb_true_r.
  rewrite !orb_true_iff, !andb_true_iff, verdict1_fail, verdict1_silent,
    verdict2_fail, verdict2_silent, verdict7_fail, verdict7_silent,
    !verdict_given_fail, !verdict_given_silent.
  tauto.
Qed.

(** ** Status and confidence of a normal return *)

Lemma shape_ranges r1 r2 r3 r4 r5 r6 r7 :
  r1 <> Warn -> r3 <> Fail -> r4 <> Fail -> r5 <> Fail -> r6 <> Fail ->
  let w := of_tags (shape r1 r2 r3 r4 r5 r6 r7) in
  let o := overall_of w in
  let c := confidence_of w in
  let empty := match w with [] => true | _ => false end in
  (text_eqb o PASS && empty && PrimFloat.eqb c 1)
  || (negb empty && negb (PrimFloat.eqb c 1) &&
      ((text_eqb o WARN && PrimFloat.leb 0.1 c && PrimFloat.leb c 0.85)
       || (text_eqb o FAIL && PrimFloat.leb 0 c && PrimFloat.leb c 0.65)))
  = true.
Proof.
  intros H1 H3 H4 H5 H6.
  destruct r1; [|now destruct H1|];
    (destruct r3; [| |now destruct H3]);
    (destruct r4; [| |now destruct H4]);
    (destruct r5; [| |now destruct H5]);
    (destruct r6; [| |now destruct H6]);
    destruct r2, r7; vm_compute; reflexivity.
Qed.

Lemma tags_nil (v : list Finding) : tags v = [] <-> v = [].
Proof. destruct v; split; (reflexivity || discriminate). Qed.

(** X9. Whatever object the rule engine is run on, when it returns the
    status is PASS, WARN or FAIL; PASS goes with no finding and with the
    confidence 1.0, and with nothing else; under WARN the confidence lies
    between 0.1 and 0.85, and under FAIL between 0 and 0.65. *)
Theorem status_confidence_ranges (p : pyval) v o c :
  apply_iec_rules p = Ok (v, o, c) ->
  (o = PASS \/ o = WARN \/ o = FAIL) /\
  (o = PASS <-> v = []) /\
  (o = PASS <-> PrimFloat.eqb c 1 = true) /\
  (o = WARN -> PrimFloat.leb 0.1 c = true /\ PrimFloat.leb c 0.85 = true) /\
  (o = FAIL -> PrimFloat.leb 0 c = true /\ PrimFloat.leb c 0.65 = true).
Proof.
  intros H. apply apply_iec_rules_inv in H
    as (-> & -> & r1 & r2 & r3 & r4 & r5 & r6 & r7 & T & H1 & H3 & H4 & H5 & H6).
  pose proof (shape_ranges r1 r2 r3 r4 r5 r6 r7 H1 H3 H4 H5 H6) as R.
  cbv zeta in R.
  assert (N : v = [] <-> of_tags (shape r1 r2 r3 r4 r5 r6 r7) = []).
  { rewrite <- (tags_nil v), T. unfold of_tags.
    destruct (shape r1 r2 r3 r4 r5 r6 r7); split; (reflexivity || discriminate). }
  rewrite <- (tags_of_tags (shape r1 r2 r3 r4 r5 r6 r7)) in T.
  rewrite (overall_of_tags _ _ T), (confidence_of_tags _ _ T).
  set (w := of_tags (shape r1 r2 r3 r4 r5 r6 r7)) in *.
  set (o := overall_of w) in *. set (c := confidence_of w) in *.
  clearbody o c. rewrite N. clear N T.
  assert (PW : PASS <> WARN) by discriminate.
  assert (PF : PASS <> FAIL) by discriminate.
  assert (WF : WARN <> FAIL) by discriminate.
  apply orb_true_iff in R as [R|R].
  - apply andb_true_iff in R as [R C]. apply andb_true_iff in R as [O E].
    apply text_eqb_eq in O. subst o.
    destruct w; [|discriminate].
    repeat split; auto; intros; congruence.
  - apply andb_true_iff in R as [R B]. apply andb_true_iff in R as [E C].
    apply negb_true_iff in C.
    assert (W : w <> []) by (destruct w; [discriminate|discriminate]).
    apply orb_true_iff in B as [B|B];
      apply andb_true_iff in B as [B U]; apply andb_true_iff in B as [O L];
      apply text_eqb_eq in O; subst o.
    + split; [auto|]. split; [split; intros; congruence|].
      split; [split; intros; congruence|].
      split; [auto|]. intros; congruence.
    + split; [auto|]. split; [split; intros; congruence|].
      split; [split; intros; congruence|].
      split; [intros; congruence|]. auto.
Qed.

Lemma status_confidence_all_null :
  exists v o c,
    apply_iec_rules (PDict (fields_dict all_null)) = Ok (v, o, c) /\
    o = FAIL /\ PrimFloat.leb c 0.65 = true.
Proof.
  destruct (apply_iec_rules (PDict (fields_dict all_null)))
    as [[[v o] c]|e] eqn:E; [|vm_compute in E; discriminate].
  exists v, o, c. split; [reflexivity|].
  destruct (status_confidence_ranges _ v o c E) as (_ & _ & _ & _ & F).
  assert (O : o = FAIL) by (vm_compute in E; injection E as _ <- _; reflexivity).
  split; [exact O|]. apply F, O.
Defined.

(** ** What the response parser returns *)

Lemma try_blocks_keys (bs : list text) (p : pyval) :
  try_blocks bs = Some p ->
  py_in (str "fields") p = Ok true \/ py_in (str "validation") p = Ok true.
Proof.
  induction bs as [|b bs IH]; cbn [try_blocks]; [discriminate|].
  destruct (Json.loads b) as [q|]; [|exact IH].
  destruct (py_in (str "fields") q) as [[|]|] eqn:F; cbn [bind].
  - intros [= <-]. now left.
  - destruct (py_in (str "validation") q) as [[|]|] eqn:V; [|exact IH|exact IH].
    intros [= <-]. now right.
  - exact IH.
Qed.

Lemma loads_dicts (b : text) (v : pyval) :
  Json.loads b = Some v -> (dicts v <= braces b)%nat.
Proof.
  unfold Json.loads.
  destruct (Json.parse_value _ (Json.skip_ws b)) as [[w r]|] eqn:P;
    [|discriminate].
  destruct (Json.skip_ws r); [|discriminate]. intros [= <-].
  apply (proj1 (braces_parse _)) in P. pose proof (braces_skip_ws b) as W.
  eapply Nat.le_trans; [|exact W].
  eapply Nat.le_trans; [|exact P]. apply Nat.le_add_r.
Qed.

(** X10. Whatever the text, an object the response parser returns is a
    [dict] with a "fields" or a "validation" key that holds no other
    [dict] at any depth: none of its values is an object, the "fields" one
    included. *)
Theorem extract_json_flat_object (U : unicode) (t : text) (p : pyval) :
  extract_json U t = Some p ->
  exists d,
    p = PDict d /\
    (dict_in (str "fields") d = true \/ dict_in (str "validation") d = true) /\
    dicts_in d = 0%nat /\
    (forall k x, dict_get d k = Some x -> forall d', x <> PDict d').
Proof.
  unfold extract_json. intros H. pose proof (try_blocks_keys _ _ H) as K.
  apply try_blocks_In in H as (b & I & L).
  apply in_rev, findall0_block in I as (u & -> & B).
  pose proof (loads_block _ _ L) as (d & ->). exists d.
  split; [reflexivity|]. split.
  { cbn [py_in] in K. destruct K as [[= K]|[= K]]; auto. }
  assert (D : (dicts (PDict d) <= 1)%nat).
  { rewrite <- (block_braces u B). exact (loads_dicts _ _ L). }
  cbn [dicts] in D. fold (dicts_in d) in D.
  apply le_S_n, Nat.le_0_r in D. split; [exact D|].
  intros k x G d' ->. apply dict_get_dicts in G. rewrite D in G.
  cbn [dicts] in G. exact (Nat.nle_succ_0 _ G).
Qed.

Lemma extract_json_flat_two_blocks :
  exists d,
    extract_json ascii completion_two_blocks = Some (PDict d) /\
    dict_in (str "fields") d = true /\ dicts_in d = 0%nat.
Proof.
  destruct (extract_json ascii completion_two_blocks) as [p|] eqn:E;
    [|vm_compute in E; discriminate].
  destruct (extract_json_flat_object ascii completion_two_blocks p E)
    as (d & -> & _ & D & _).
  exists d. split; [reflexivity|]. split; [|exact D].
  vm_compute in E. injection E as <-. reflexivity.
Defined.

(** ** Texts without a block *)

Lemma replace_from_In (old s : text) (skip : nat) (c : char) :
  In c (replace_from old [] s skip) -> In c s.
Proof.
  revert skip. induction s as [|x s IH]; intros skip; cbn [replace_from].
  - intros [].
  - destruct skip as [|k].
    + destruct (startswith (x :: s) old).
      * cbn [app]. intros H. right. exact (IH _ H).
      * intros [H|H]; [now left|right; exact (IH _ H)].
    + intros H. right. exact (IH _ H).
Qed.

Lemma strip_fences_In (t : text) (c : char) :
  In c (strip_fences t) -> In c t.
Proof.
  unfold strip_fences, replace. change (str "") with (@nil char).
  intros H. apply replace_from_In in H. now apply replace_from_In in H.
Qed.

Lemma scan_suffix (U : unicode) (r : Re.regex) (s : text) (skip : nat)
      (m : Re.match_object) :
  In m (Re.scan (decimal U) (space U) r s skip) ->
  exists before s0,
    s = before ++ s0 /\ Re.match_at (decimal U) (space U) r s0 = Some m.
Proof.
  revert skip. induction s as [|c s IH]; intros skip.
  - destruct skip; cbn; [|contradiction].
    destruct (Re.match_at (decimal U) (space U) r []) eqn:M; [|contradiction].
    intros [<-|[]]. now exists [], [].
  - assert (T : forall k, In m (Re.scan (decimal U) (space U) r s k) ->
                exists before s0, c :: s = before ++ s0 /\
                  Re.match_at (decimal U) (space U) r s0 = Some m).
    { intros k H. apply IH in H as (before & s0 & -> & M).
      now exists (c :: before), s0. }
    destruct skip; cbn.
    + destruct (Re.match_at (decimal U) (space U) r (c :: s)) eqn:M.
      * intros [<-|H]; [now exists [], (c :: s)|]. now apply T in H.
      * apply T.
    + apply T.
Qed.

Lemma block_in_text (U : unicode) (t b : text) :
  In b (findall0 U block_re t) -> In 123%N t /\ In 125%N t.
Proof.
  unfold findall0, Re.findall0. rewrite in_map_iff.
  intros (m & <- & I). apply scan_suffix in I as (before & s0 & -> & M).
  pose proof (match_at_block U _ _ M) as (u & W & _).
  apply match_at_sound in M as (-> & _). rewrite W.
  split; apply in_or_app; right; apply in_or_app; left.
  - now left.
  - right. apply in_or_app. right. now left.
Qed.

Lemma extract_json_no_block (U : unicode) (t : text) :
  ~ In 123%N t \/ ~ In 125%N t -> extract_json U t = None.
Proof.
  intros N. unfold extract_json.
  destruct (findall0 U block_re (strip_fences t)) as [|b bs] eqn:F;
    [reflexivity|].
  exfalso.
  assert (I : In b (findall0 U block_re (strip_fences t)))
    by (rewrite F; now left).
  apply block_in_text in I as (I1 & I2).
  apply strip_fences_In in I1, I2. tauto.
Qed.

(** X11. A generated text that lacks an opening or a closing brace gives
    no object, and the entry point then returns the report built from the
    fallback extractor and the rule engine. *)
Theorem no_brace_falls_back
  (U : unicode) (user_input : text) (llm : text -> text) :
  ~ In 123%N (llm (build_prompt user_input))
  \/ ~ In 125%N (llm (build_prompt user_input)) ->
  extract_json U (llm (build_prompt user_input)) = None /\
  exists fs v,
    fallback_extract U user_input = Ok (fields_dict fs) /\
    apply_iec_rules (PDict (fields_dict fs))
    = Ok (v, overall_of v, confidence_of v) /\
    validate_cable_design U user_input llm = Ok (fallback_result fs v).
Proof.
  intros N. apply (extract_json_no_block U) in N. split; [exact N|].
  pose proof (validate_cases U user_input llm) as C.
  rewrite N in C. exact C.
Qed.

Lemma no_brace_on_prose :
  exists fs v,
    validate_cable_design ascii design_lv (fun _ => completion_prose)
    = Ok (fallback_result fs v).
Proof.
  assert (N : ~ In 123%N ((fun _ : text => completion_prose)
                            (build_prompt design_lv))
              \/ ~ In 125%N ((fun _ : text => completion_prose)
                               (build_prompt design_lv))).
  { left. vm_compute. intuition discriminate. }
  destruct (no_brace_falls_back ascii design_lv (fun _ => completion_prose) N)
    as (_ & fs & v & _ & _ & V).
  exists fs, v. exact V.
Defined.

(** X12. The oracle decides only whether a report is returned, never what
    it says: two runs on the same text that both return give the same
    report, whatever the two oracles answered. *)
Theorem report_independent_of_oracle
  (U : unicode) (user_input : text) (llm1 llm2 : text -> text)
  (r1 r2 : ValidationResult) :
  validate_cable_design U user_input llm1 = Ok r1 ->
  validate_cable_design U user_input llm2 = Ok r2 ->
  r1 = r2.
Proof.
  intros H1 H2.
  apply validate_ok in H1 as (fs1 & v1 & E1 & R1 & ->).
  apply validate_ok in H2 as (fs2 & v2 & E2 & R2 & ->).
  assert (E : fields_dict fs1 = fields_dict fs2) by congruence.
  unfold fallback_result. rewrite <- E in R2. rewrite R1 in R2.
  injection R2 as <-. now rewrite E.
Qed.

Lemma report_independent_on_lv :
  exists r,
    validate_cable_design ascii design_lv (oracle completion_prose) = Ok r /\
    validate_cable_design ascii design_lv (fun _ => []) = Ok r.
Proof.
  destruct (validate_cable_design ascii design_lv (oracle completion_prose))
    as [r1|e] eqn:E1; [|vm_compute in E1; discriminate].
  destruct (validate_cable_design ascii design_lv (fun _ => []))
    as [r2|e] eqn:E2; [|vm_compute in E2; discriminate].
  exists r1. split; [reflexivity|]. f_equal. symmetry.
  exact (report_independent_of_oracle ascii design_lv _ _ r1 r2 E1 E2).
Defined.

(** ** The prompt echoed in front of a completion *)

Section Echo.

Variable U : unicode.

Lemma lazy_after_brace (s : text) (caps : Re.captures) :
  Re.lazy (decimal U) (space U) (Re.Cls (Re.Bracket [Re.Space; Re.NotSpace]))
    s caps
    (fun s' c' =>
       Re.run (decimal U) (space U) (Re.Lit (str "}")) s' c'
         (fun s'' c'' => Some (s'', c'')))
  = match after_brace s with Some r => Some (r, caps) | None => None end.
Proof.
  change (str "}") with [125%N].
  induction s as [|c s IH]; cbn [Re.lazy Re.run Re.strip_prefix after_brace].
  - reflexivity.
  - destruct (125 =? c)%N; [reflexivity|].
    cbn [Re.accepts Re.in_class existsb].
    destruct (space U c); cbn [negb orb]; exact IH.
Qed.

Lemma match_at_block_at (s : text) :
  Re.match_at (decimal U) (space U) block_re s = block_at s.
Proof.
  unfold Re.match_at, block_re, block_at. cbn [seq Re.run].
  change (str "{") with [123%N].
  destruct s as [|c s]; cbn [Re.strip_prefix]; [reflexivity|].
  destruct (123 =? c)%N; [|reflexivity].
  rewrite lazy_after_brace. now destruct (after_brace s).
Qed.

End Echo.

Lemma scan_block_tables (U V : unicode) (s : text) (skip : nat) :
  Re.scan (decimal U) (space U) block_re s skip
  = Re.scan (decimal V) (space V) block_re s skip.
Proof.
  revert skip. induction s as [|c s IH]; intros [|k]; cbn [Re.scan];
    rewrite ?match_at_block_at; try reflexivity.
  - destruct (block_at (c :: s)); [f_equal|]; apply IH.
  - apply IH.
Qed.

Lemma after_brace_none (b : text) : ~ In 125%N b -> after_brace b = None.
Proof.
  induction b as [|c b IH]; [reflexivity|]. intros N. cbn [after_brace].
  destruct (N.eqb_spec 125 c) as [<-|_]; [destruct N; now left|].
  apply IH. intros I. apply N. now right.
Qed.

Lemma after_brace_split (s r : text) :
  after_brace s = Some r -> exists u, s = u ++ 125%N :: r.
Proof.
  induction s as [|c s IH]; cbn [after_brace]; [discriminate|].
  destruct (N.eqb_spec 125 c) as [<-|_].
  - intros [= ->]. now exists [].
  - intros H. destruct (IH H) as (u & ->). now exists (c :: u).
Qed.

Lemma after_brace_app (s b : text) :
  ~ In 125%N b ->
  after_brace (s ++ b)
  = match after_brace s with Some r => Some (r ++ b) | None => None end.
Proof.
  intros N. induction s as [|c s IH]; cbn [app after_brace].
  - now apply after_brace_none.
  - destruct (125 =? c)%N; [reflexivity|exact IH].
Qed.

Lemma block_at_app (s b : text) :
  ~ In 125%N b ->
  option_map Re.whole (block_at (s ++ b)) = option_map Re.whole (block_at s).
Proof.
  intros N. destruct s as [|c s]; cbn [app].
  - destruct b as [|c b]; [reflexivity|]. cbn [block_at].
    destruct (123 =? c)%N; [|reflexivity].
    rewrite after_brace_none; [reflexivity|]. intros I. apply N. now right.
  - cbn [block_at]. destruct (123 =? c)%N; [|reflexivity].
    rewrite (after_brace_app s b N).
    destruct (after_brace s) as [r|] eqn:A; [|reflexivity].
    apply after_brace_split in A as (u & ->). cbn [option_map Re.whole].
    f_equal.
    change (c :: (u ++ 125%N :: r) ++ b) with ((c :: u ++ 125%N :: r) ++ b).
    replace ((c :: u ++ 125%N :: r) ++ b)
      with ((c :: u ++ [125%N]) ++ (r ++ b))
      by (cbn [app]; rewrite <- !app_assoc; reflexivity).
    replace (c :: u ++ 125%N :: r) with ((c :: u ++ [125%N]) ++ r)
      by (cbn [app]; rewrite <- !app_assoc; reflexivity).
    now rewrite !consumed_app.
Qed.

Lemma scan_no_closing (U : unicode) (b : text) (skip : nat) :
  ~ In 125%N b -> Re.scan (decimal U) (space U) block_re b skip = [].
Proof.
  revert skip. induction b as [|c b IH]; intros skip N.
  - destruct skip; cbn [Re.scan]; rewrite ?match_at_block_at; reflexivity.
  - assert (N' : ~ In 125%N b) by (intros I; apply N; now right).
    destruct skip; cbn [Re.scan]; [|now apply IH].
    rewrite match_at_block_at. cbn [block_at].
    rewrite (after_brace_none b N').
    destruct (123 =? c)%N; now apply IH.
Qed.

Lemma findall0_block_app (U : unicode) (a b : text) :
  ~ In 125%N b ->
  findall0 U block_re (a ++ b) = findall0 U block_re a.
Proof.
  intros N. unfold findall0, Re.findall0. generalize 0%nat.
  induction a as [|c a IH]; intros skip.
  - cbn [app]. rewrite (scan_no_closing U b skip N).
    destruct skip; cbn [Re.scan]; rewrite ?match_at_block_at; reflexivity.
  - destruct skip; cbn [app Re.scan]; [|apply IH].
    rewrite !match_at_block_at.
    pose proof (block_at_app (c :: a) b N) as B. cbn [app] in B.
    destruct (block_at (c :: a ++ b)) as [m'|], (block_at (c :: a)) as [m|];
      cbn [option_map] in B; try discriminate B.
    + injection B as B. cbn [map]. rewrite B. f_equal. apply IH.
    + apply IH.
Qed.

Lemma replace_from_prefix (o : char) (old new a b : text) :
  ~ In o a ->
  replace_from (o :: old) new (a ++ b) 0
  = a ++ replace_from (o :: old) new b 0.
Proof.
  induction a as [|c a IH]; intros N; [reflexivity|].
  cbn [app replace_from startswith].
  destruct (N.eqb_spec o c) as [->|_]; [destruct N; now left|].
  cbn [andb]. f_equal. apply IH. intros I. apply N. now right.
Qed.

Lemma strip_fences_prefix (a b : text) :
  ~ In 96%N a -> strip_fences (a ++ b) = a ++ strip_fences b.
Proof.
  intros N. unfold strip_fences, replace.
  change (str "```json") with (96%N :: str "``json").
  change (str "```") with (96%N :: str "``").
  now rewrite !replace_from_prefix.
Qed.

(** The template of the prompt holds no fence, and none of its blocks
    decodes to an object with one of the two keys. *)
Lemma prompt_head_no_fence : ~ In 96%N (unlines prompt_head).
Proof.
  assert (H : forallb (fun c => negb (96 =? c)%N) (unlines prompt_head) = true)
    by (vm_compute; reflexivity).
  rewrite forallb_forall in H. intros I. apply H in I.
  now rewrite N.eqb_refl in I.
Qed.

Lemma prompt_tail_no_closing : ~ In 125%N (unlines prompt_tail).
Proof.
  assert (H : forallb (fun c => negb (125 =? c)%N) (unlines prompt_tail) = true)
    by (vm_compute; reflexivity).
  rewrite forallb_forall in H. intros I. apply H in I.
  now rewrite N.eqb_refl in I.
Qed.

Lemma prompt_head_blocks (U : unicode) :
  try_blocks (rev (findall0 U block_re (unlines prompt_head))) = None.
Proof.
  unfold findall0, Re.findall0. rewrite (scan_block_tables U ascii).
  vm_compute. reflexivity.
Qed.

Lemma extract_json_echo (U : unicode) (user_input completion : text) :
  ~ In 125%N user_input -> ~ In 125%N completion ->
  extract_json U (oracle completion (build_prompt user_input)) = None.
Proof.
  intros N1 N2. unfold extract_json, oracle, build_prompt.
  rewrite <- !app_assoc.
  rewrite (strip_fences_prefix _ _ prompt_head_no_fence).
  rewrite findall0_block_app; [apply prompt_head_blocks|].
  intros I. apply strip_fences_In in I.
  apply in_app_or in I as [I|I]; [now apply N1|].
  apply in_app_or in I as [I|I]; [now apply prompt_tail_no_closing|].
  now apply N2.
Qed.

(** X13. With an oracle that returns the prompt followed by its completion,
    as a text-generation pipeline does, the template of the prompt is never
    taken for an answer: when neither the user's text nor the completion
    holds a closing brace, the parser finds no object and the entry point
    returns the fallback report. *)
Theorem echoed_prompt_falls_back
  (U : unicode) (user_input completion : text) :
  ~ In 125%N user_input -> ~ In 125%N completion ->
  extract_json U (oracle completion (build_prompt user_input)) = None /\
  exists fs v,
    fallback_extract U user_input = Ok (fields_dict fs) /\
    apply_iec_rules (PDict (fields_dict fs))
    = Ok (v, overall_of v, confidence_of v) /\
    validate_cable_design U user_input (oracle completion)
    = Ok (fallback_result fs v).
Proof.
  intros N1 N2. pose proof (extract_json_echo U _ _ N1 N2) as E.
  split; [exact E|].
  pose proof (validate_cases U user_input (oracle completion)) as C.
  rewrite E in C. exact C.
Qed.

Lemma echoed_prompt_on_prose :
  exists fs v,
    validate_cable_design ascii design_lv (oracle completion_prose)
    = Ok (fallback_result fs v).
Proof.
  assert (N1 : ~ In 125%N design_lv) by (vm_compute; intuition discriminate).
  assert (N2 : ~ In 125%N completion_prose)
    by (vm_compute; intuition discriminate).
  destruct (echoed_prompt_falls_back ascii design_lv completion_prose N1 N2)
    as (_ & fs & v & _ & _ & V).
  exists fs, v. exact V.
Defined.

(** ** The page *)

Lemma shape_conf_class r1 r2 r3 r4 r5 r6 r7 :
  let w := of_tags (shape r1 r2 r3 r4 r5 r6 r7) in
  let c := confidence_of w in
  conf_class (PFloat (PyFloat.min 0.5 c))
  = Ok (if PrimFloat.leb 0.5 c then str "confidence-medium"
        else str "confidence-low")
  /\ implb (text_eqb (overall_of w) PASS) (PrimFloat.leb 0.5 c) = true.
Proof.
  destruct r1, r2, r3, r4, r5, r6, r7; vm_compute; split; reflexivity.
Qed.

(** X14. The style class of the overall confidence of a returned report is
    never "confidence-high": it is "confidence-medium" when the rule
    confidence is at least 0.5, which holds under PASS, and
    "confidence-low" otherwise; computing it never raises. *)
Theorem conf_class_never_high
  (U : unicode) (user_input : text) (llm : text -> text) (r : ValidationResult) :
  validate_cable_design U user_input llm = Ok r ->
  conf_class (overall (confidence r))
  = Ok (if PrimFloat.leb 0.5 (rule_confidence (confidence r))
        then str "confidence-medium" else str "confidence-low") /\
  conf_class (overall (confidence r)) <> Ok (str "confidence-high") /\
  (overall_status r = PASS ->
   conf_class (overall (confidence r)) = Ok (str "confidence-medium")).
Proof.
  intros H. apply validate_ok in H as (fs & v & _ & R & ->).
  cbn [fallback_result confidence overall rule_confidence overall_status].
  pose proof (apply_iec_rules_inv _ _ _ _ R)
    as (_ & _ & r1 & r2 & r3 & r4 & r5 & r6 & r7 & T & _).
  rewrite <- (tags_of_tags (shape r1 r2 r3 r4 r5 r6 r7)) in T.
  rewrite (confidence_of_tags _ _ T), (overall_of_tags _ _ T).
  pose proof (shape_conf_class r1 r2 r3 r4 r5 r6 r7) as [C P].
  cbv zeta in C, P. rewrite C. split; [reflexivity|]. split.
  - destruct (PrimFloat.leb 0.5 _); intros [= E]; vm_compute in E;
      discriminate E.
  - intros O. apply text_eqb_eq in O. rewrite O in P. cbn [implb] in P.
    now rewrite P.
Qed.

Lemma conf_class_on_prose :
  exists r,
    validate_cable_design ascii design_lv (oracle completion_prose) = Ok r /\
    conf_class (overall (confidence r)) = Ok (str "confidence-medium").
Proof.
  destruct (validate_cable_design ascii design_lv (oracle completion_prose))
    as [r|e] eqn:E; [|vm_compute in E; discriminate].
  exists r. split; [reflexivity|].
  destruct (conf_class_never_high ascii design_lv (oracle completion_prose) r E)
    as (_ & _ & P).
  apply P. vm_compute in E. injection E as <-. reflexivity.
Defined.

Lemma status_badge_values (s : text) :
  s = FAIL \/ s = WARN ->
  status_badge s = str "❌ FAIL" \/ status_badge s = str "⚠️ WARN".
Proof. intros [->| ->]; [left|right]; vm_compute; reflexivity. Qed.

(** X15. On the page of a returned report the table of findings is shown
    exactly when the banner is not the success one; the banner is the error
    one exactly when a finding is FAIL; and every badge of the table is the
    WARN or the FAIL one, so the PASS badge and a bare status never
    appear. *)
Theorem page_banner_and_table
  (U : unicode) (user_input : text) (llm : text -> text) (r : ValidationResult) :
  validate_cable_design U user_input llm = Ok r ->
  exists v,
    validation r = RuleValidation v /\
    (shows_findings (validation r) = true
     <-> status_banner (overall_status r) <> StSuccess) /\
    (status_banner (overall_status r) = StError
     <-> exists f, In f v /\ status f = FAIL) /\
    Forall (fun b => b = str "❌ FAIL" \/ b = str "⚠️ WARN") (badge_column v).
Proof.
  intros H. apply validate_ok in H as (fs & v & _ & R & ->).
  exists v. cbn [fallback_result validation overall_status shows_findings].
  split; [reflexivity|].
  pose proof (apply_iec_rules_inv _ _ _ _ R)
    as (_ & _ & r1 & r2 & r3 & r4 & r5 & r6 & r7 & T & _).
  assert (S : forall f, In f v -> status f = FAIL \/ status f = WARN).
  { intros f Hf. apply In_tags in Hf. rewrite T in Hf.
    now apply In_shape in Hf. }
  clear R T. split; [|split].
  - unfold status_banner, overall_of.
    destruct v as [|f v]; [cbn; split; [discriminate|intros N; now destruct N]|].
    split; [intros _|reflexivity].
    assert (X : existsb (has_status FAIL) (f :: v) = true
                \/ existsb (has_status WARN) (f :: v) = true).
    { destruct (S f (or_introl eq_refl)) as [E|E]; [left|right];
        apply has_status_exists; exists f; (split; [now left|exact E]). }
    destruct X as [X|X]; rewrite X;
      [|destruct (existsb (has_status FAIL) (f :: v))];
      intros D; vm_compute in D; discriminate D.
  - rewrite <- has_status_exists. unfold status_banner, overall_of.
    destruct (existsb (has_status FAIL) v).
    + split; [reflexivity|]. intros _. vm_compute. reflexivity.
    + destruct (existsb (has_status WARN) v); split; try discriminate;
        intros D; vm_compute in D; discriminate D.
  - unfold badge_column. apply Forall_forall. intros b I.
    apply in_map_iff in I as (f & <- & I).
    apply status_badge_values, S, I.
Qed.

Lemma page_banner_on_prose :
  exists r,
    validate_cable_design ascii design_lv (oracle completion_prose) = Ok r /\
    shows_findings (validation r) = false.
Proof.
  destruct (validate_cable_design ascii design_lv (oracle completion_prose))
    as [r|e] eqn:E; [|vm_compute in E; discriminate].
  exists r. split; [reflexivity|].
  destruct (page_banner_and_table ascii design_lv (oracle completion_prose) r E)
    as (v & _ & T & _).
  destruct (shows_findings (validation r)) eqn:S; [|reflexivity].
  exfalso. apply (proj1 T eq_refl).
  vm_compute in E. injection E as <-. reflexivity.
Defined.

(** ** The fusion step *)


(** *** Order of binary64 numbers *)











(** *** The steps *)











(** ** The response parser, against the words of the specification *)

Lemma replace_from_skip (old new a s : text) :
  replace_from old new (a ++ s) (List.length a) = replace_from old new s 0.
Proof.
  induction a as [|x a IH]; [reflexivity|]. cbn [app List.length replace_from].
  exact IH.
Qed.

(** [str.replace] with an empty replacement removes the occurrences. *)
Lemma Removed_replace_from (o : char) (old : text) (n : nat) :
  forall s, (List.length s <= n)%nat ->
            Removed (o :: old) s (replace_from (o :: old) [] s 0).
Proof.
  induction n as [|n IH]; intros s L.
  - destruct s; [constructor|]. cbn in L. exfalso. exact (Nat.nle_succ_0 _ L).
  - destruct s as [|c s]; [constructor|].
    cbn [replace_from]. destruct (startswith (c :: s) (o :: old)) eqn:S.
    + apply startswith_spec in S as (rest & E). rewrite E.
      cbn [app] in E. injection E as -> ->.
      cbn [app].
      replace (List.length (o :: old) - 1)%nat with (List.length old)
        by (cbn [List.length]; rewrite Nat.sub_succ; symmetry;
            apply Nat.sub_0_r).
      rewrite replace_from_skip.
      apply (Removed_here (o :: old)). apply IH.
      cbn [List.length] in L. apply le_S_n in L.
      rewrite length_app in L.
      eapply Nat.le_trans; [|exact L]. apply Nat.le_add_l.
    + apply Removed_keep.
      * intros rest E.
        assert (S' : startswith (c :: s) (o :: old) = true)
          by (apply startswith_spec; now exists rest).
        congruence.
      * apply IH. cbn [List.length] in L. now apply le_S_n.
Qed.

Lemma Removed_replace (o : char) (old s : text) :
  Removed (o :: old) s (replace s (o :: old) []).
Proof. apply (Removed_replace_from o old (List.length s)). auto. Qed.

Lemma Removed_functional (o : char) (old s r1 r2 : text) :
  Removed (o :: old) s r1 -> Removed (o :: old) s r2 -> r1 = r2.
Proof.
  intros H. revert r2.
  induction H as [|s r H IH|c s r N H IH]; intros r2 K.
  - inversion K; reflexivity.
  - inversion K as [E|s' r' K' E|c' s' r' N' K' E].
    + apply app_inv_head in E. subst s'. now apply IH.
    + exfalso. apply (N' s). cbn [app]. now rewrite <- E.
  - inversion K as [|s' r' K' E|c' s' r' N' K' E].
    + exfalso. apply (N s'). subst. reflexivity.
    + f_equal. now apply IH.
Qed.

Lemma strip_fences_Removed (t : text) :
  exists t1,
    Removed (str "```json") t t1 /\
    Removed (str "```") t1 (strip_fences t).
Proof.
  exists (replace t (str "```json") []). unfold strip_fences.
  change (str "") with (@nil char).
  change (str "```json") with (96%N :: str "``json").
  change (str "```") with (96%N :: str "``").
  split; apply Removed_replace.
Qed.

Lemma blocks_from_open (u b r : text) :
  ~ In 125%N u ->
  blocks_from (u ++ 125%N :: r) (Some b)
  = (b ++ u ++ [125%N]) :: blocks_from r None.
Proof.
  revert b. induction u as [|c u IH]; intros b N.
  - reflexivity.
  - cbn [app blocks_from].
    destruct (N.eqb_spec c 125) as [->|_]; [destruct N; now left|].
    rewrite IH by (intros I; apply N; now right).
    rewrite <- app_assoc. reflexivity.
Qed.

Lemma blocks_from_unclosed (s b : text) :
  ~ In 125%N s -> blocks_from s (Some b) = [].
Proof.
  revert b. induction s as [|c s IH]; intros b N; [reflexivity|].
  cbn [blocks_from].
  destruct (N.eqb_spec c 125) as [->|_]; [destruct N; now left|].
  apply IH. intros I. apply N. now right.
Qed.

Lemma after_brace_first (s r : text) :
  after_brace s = Some r ->
  exists u, s = u ++ 125%N :: r /\ ~ In 125%N u.
Proof.
  revert r. induction s as [|c s IH]; intros r; cbn [after_brace];
    [discriminate|].
  destruct (N.eqb_spec 125 c) as [<-|D].
  - intros [= ->]. exists []. split; [reflexivity|intros []].
  - intros H. destruct (IH _ H) as (u & -> & N). exists (c :: u).
    split; [reflexivity|]. intros [E|I]; [now apply D|now apply N].
Qed.

Lemma after_brace_absent (s : text) :
  after_brace s = None -> ~ In 125%N s.
Proof.
  induction s as [|c s IH]; cbn [after_brace]; [intros _ []|].
  destruct (N.eqb_spec 125 c) as [<-|D]; [discriminate|].
  intros H [E|I]; [now apply D|now apply IH].
Qed.

Lemma scan_skip (U : unicode) (r : Re.regex) (a s : text) :
  Re.scan (decimal U) (space U) r (a ++ s) (List.length a)
  = Re.scan (decimal U) (space U) r s 0.
Proof.
  induction a as [|x a IH]; [reflexivity|].
  cbn [app List.length Re.scan]. exact IH.
Qed.

(** [re.findall] with the block pattern returns the blocks. *)
Lemma findall0_blocks_bounded (U : unicode) (n : nat) :
  forall s, (List.length s <= n)%nat -> findall0 U block_re s = blocks s.
Proof.
  unfold findall0, Re.findall0, blocks.
  induction n as [|n IH]; intros s L.
  - destruct s; [|cbn in L; exfalso; exact (Nat.nle_succ_0 _ L)].
    cbn [Re.scan]. rewrite match_at_block_at. reflexivity.
  - destruct s as [|c s].
    { cbn [Re.scan]. rewrite match_at_block_at. reflexivity. }
    cbn [List.length] in L. apply le_S_n in L.
    cbn [Re.scan blocks_from]. rewrite match_at_block_at. cbn [block_at].
    rewrite (N.eqb_sym c 123).
    destruct (123 =? c)%N eqn:E; [|now apply IH].
    apply N.eqb_eq in E. subst c.
    destruct (after_brace s) as [r|] eqn:A.
    + apply after_brace_first in A as (u & -> & N).
      pose proof (blocks_from_open u [123%N] r N) as BO.
      unfold text, char in *. rewrite BO. clear BO.
      replace (Re.consumed (123%N :: u ++ 125%N :: r) r)
        with (123%N :: u ++ [125%N]).
      2:{ replace (123%N :: u ++ 125%N :: r)
            with ((123%N :: u ++ [125%N]) ++ r)
            by (cbn [app]; rewrite <- app_assoc; reflexivity).
          now rewrite consumed_app. }
      cbn [map Re.whole].
      replace (List.length (123%N :: u ++ [125%N]) - 1)%nat
        with (List.length (u ++ [125%N]))
        by (cbn [List.length]; rewrite Nat.sub_succ; symmetry;
            apply Nat.sub_0_r).
      replace (u ++ 125%N :: r) with ((u ++ [125%N]) ++ r)
        by (rewrite <- app_assoc; reflexivity).
      rewrite scan_skip. f_equal. apply IH.
      rewrite length_app in L. cbn [List.length] in L. clear - L. lia.
    + apply after_brace_absent in A.
      rewrite (scan_no_closing U s 0 A), (blocks_from_unclosed s _ A).
      reflexivity.
Qed.

Lemma findall0_blocks (U : unicode) (s : text) :
  findall0 U block_re s = blocks s.
Proof. apply (findall0_blocks_bounded U (List.length s)). auto. Qed.

(** C5. For every text the response parser returns the last of the
    brace-delimited blocks of the text without its fences that decodes to
    an object with a "fields" or a "validation" key, and none when no
    block qualifies. The text without its fences is the text from which
    the occurrences of the json fence, then those of the bare fence, were
    removed; a block runs from an opening brace to the next closing one.
    In particular, of two blocks of which the second decodes to an object
    with a "fields" key, the second's content is returned and the first is
    ignored. *)
Theorem extract_json_last_qualifying (U : unicode) (t : text) :
  exists t1 t2,
    Removed (str "```json") t t1 /\
    Removed (str "```") t1 t2 /\
    extract_json U t = first_qualifying (rev (blocks t2)) /\
    (forall b, In b (blocks t2) ->
       exists u, b = str "{" ++ u ++ str "}" /\ ~ In 125%N u) /\
    (forall b1 b2 d,
       blocks t2 = [b1; b2] ->
       Json.loads b2 = Some (PDict d) ->
       dict_in (str "fields") d = true ->
       extract_json U t = Some (PDict d)).
Proof.
  destruct (strip_fences_Removed t) as (t1 & R1 & R2).
  exists t1, (strip_fences t). split; [exact R1|]. split; [exact R2|].
  assert (B : forall b, In b (blocks (strip_fences t)) ->
                exists u, b = str "{" ++ u ++ str "}" /\ ~ In 125%N u).
  { intros b I. rewrite <- (findall0_blocks U) in I.
    apply findall0_block in I as (u & -> & Z).
    exists u. split; [reflexivity|].
    intros I. unfold braces in Z.
    assert (I' : In 125%N (filter (N.eqb 125) u))
      by (apply filter_In; split; [exact I|apply N.eqb_refl]).
    destruct (filter (N.eqb 125) u); [exact I'|discriminate]. }
  assert (E : extract_json U t
              = first_qualifying (rev (blocks (strip_fences t)))).
  { unfold extract_json. rewrite findall0_blocks.
    apply try_blocks_first_qualifying.
    intros b I. apply in_rev, B in I as (u & -> & _).
    exists (u ++ str "}"). reflexivity. }
  split; [exact E|]. split; [exact B|].
  intros b1 b2 d C L F. rewrite E, C. cbn [rev app first_qualifying].
  unfold qualifies at 1. now rewrite L, F.
Qed.

Lemma extract_json_fenced :
  Removed (str "```json") completion_fenced
    (str "Draft:  {fields, validation} ``` Answer:  {"
     ++ quoted "fields" ++ str ": null, " ++ quoted "reasoning" ++ str ": "
     ++ quoted "ok" ++ str "} ```") /\
  Removed (str "```")
    (str "Draft:  {fields, validation} ``` Answer:  {"
     ++ quoted "fields" ++ str ": null, " ++ quoted "reasoning" ++ str ": "
     ++ quoted "ok" ++ str "} ```")
    (str "Draft:  {fields, validation}  Answer:  {"
     ++ quoted "fields" ++ str ": null, " ++ quoted "reasoning" ++ str ": "
     ++ quoted "ok" ++ str "} ") /\
  blocks (str "Draft:  {fields, validation}  Answer:  {"
          ++ quoted "fields" ++ str ": null, " ++ quoted "reasoning"
          ++ str ": " ++ quoted "ok" ++ str "} ")
  = [ str "{fields, validation}";
      str "{" ++ quoted "fields" ++ str ": null, " ++ quoted "reasoning"
      ++ str ": " ++ quoted "ok" ++ str "}" ] /\
  Json.loads (str "{fields, validation}") = None /\
  extract_json ascii completion_fenced
  = Some (PDict [(str "fields", PNone); (str "reasoning", PStr (str "ok"))]).
Proof.
  destruct (extract_json_last_qualifying ascii completion_fenced)
    as (t1 & t2 & R1 & R2 & _ & _ & P).
  assert (R1' : Removed (str "```json") completion_fenced
                  (replace completion_fenced (str "```json") []))
    by (change (str "```json") with (96%N :: str "``json");
        apply Removed_replace).
  assert (E1 : t1 = replace completion_fenced (str "```json") []).
  { change (str "```json") with (96%N :: str "``json") in R1, R1' |- *.
    exact (Removed_functional _ _ _ _ _ R1 R1'). }
  subst t1.
  assert (R2' : Removed (str "```")
                  (replace completion_fenced (str "```json") [])
                  (strip_fences completion_fenced))
    by (unfold strip_fences; change (str "") with (@nil char);
        change (str "```") with (96%N :: str "``");
        apply Removed_replace).
  assert (E2 : t2 = strip_fences completion_fenced).
  { change (str "```") with (96%N :: str "``") in R2, R2'.
    exact (Removed_functional _ _ _ _ _ R2 R2'). }
  subst t2.
  split; [exact R1'|]. split; [exact R2'|].
  split; [vm_compute; reflexivity|]. split; [vm_compute; reflexivity|].
  apply (P (str "{fields, validation}")
           (str "{" ++ quoted "fields" ++ str ": null, " ++ quoted "reasoning"
            ++ str ": " ++ quoted "ok" ++ str "}")
           [(str "fields", PNone); (str "reasoning", PStr (str "ok"))]);
    vm_compute; reflexivity.
Defined.

(** ** The leftmost dual rating *)

Lemma no_match_inside_spec (U : unicode) (r : Re.regex) (before rest : text) :
  no_match_inside U r before rest = true -> none_before U r before rest.
Proof.
  unfold none_before. induction before as [|c before IH];
    cbn [no_match_inside].
  - intros _ b1 b2 E N. destruct b1; [|discriminate E].
    cbn [app] in E. now destruct N.
  - destruct (Re.match_at (decimal U) (space U) r ((c :: before) ++ rest))
      as [m|] eqn:M; [discriminate|].
    intros H [|x b1] b2 E N (w & s & caps & W & K).
    + cbn [app] in E. subst b2.
      apply (match_at_complete (decimal U) (space U) r w s caps K).
      now rewrite <- W.
    + cbn [app] in E. injection E as _ E.
      apply (IH H b1 b2 E N). now exists w, s, caps.
Qed.

Lemma search_first (U : unicode) (r : Re.regex) (before rest : text)
      (m : Re.match_object) :
  none_before U r before rest ->
  Re.match_at (decimal U) (space U) r rest = Some m ->
  search U r (before ++ rest) = Some m.
Proof.
  unfold search. intros N M. induction before as [|c before IH].
  - cbn [app]. destruct rest; cbn [Re.search]; now rewrite M.
  - cbn [app Re.search].
    destruct (Re.match_at (decimal U) (space U) r (c :: before ++ rest))
      as [m'|] eqn:M'.
    + exfalso. apply match_at_sound in M' as (W & K).
      apply (N [] (c :: before) eq_refl); [discriminate|].
      now exists (Re.whole m'), (Re.after m'), (Re.groups m').
    + apply IH. intros b1 b2 E D. apply (N (c :: b1) b2); [|exact D].
      now rewrite E.
Qed.

Lemma match_at_rating (U : unicode) (after : text) :
  ascii_range U ->
  Re.match_at (decimal U) (space U) voltage_dual_re
    (str "3.6/6 kv" ++ after)
  = Some (Re.MatchObject (str "3.6/6 kv")
            [(2%nat, str "6"); (1%nat, str "3.6")] after).
Proof.
  intros A.
  assert (D51 : decimal U 51%N = Some 3%N)
    by (now rewrite (proj1 (A 51%N eq_refl))).
  assert (D46 : decimal U 46%N = None)
    by (now rewrite (proj1 (A 46%N eq_refl))).
  assert (D54 : decimal U 54%N = Some 6%N)
    by (now rewrite (proj1 (A 54%N eq_refl))).
  assert (D47 : decimal U 47%N = None)
    by (now rewrite (proj1 (A 47%N eq_refl))).
  assert (D32 : decimal U 32%N = None)
    by (now rewrite (proj1 (A 32%N eq_refl))).
  assert (S47 : space U 47%N = false)
    by (now rewrite (proj2 (A 47%N eq_refl))).
  assert (S54 : space U 54%N = false)
    by (now rewrite (proj2 (A 54%N eq_refl))).
  assert (S32 : space U 32%N = true)
    by (now rewrite (proj2 (A 32%N eq_refl))).
  assert (S107 : space U 107%N = false)
    by (now rewrite (proj2 (A 107%N eq_refl))).
  unfold Re.match_at.
  let t := eval vm_compute in (str "3.6/6 kv") in
    change (str "3.6/6 kv") with t.
  let t := eval vm_compute in (str "3.6") in change (str "3.6") with t.
  let t := eval vm_compute in (str "6") in change (str "6") with t.
  unfold voltage_dual_re, number, ws.
  let t := eval vm_compute in (str "/") in change (str "/") with t.
  let t := eval vm_compute in (str "kv") in change (str "kv") with t.
  cbn -[Re.consumed].
  repeat (rewrite ?D51, ?D46, ?D54, ?D47, ?D32, ?S47, ?S54, ?S32, ?S107;
          cbn -[Re.consumed]).
  change (Re.consumed
            (51%N :: 46%N :: 54%N :: 47%N :: 54%N :: 32%N :: 107%N
             :: 118%N :: after) after)
    with (Re.consumed
            ([51%N; 46%N; 54%N; 47%N; 54%N; 32%N; 107%N; 118%N] ++ after)
            after).
  change (Re.consumed (54%N :: 32%N :: 107%N :: 118%N :: after)
            (32%N :: 107%N :: 118%N :: after))
    with (Re.consumed ([54%N] ++ 32%N :: 107%N :: 118%N :: after)
            (32%N :: 107%N :: 118%N :: after)).
  change (Re.consumed
            (51%N :: 46%N :: 54%N :: 47%N :: 54%N :: 32%N :: 107%N
             :: 118%N :: after)
            (47%N :: 54%N :: 32%N :: 107%N :: 118%N :: after))
    with (Re.consumed
            ([51%N; 46%N; 54%N]
             ++ 47%N :: 54%N :: 32%N :: 107%N :: 118%N :: after)
            (47%N :: 54%N :: 32%N :: 107%N :: 118%N :: after)).
  rewrite !consumed_app. reflexivity.
Qed.

Lemma float_of_six (U : unicode) :
  ascii_range U -> float_of_str U (str "6") = Ok 6%float.
Proof.
  intros A.
  assert (D54 : decimal U 54%N = Some 6%N)
    by (now rewrite (proj1 (A 54%N eq_refl))).
  unfold float_of_str. change (str "6") with [54%N].
  cbn [udigits]. rewrite D54. vm_compute. reflexivity.
Qed.

Lemma ascii_in_range : ascii_range ascii.
Proof. intros c _. split; reflexivity. Qed.

Lemma extract_voltage_dual (U : unicode) (t : text) (fs : FieldSet)
      (m : Re.match_object) (Y : text) (y : float) :
  search U voltage_dual_re t = Some m ->
  Re.group m 2 = Some Y -> float_of_str U Y = Ok y ->
  extract_voltage U t (fields_dict fs)
  = Ok (fields_dict (set_voltage (Some y) fs)).
Proof.
  intros S G F. destruct (dict_set_fields fs) as (_ & E & _).
  unfold extract_voltage. rewrite S, G. cbn [py_float]. rewrite F.
  cbn [bind]. now rewrite E.
Qed.

Lemma fallback_extract_dual (U : unicode) (m : Re.match_object)
      (Y : text) (y : float) (text : text) :
  search U voltage_dual_re (lower U text) = Some m ->
  Re.group m 2 = Some Y -> float_of_str U Y = Ok y ->
  exists fs,
    fallback_extract U text = Ok (fields_dict fs) /\
    standard fs = standard_of (lower U text) /\
    voltage_kv fs = Some y.
Proof.
  intros S G F. unfold fallback_extract. set (t := lower U text) in *.
  change empty_fields with (fields_dict all_null).
  rewrite extract_standard_of.
  rewrite (extract_voltage_dual U t _ m Y y S G F). cbn [bind].
  destruct (extract_csa_rule U t
              (set_voltage (Some y) (set_standard (standard_of t) all_null)))
    as (o3 & -> & _). cbn [bind].
  destruct (extract_thickness_keyword U t
              (set_csa o3
                 (set_voltage (Some y)
                    (set_standard (standard_of t) all_null))))
    as (o4 & -> & _). cbn [bind].
  rewrite extract_material_of.
  destruct (extract_class_rule U t
              (set_material (material_of t)
                 (set_thickness o4
                    (set_csa o3
                       (set_voltage (Some y)
                          (set_standard (standard_of t) all_null))))))
    as (o6 & -> & _).
  rewrite extract_insulation_of.
  eexists. split; [reflexivity|].
  destruct (standard_of t), o3, o4, (material_of t), o6, (insulation_of t);
    cbn; split; reflexivity.
Qed.

Lemma voltage_above_fails (fs : FieldSet) (x : float) :
  voltage_kv fs = Some x -> PrimFloat.ltb 1 x = true ->
  exists v c,
    apply_iec_rules (PDict (fields_dict fs)) = Ok (v, FAIL, c) /\
    In (str "voltage_kv", FAIL) (tags v).
Proof.
  intros V L. destruct (apply_iec_rules_fields fs) as (v & R & T).
  assert (I : In (str "voltage_kv", FAIL) (tags v)).
  { rewrite T. unfold verdict2. rewrite V, L. unfold shape.
    apply in_or_app. right. apply in_or_app. left. now left. }
  exists v, (confidence_of v). split; [|exact I].
  apply In_tags_status in I.
  now rewrite (proj1 (overall_of_precedence v) I) in R.
Qed.

(** C7. On every text the extractor returns a field set whose voltage
    follows the rule: when a dual rating [X/Y kv] occurs, the leftmost one
    is taken and the voltage is the value of its second number [Y];
    otherwise, when a plain [X kv] occurs, the voltage is the value of [X];
    otherwise the voltage is null. In particular a text whose leftmost
    dual rating is "3.6/6 kV", with the standard named, yields the standard,
    the voltage 6.0, a FAIL finding on the voltage and the overall status
    FAIL, whatever the Unicode tables beyond the ASCII range. *)
Theorem voltage_leftmost_dual_rating :
  (forall (U : unicode) (text : text),
     exists fs,
       fallback_extract U text = Ok (fields_dict fs) /\
       (occurs U voltage_dual_re (lower U text) ->
        exists m X s1 s2 Y s3 y,
          search U voltage_dual_re (lower U text) = Some m /\
          Re.whole m = X ++ s1 ++ str "/" ++ s2 ++ Y ++ s3 ++ str "kv" /\
          numeral U X /\ blanks U s1 /\ blanks U s2 /\ numeral U Y /\
          blanks U s3 /\
          float_of_str U Y = Ok y /\ voltage_kv fs = Some y) /\
       (~ occurs U voltage_dual_re (lower U text) ->
        occurs U voltage_re (lower U text) ->
        exists m X s1 x,
          search U voltage_re (lower U text) = Some m /\
          Re.whole m = X ++ s1 ++ str "kv" /\
          numeral U X /\ blanks U s1 /\
          float_of_str U X = Ok x /\ voltage_kv fs = Some x) /\
       (~ occurs U voltage_dual_re (lower U text) ->
        ~ occurs U voltage_re (lower U text) ->
        voltage_kv fs = None)) /\
  (forall (U : unicode) (text before after : text),
     ascii_range U ->
     lower U text = before ++ str "3.6/6 kv" ++ after ->
     none_before U voltage_dual_re before (str "3.6/6 kv" ++ after) ->
     names_designator (lower U text) ->
     exists fs v c,
       fallback_extract U text = Ok (fields_dict fs) /\
       standard fs = Some (str "IEC 60502-1") /\
       voltage_kv fs = Some 6%float /\
       apply_iec_rules (PDict (fields_dict fs)) = Ok (v, FAIL, c) /\
       In (str "voltage_kv", FAIL) (tags v)).
Proof.
  split.
  - intros U text.
    destruct (fallback_extract_total U text) as (fs & E & V & _).
    exists fs. split; [exact E|]. unfold voltage_rule in V.
    destruct (search U voltage_dual_re (lower U text)) as [m|] eqn:S2.
    + destruct V as (X & s1 & s2 & Y & s3 & y & V).
      split; [|split].
      * intros _. exists m, X, s1, s2, Y, s3, y. split; [reflexivity|exact V].
      * intros N. apply search_none in N. congruence.
      * intros N. apply search_none in N. congruence.
    + destruct (search U voltage_re (lower U text)) as [m|] eqn:S1.
      * destruct V as (X & s1 & x & V). split; [|split].
        -- intros O. apply search_occurs in O. congruence.
        -- intros _ _. exists m, X, s1, x. split; [reflexivity|exact V].
        -- intros _ N. apply search_none in N. congruence.
      * split; [|split].
        -- intros O. apply search_occurs in O. congruence.
        -- intros _ O. apply search_occurs in O. congruence.
        -- intros _ _. exact V.
  - intros U text before after A E N D.
    pose proof (search_first U voltage_dual_re before _ _ N
                  (match_at_rating U after A)) as S.
    rewrite <- E in S.
    destruct (fallback_extract_dual U _ (str "6") 6%float text S)
      as (fs & F & St & V); [reflexivity|now apply float_of_six|].
    destruct (voltage_above_fails fs 6%float V) as (v & c & R & I);
      [vm_compute; reflexivity|].
    exists fs, v, c. split; [exact F|]. split; [|auto].
    rewrite St. unfold standard_of.
    apply names_designator_spec in D. now rewrite D.
Qed.

Lemma leftmost_rating_on_mv :
  exists fs v c,
    fallback_extract ascii design_mv = Ok (fields_dict fs) /\
    standard fs = Some (str "IEC 60502-1") /\
    voltage_kv fs = Some 6%float /\
    apply_iec_rules (PDict (fields_dict fs)) = Ok (v, FAIL, c) /\
    In (str "voltage_kv", FAIL) (tags v).
Proof.
  apply (proj2 voltage_leftmost_dual_rating ascii design_mv
           (str "iec 60502-1, ") []).
  - exact ascii_in_range.
  - vm_compute. reflexivity.
  - apply no_match_inside_spec. vm_compute. reflexivity.
  - apply names_designator_spec. vm_compute. reflexivity.
Defined.

(** A text that contains "3.6/6 kV" and names the standard, but whose
    leftmost dual rating is another one: the voltage is 1.0, no finding
    bears on it and the status is WARN. *)
Lemma second_dual_rating_ignored :
  substring (str "3.6/6 kV") design_two_ratings /\
  substring (str "IEC 60502-1") design_two_ratings /\
  exists fs v c,
    fallback_extract ascii design_two_ratings = Ok (fields_dict fs) /\
    voltage_kv fs = Some 1%float /\
    apply_iec_rules (PDict (fields_dict fs)) = Ok (v, WARN, c) /\
    tags v = [ (str "conductor_material", WARN);
               (str "conductor_class", WARN); (str "csa_mm2", WARN);
               (str "insulation_material", WARN);
               (str "insulation_thickness_mm", WARN) ].
Proof.
  split; [exists (str "IEC 60502-1, 0.6/1 kV, "), []; vm_compute; reflexivity|].
  split; [exists [], (str ", 0.6/1 kV, 3.6/6 kV"); vm_compute; reflexivity|].
  exists (mkFieldSet (Some (str "IEC 60502-1")) (Some 1%float)
            None None None None None).
  eexists. eexists. split; [vm_compute; reflexivity|].
  split; [reflexivity|]. split; vm_compute; reflexivity.
Qed.

(** ** The area taken for the thickness *)

Lemma followers_spec (sub s before after : text) :
  s = before ++ sub ++ after -> In after (followers sub s).
Proof.
  revert s. induction before as [|c before IH]; intros s ->.
  - cbn [app]. assert (S : startswith (sub ++ after) sub = true)
      by (apply startswith_spec; now exists after).
    assert (K : skipn (List.length sub) (sub ++ after) = after).
    { rewrite skipn_app, skipn_all, Nat.sub_diag. reflexivity. }
    destruct (sub ++ after) as [|x l] eqn:E; cbn [followers];
      rewrite S; apply in_or_app; left; left; exact K.
  - cbn [app followers]. apply in_or_app. right. now apply IH.
Qed.

(** C9. The low-voltage design with an area and no thickness: no
    insulation keyword occurs, and the only [mm] of the text is that of the
    area unit [mm²]; yet the scan for [N mm] matches the area token, the
    thickness is assigned the value of the area, and the rule engine
    reports no finding, the status PASS and the confidence 1.00. *)
Theorem area_taken_for_thickness :
  ~ occurs ascii thickness_re (lower ascii design_no_thickness) /\
  (forall before after,
     lower ascii design_no_thickness = before ++ str "mm" ++ after ->
     exists rest, after = str "²" ++ rest) /\
  findall0 ascii csa_re (lower ascii design_no_thickness) = [str "10 mm²"] /\
  findall0 ascii mm_re (lower ascii design_no_thickness) = [str "10 mm"] /\
  fallback_extract ascii design_no_thickness
  = Ok (fields_dict
          (mkFieldSet (Some (str "IEC 60502-1")) (Some 1%float)
             (Some (str "Cu")) (Some (str "Class 2")) (Some 10%float)
             (Some (str "PVC")) (Some 10%float))) /\
  apply_iec_rules
    (PDict (fields_dict
              (mkFieldSet (Some (str "IEC 60502-1")) (Some 1%float)
                 (Some (str "Cu")) (Some (str "Class 2")) (Some 10%float)
                 (Some (str "PVC")) (Some 10%float))))
  = Ok ([], PASS, 1%float).
Proof.
  split; [apply search_none; vm_compute; reflexivity|].
  split.
  { intros before after E. apply followers_spec in E.
    vm_compute in E. destruct E as [<-|[]].
    exists (str ", pvc"). vm_compute. reflexivity. }
  repeat split; vm_compute; reflexivity.
Qed.

(** ** When the rule engine returns *)

(** X7. On an object that is no [dict] the rule engine raises
    [TypeError]. On a [dict] whose measured fields, when they are [int]
    objects, are of a size the interpreter formats, it returns exactly when
    the seven keys are present and the voltage and the thickness are null
    or numbers, and otherwise raises [KeyError] (a key is absent) or
    [TypeError] (a measured field cannot be ordered against a number),
    nothing else. The other five values are never inspected beyond being
    null or not. *)
Theorem rules_return_iff_well_formed (p : pyval) :
  ((forall d, p <> PDict d) -> apply_iec_rules p = Raise TypeError) /\
  (forall d, p = PDict d -> formattable d ->
     ((exists r, apply_iec_rules p = Ok r) <-> well_formed d) /\
     (forall e, apply_iec_rules p = Raise e -> e = KeyError \/ e = TypeError)).
Proof.
  split.
  - intros N. destruct p; try reflexivity. now destruct (N d).
  - intros d -> _. split.
    + split.
      * intros (r & H). exact (rules_ok_well_formed d r H).
      * apply well_formed_rules_ok.
    + apply rules_raise_kind.
Qed.

Lemma rules_return_on_null_fields :
  exists r, apply_iec_rules (PDict (fields_dict all_null)) = Ok r.
Proof.
  apply (proj2 (rules_return_iff_well_formed (PDict (fields_dict all_null)))
           (fields_dict all_null) eq_refl).
  - intros k z [->| ->] H; vm_compute in H; discriminate H.
  - split; [|split].
    + intros k I. vm_compute in I.
      repeat (destruct I as [<-|I]; [vm_compute; reflexivity|]).
      destruct I.
    + intros v H. vm_compute in H. injection H as <-. reflexivity.
    + intros v H. vm_compute in H. injection H as <-. reflexivity.
Defined.
